(** * cubicasa: dataset artifact cache, array codec, key tree and sampler

    A shallow embedding of [src/cubicasa/__init__.py] and the properties its
    specification states about it.  Python dictionaries are modelled as
    insertion-ordered association lists with unique keys, exceptions as an
    error monad, the file system and the module-level [_cache] as explicit
    state. *)

From Stdlib Require Import ZArith NArith String Ascii Strings.Byte List Lia Bool.
From Stdlib Require Import DecimalString DecimalN DecimalFacts SpecFloat.
From stdpp Require Import base option list strings gmap sorting.

Local Open Scope string_scope.
Set Warnings "-register-all".

(** ** Python runtime: exceptions and results *)

Module Py.

(** The exception classes the module can raise, directly or through the
    library calls it makes. *)
Inductive exn : Set :=
  | KeyError | ValueError | TypeError | IndexError | AttributeError
  | ZeroDivisionError | SyntaxError | UnicodeDecodeError
  | HTTPError | BadGzipFile | BadZipFile
  | FileNotFoundError | FileExistsError | IsADirectoryError.

Inductive result (A : Type) : Type :=
  | Ok (a : A)
  | Raise (e : exn).
Global Arguments Ok {A} a.
Global Arguments Raise {A} e.

Global Instance result_ret : MRet result := fun A a => Ok a.
Global Instance result_bind : MBind result := fun A B f m =>
  match m with Ok a => f a | Raise e => Raise e end.
Global Instance result_fmap : FMap result := fun A B f m =>
  match m with Ok a => Ok (f a) | Raise e => Raise e end.

Definition is_ok {A} (r : result A) : bool :=
  match r with Ok _ => true | Raise _ => false end.


(** *** dict: insertion-ordered mapping with string keys *)

Section Dict.
Context {V : Type}.

Definition dict := list (string * V).

(** [d.get(k)] *)
Fixpoint get (k : string) (d : dict) : option V :=
  match d with
  | [] => None
  | (k', v) :: d' => if String.eqb k k' then Some v else get k d'
  end.

(** [d[k] = v]: an existing key keeps its position, a new key goes last. *)
Fixpoint set (k : string) (v : V) (d : dict) : dict :=
  match d with
  | [] => [(k, v)]
  | (k', v') :: d' =>
      if String.eqb k k' then (k', v) :: d' else (k', v') :: set k v d'
  end.

Definition keys (d : dict) : list string := map fst d.

(** No key occurs twice: what every dict satisfies. *)
Fixpoint distinct (ks : list string) : bool :=
  match ks with
  | [] => true
  | k :: ks' => negb (existsb (String.eqb k) ks') && distinct ks'
  end.

(** [d[k]], raising [KeyError] on a missing key. *)
Definition getitem (k : string) (d : dict) : result V :=
  match get k d with Some v => Ok v | None => Raise KeyError end.

(** A dict literal or comprehension: later bindings win. *)
Definition of_list (l : list (string * V)) : dict :=
  fold_left (fun d kv => set kv.1 kv.2 d) l [].
End Dict.
Global Arguments dict V : clear implicits.

(** [s.split(sep)] for a one-character separator: always at least one part. *)
Fixpoint split (sep : ascii) (s : string) : list string :=
  match s with
  | EmptyString => [""]
  | String c s' =>
      if Ascii.eqb c sep then "" :: split sep s'
      else match split sep s' with
           | p :: ps => String c p :: ps
           | [] => [String c ""]
           end
  end.

(** [s[:-n]] *)
Definition drop_last (n : nat) (s : string) : string :=
  substring 0 (String.length s - n) s.

(** *** Literals: the values [ast.literal_eval] can return

    A value of a type this development never builds itself (a float, a
    complex number, a bytes object, a set) is kept opaque, under its
    [repr]. *)

Inductive pyobj : Type :=
  | PyNone
  | PyBool (b : bool)
  | PyInt (z : Z)
  | PyStr (s : string)
  | PyTuple (xs : list pyobj)
  | PyList (xs : list pyobj)
  | PyDict (items : list (pyobj * pyobj))
  | PyOther (repr : string).

(** [obj[key]] for a string [key].  A dict display keeps the last binding
    of a repeated key, and only a [str] key equals a [str]; anything that is
    not a dict cannot be indexed by a string. *)
Fixpoint lookup_str (key : string) (items : list (pyobj * pyobj)) : option pyobj :=
  match items with
  | [] => None
  | (PyStr k, v) :: rest =>
      match lookup_str key rest with
      | Some v' => Some v'
      | None => if String.eqb k key then Some v else None
      end
  | _ :: rest => lookup_str key rest
  end.

Definition subscript (obj : pyobj) (key : string) : result pyobj :=
  match obj with
  | PyDict items =>
      match lookup_str key items with Some v => Ok v | None => Raise KeyError end
  | _ => Raise TypeError
  end.

End Py.

Import Py.

(** ** KeyTree: flatten and unflatten *)

Module KeyTree.

Section WithLeaf.
(** The leaf values (arrays); anything that is not a mapping. *)
Context {A : Type}.

(** A value stored in a nested mapping: [isinstance(v, dict)] or not. *)
Inductive value : Type :=
  | Arr (a : A)
  | Dict (items : list (string * value)).

Definition mapping := list (string * value).

(** [f'{k}/{kk}'] *)
Definition join (k kk : string) : string := k ++ "/" ++ kk.

(** One iteration of the loop of [flatten] (lines 62-67), on the entry
    [(k, v)] with the accumulated [flat]. *)
Fixpoint flatten_entry (flat : dict A) (k : string) (v : value) : dict A :=
  match v with
  | Dict sub =>
      fold_left (fun flat kv => set (join k kv.1) kv.2 flat)
        (fold_left (fun f kv => flatten_entry f kv.1 kv.2) sub [])
        flat
  | Arr a => set k a flat
  end.

Definition flatten (tree : mapping) : dict A :=
  fold_left (fun flat kv => flatten_entry flat kv.1 kv.2) tree [].

(** [node = tree; for p in parts[:-1]: node = node.setdefault(p, {});
    node[parts[-1]] = v], as the update of [node] along [parts].  A leaf
    met on the way is an array: it has no [setdefault] (AttributeError)
    and cannot be indexed by a string (IndexError). *)
Fixpoint assign (parts : list string) (v : A) (node : mapping) : result mapping :=
  match parts with
  | [] => Ok node
  | [last] => Ok (set last (Arr v) node)
  | p :: ((_ :: more) as rest) =>
      match get p node with
      | None => sub ← assign rest v []; Ok (set p (Dict sub) node)
      | Some (Dict sub) => sub' ← assign rest v sub; Ok (set p (Dict sub') node)
      | Some (Arr _) =>
          match more with
          | [] => Raise IndexError
          | _ :: _ => Raise AttributeError
          end
      end
  end.

Definition unflatten (d : dict A) : result mapping :=
  fold_left (fun tree kv => t ← tree; assign (split "/" kv.1) kv.2 t) d (Ok []).

(** *** The trees the round trip is stated for *)

Fixpoint slash_free (k : string) : bool :=
  match k with
  | EmptyString => true
  | String c k' => negb (Ascii.eqb c "/") && slash_free k'
  end.

(** Every mapping of the tree has distinct keys, none with a ['/']. *)
Fixpoint well_keyed (v : value) : bool :=
  match v with
  | Arr _ => true
  | Dict items =>
      distinct (keys items)
      && forallb (fun kv => slash_free kv.1 && well_keyed kv.2) items
  end.

(** No mapping inside [v], nor [v] itself, is empty. *)
Fixpoint inhabited (v : value) : bool :=
  match v with
  | Arr _ => true
  | Dict items =>
      match items with [] => false | _ :: _ => forallb (fun kv => inhabited kv.2) items end
  end.

(** What [flatten] yields for one entry, read off the tree. *)
Fixpoint paths_entry (k : string) (v : value) : list (list string * A) :=
  match v with
  | Arr a => [([k], a)]
  | Dict sub =>
      map (fun pa => (k :: pa.1, pa.2)) (flat_map (fun kv => paths_entry kv.1 kv.2) sub)
  end.

Definition paths (tree : mapping) : list (list string * A) :=
  flat_map (fun kv => paths_entry kv.1 kv.2) tree.

(** The same leaves under their joined keys. *)
Fixpoint flat_entry (k : string) (v : value) : dict A :=
  match v with
  | Arr a => [(k, a)]
  | Dict sub =>
      map (fun kv => (join k kv.1, kv.2)) (flat_map (fun kv => flat_entry kv.1 kv.2) sub)
  end.

Definition key_path (kv : string * A) : list string * A := (split "/" kv.1, kv.2).

(** The loop of [unflatten] over keys already split. *)
Definition assign_all (ps : list (list string * A)) (node : result mapping)
  : result mapping :=
  fold_left (fun t pa => t ≫= assign pa.1 pa.2) ps node.


End WithLeaf.
Global Arguments value A : clear implicits.
Global Arguments mapping A : clear implicits.

End KeyTree.

(** ** Literal parsing: [ast.literal_eval] on the header grammar

    A recursive-descent reader of the literals the writer puts in a header:
    dict, tuple and list displays, quoted strings of printable ASCII
    without escapes, decimal integers, [True], [False] and [None],
    separated by blanks and tabs.  On such a text it returns what
    [ast.literal_eval] returns; it reads no other text (a float, a hex or
    signed number, a comment, a set, a bytes or escaped string, an
    unhashable key, a line break inside the literal), and a text it does
    not read is left to the library ([Codec.literal_eval_rest]). *)

Module Literal.

Definition is_space (c : ascii) : bool :=
  (Ascii.eqb c " " || Ascii.eqb c "009")%bool.

(** The characters a string literal can hold as they stand. *)
Definition printable (c : ascii) : bool :=
  let n := N_of_ascii c in ((32 <=? n) && (n <=? 126))%N.

Definition is_digit (c : ascii) : bool :=
  let n := N_of_ascii c in ((48 <=? n) && (n <=? 57))%N.

Fixpoint skip_ws (s : string) : string :=
  match s with
  | String c s' => if is_space c then skip_ws s' else s
  | EmptyString => EmptyString
  end.

(** The longest prefix of digits, and what follows it. *)
Fixpoint span_digits (s : string) : string * string :=
  match s with
  | String c s' =>
      if is_digit c then let '(ds, rest) := span_digits s' in (String c ds, rest)
      else (EmptyString, s)
  | EmptyString => (EmptyString, EmptyString)
  end.

Fixpoint all_zero (s : string) : bool :=
  match s with
  | String c s' => Ascii.eqb c "0" && all_zero s'
  | EmptyString => true
  end.

(** A decimal integer literal: no leading zero unless it is all zeros. *)
Definition read_nat (s : string) : option (Z * string) :=
  let '(ds, rest) := span_digits s in
  match ds with
  | EmptyString => None
  | String c _ =>
      if (Ascii.eqb c "0" && negb (all_zero ds))%bool then None
      else match NilEmpty.uint_of_string ds with
           | Some u => Some (Z.of_N (N.of_uint u), rest)
           | None => None
           end
  end.

(** The body of a string literal up to the closing quote [q]; a
    backslash, a control character (a line break, a NUL) or a byte outside
    ASCII inside is outside the grammar read here. *)
Fixpoint read_quoted (q : ascii) (s : string) : option (string * string) :=
  match s with
  | String c s' =>
      if Ascii.eqb c q then Some (EmptyString, s')
      else if (Ascii.eqb c "\" || negb (printable c))%bool then None
      else match read_quoted q s' with
           | Some (body, rest) => Some (String c body, rest)
           | None => None
           end
  | EmptyString => None
  end.

(** A string body that [read_quoted q] reads whole. *)
Fixpoint plain (q : ascii) (body : string) : bool :=
  match body with
  | String c body' =>
      negb (Ascii.eqb c q || Ascii.eqb c "\" || negb (printable c)) && plain q body'
  | EmptyString => true
  end.

(** [hash(obj)] does not raise: a list or a dict is unhashable, and so is
    a tuple that holds one. *)
Fixpoint hashable (obj : pyobj) : bool :=
  match obj with
  | PyList _ | PyDict _ => false
  | PyTuple xs => forallb hashable xs
  | _ => true
  end.

(** [s] does not go on with a digit. *)
Definition no_digit_ahead (s : string) : bool :=
  match s with String c _ => negb (is_digit c) | EmptyString => true end.

(** [prefix p s]: [s] without its prefix [p], when it has it. *)
Fixpoint strip_prefix (p s : string) : option string :=
  match p, s with
  | EmptyString, _ => Some s
  | String a p', String b s' => if Ascii.eqb a b then strip_prefix p' s' else None
  | String _ _, EmptyString => None
  end.

Definition read_keyword (s : string) : option (pyobj * string) :=
  match strip_prefix "True" s with
  | Some r => Some (PyBool true, r)
  | None =>
      match strip_prefix "False" s with
      | Some r => Some (PyBool false, r)
      | None =>
          match strip_prefix "None" s with
          | Some r => Some (PyNone, r)
          | None => None
          end
      end
  end.

(** [read_value n s] reads one literal at the head of [s]; [read_seq]
    reads the elements of a display up to [close] and tells whether a comma
    was seen; [read_items] reads [key: value] pairs with hashable keys up
    to the closing brace.  [n] bounds the nesting and the number of
    elements. *)
Fixpoint read_value (n : nat) (s : string) {struct n} : option (pyobj * string) :=
  match n with
  | O => None
  | S n' =>
      match skip_ws s with
      | EmptyString => None
      | String c s1 =>
          if Ascii.eqb c "{" then
            match read_items n' s1 with
            | Some (items, s2) => Some (PyDict items, s2)
            | None => None
            end
          else if Ascii.eqb c "(" then
            match read_seq n' ")" s1 with
            | Some ([x], false, s2) => Some (x, s2)
            | Some (xs, _, s2) => Some (PyTuple xs, s2)
            | None => None
            end
          else if Ascii.eqb c "[" then
            match read_seq n' "]" s1 with
            | Some (xs, _, s2) => Some (PyList xs, s2)
            | None => None
            end
          else if (Ascii.eqb c "'" || Ascii.eqb c "034")%bool then
            match read_quoted c s1 with
            | Some (body, s2) => Some (PyStr body, s2)
            | None => None
            end
          else if Ascii.eqb c "-" then
            match read_nat s1 with
            | Some (z, s2) => Some (PyInt (- z), s2)
            | None => None
            end
          else if is_digit c then
            match read_nat (String c s1) with
            | Some (z, s2) => Some (PyInt z, s2)
            | None => None
            end
          else read_keyword (String c s1)
      end
  end
with read_seq (n : nat) (close : ascii) (s : string) {struct n}
  : option (list pyobj * bool * string) :=
  match n with
  | O => None
  | S n' =>
      match skip_ws s with
      | EmptyString => None
      | String c s1 =>
          if Ascii.eqb c close then Some ([], false, s1)
          else
            match read_value n' (String c s1) with
            | None => None
            | Some (x, s2) =>
                match skip_ws s2 with
                | EmptyString => None
                | String c' s3 =>
                    if Ascii.eqb c' close then Some ([x], false, s3)
                    else if Ascii.eqb c' "," then
                      match read_seq n' close s3 with
                      | Some (xs, _, s4) => Some (x :: xs, true, s4)
                      | None => None
                      end
                    else None
                end
            end
      end
  end
with read_items (n : nat) (s : string) {struct n}
  : option (list (pyobj * pyobj) * string) :=
  match n with
  | O => None
  | S n' =>
      match skip_ws s with
      | EmptyString => None
      | String c s1 =>
          if Ascii.eqb c "}" then Some ([], s1)
          else
            match read_value n' (String c s1) with
            | None => None
            | Some (k, s2) =>
                if negb (hashable k) then None
                else
                match skip_ws s2 with
                | String ":" s3 =>
                    match read_value n' s3 with
                    | None => None
                    | Some (v, s4) =>
                        match skip_ws s4 with
                        | EmptyString => None
                        | String c' s5 =>
                            if Ascii.eqb c' "}" then Some ([(k, v)], s5)
                            else if Ascii.eqb c' "," then
                              match read_items n' s5 with
                              | Some (kvs, s6) => Some ((k, v) :: kvs, s6)
                              | None => None
                              end
                            else None
                        end
                    end
                | _ => None
                end
            end
      end
  end.

(** What may follow the literal: blanks, and one line break at the end. *)
Definition blank_tail (s : string) : bool :=
  match skip_ws s with
  | EmptyString => true
  | String c s' => Ascii.eqb c "010" && String.eqb s' EmptyString
  end.

(** [s] begins with a blank: an indented text, which the interpreters
    before 3.10 do not take. *)
Definition indented (s : string) : bool :=
  match s with String c _ => is_space c | EmptyString => false end.

(** The literal this development reads [text] as, if it reads it: one
    literal of the grammar above, not indented and with a blank tail, in
    a text of at most 255 characters (the longest [fastload] can pass
    on), nested at most 48 deep: well inside the limits every version of
    the interpreter sets on nesting and on the digits of a number. *)
Definition read_literal (text : string) : option pyobj :=
  if (Nat.ltb 255 (String.length text) || indented text)%bool then None
  else
    match read_value 96 text with
    | Some (v, rest) => if blank_tail rest then Some v else None
    | None => None
    end.

(** [ast.literal_eval(text)]: the literal read here, or what the library
    ([rest]) makes of a text that is not read here. *)
Definition literal_eval (rest : string -> result pyobj) (text : string) : result pyobj :=
  match read_literal text with
  | Some v => Ok v
  | None => rest text
  end.

End Literal.

(** ** BinaryArrayCodec: [fastload] and the writer it reads *)

Module Codec.

(** A [numpy.ndarray] of a fixed-width numeric type: its type descriptor,
    its shape and its elements as contiguous row-major bytes. *)
Record ndarray : Type := NDArray {
  descr : string;
  shape : list Z;
  data : list byte
}.

(** The size in bytes of the boolean, integer, float and complex types a
    descriptor can name after its byte-order character. *)
Definition kind_size (code : string) : option Z :=
  (if String.eqb code "b1" then Some 1
   else if String.eqb code "i1" || String.eqb code "u1" then Some 1
   else if String.eqb code "i2" || String.eqb code "u2" || String.eqb code "f2" then Some 2
   else if String.eqb code "i4" || String.eqb code "u4" || String.eqb code "f4" then Some 4
   else if String.eqb code "i8" || String.eqb code "u8" || String.eqb code "f8"
           || String.eqb code "c8" then Some 8
   else if String.eqb code "c16" then Some 16
   else None)%Z.

Definition itemsize (descr : string) : option Z :=
  match descr with
  | String c code =>
      if (Ascii.eqb c "<" || Ascii.eqb c ">" || Ascii.eqb c "|" || Ascii.eqb c "=")%bool
      then kind_size code else kind_size descr
  | EmptyString => None
  end.

(** What the library does outside the part of it modelled here: numpy and
    [ast] are not among the sources.  Each is the value the call returns,
    or what it raises. *)
Class Library : Type := {
  (** [ast.literal_eval(text)] on a text [Literal.read_literal] does not read *)
  literal_eval_rest : string -> result pyobj;
  (** [np.frombuffer(buf, dtype=obj)] for a type object outside the table *)
  frombuffer_rest : list byte -> pyobj -> result ndarray;
  (** [a.reshape(obj)] for a shape that is no integer or sequence of integers *)
  reshape_rest : ndarray -> pyobj -> result ndarray
}.

(** The type objects of the table: the descriptor strings above, with
    their element size. *)
Definition dtype (obj : pyobj) : option (string * Z) :=
  match obj with
  | PyStr s =>
      match itemsize s with Some sz => Some (s, sz) | None => None end
  | _ => None
  end.

(** The dimensions given as an integer or a sequence of integers. *)
Fixpoint ints (xs : list pyobj) : option (list Z) :=
  match xs with
  | [] => Some []
  | PyInt z :: xs' =>
      match ints xs' with Some zs => Some (z :: zs) | None => None end
  | _ :: _ => None
  end.

Definition dims (obj : pyobj) : option (list Z) :=
  match obj with
  | PyInt z => Some [z]
  | PyTuple xs | PyList xs => ints xs
  | _ => None
  end.

Definition product (zs : list Z) : Z := fold_right Z.mul 1%Z zs.

(** numpy resolves a requested shape against the number of elements: one
    negative entry stands for the dimension left to infer. *)
Definition fix_shape (size : Z) (zs : list Z) : result (list Z) :=
  let known := product (List.filter (fun z => 0 <=? z)%Z zs) in
  match length (List.filter (fun z => z <? 0)%Z zs) with
  | O => if (size =? known)%Z then Ok zs else Raise ValueError
  | 1%nat =>
      if ((known =? 0) || negb (size mod known =? 0))%Z then Raise ValueError
      else Ok (map (fun z => if (z <? 0)%Z then (size / known)%Z else z) zs)
  | _ => Raise ValueError
  end.

Section WithLibrary.
Context {lib : Library}.

(** [np.frombuffer(buf, dtype=obj)]: a one-dimensional view of the whole
    buffer, whose length must be a multiple of the element size. *)
Definition frombuffer (buf : list byte) (obj : pyobj) : result ndarray :=
  match dtype obj with
  | Some (d, sz) =>
      let len := Z.of_nat (length buf) in
      if (len mod sz =? 0)%Z
      then Ok (NDArray d [(len / sz)%Z] buf)
      else Raise ValueError
  | None => frombuffer_rest buf obj
  end.

(** [a.reshape(obj)] *)
Definition reshape (a : ndarray) (obj : pyobj) : result ndarray :=
  match dims obj with
  | Some zs =>
      zs' ← fix_shape (product (shape a)) zs;
      Ok (NDArray (descr a) zs' (data a))
  | None => reshape_rest a obj
  end.

End WithLibrary.

(** [raw[i:j]] for [0 <= i <= j]; a slice never fails, it clips. *)
Definition slice {A} (i j : nat) (l : list A) : list A := take (j - i) (drop i l).

(** UTF-8 well-formedness, for [bytes.decode()]. *)
Definition cont (b : byte) : bool := (128 <=? Byte.to_N b)%N && (Byte.to_N b <=? 191)%N.
Definition between (lo hi : N) (b : byte) : bool :=
  (lo <=? Byte.to_N b)%N && (Byte.to_N b <=? hi)%N.

Fixpoint utf8 (bs : list byte) : bool :=
  match bs with
  | [] => true
  | b :: bs1 =>
      if between 0 127 b then utf8 bs1
      else match bs1 with
      | [] => false
      | b1 :: bs2 =>
          if between 194 223 b then cont b1 && utf8 bs2
          else match bs2 with
          | [] => false
          | b2 :: bs3 =>
              if between 224 239 b then
                (if Byte.eqb b xe0 then between 160 191 b1
                 else if Byte.eqb b xed then between 128 159 b1
                 else cont b1) && cont b2 && utf8 bs3
              else match bs3 with
              | [] => false
              | b3 :: bs4 =>
                  between 240 244 b
                  && (if Byte.eqb b xf0 then between 144 191 b1
                      else if Byte.eqb b xf4 then between 128 143 b1
                      else cont b1)
                  && cont b2 && cont b3 && utf8 bs4
              end
          end
      end
  end.

(** [bs.decode()]: the text, kept as its UTF-8 bytes. *)
Definition decode (bs : list byte) : result string :=
  if utf8 bs then Ok (string_of_list_byte bs) else Raise UnicodeDecodeError.

(** [np.frombuffer(raw[8:9], dtype=np.uint8)[0]] *)
Definition headerlen (raw : list byte) : result nat :=
  match slice 8 9 raw with
  | b :: _ => Ok (N.to_nat (Byte.to_N b))
  | [] => Raise IndexError
  end.

Section Fastload.
Context {lib : Library}.

(** Lines 97-99. *)
Definition fastload (raw : list byte) : result ndarray :=
  headerlen ← headerlen raw;
  text ← decode (slice 10 (10 + headerlen) raw);
  header ← Literal.literal_eval literal_eval_rest text;
  d ← subscript header "descr";
  a ← frombuffer (drop (10 + headerlen) raw) d;
  s ← subscript header "shape";
  reshape a s.

(** The header literal [fastload] reads, before any key is looked up. *)
Definition parsed_header (raw : list byte) : result pyobj :=
  headerlen ← headerlen raw;
  text ← decode (slice 10 (10 + headerlen) raw);
  Literal.literal_eval literal_eval_rest text.

End Fastload.

Definition payload (raw : list byte) : result (list byte) :=
  headerlen ← headerlen raw;
  Ok (drop (10 + headerlen) raw).

(** *** The writer *)

(** [repr] of a non-negative integer and of a tuple of them. *)
Definition repr_int (z : Z) : string := NilEmpty.string_of_uint (N.to_uint (Z.to_N z)).

Fixpoint repr_elems (zs : list Z) : string :=
  match zs with
  | [] => ""
  | [z] => repr_int z
  | z :: zs' => repr_int z ++ ", " ++ repr_elems zs'
  end.

Definition repr_tuple (zs : list Z) : string :=
  match zs with
  | [] => "()"
  | [z] => "(" ++ repr_int z ++ ",)"
  | _ => "(" ++ repr_elems zs ++ ")"
  end.

Definition header_dict (a : ndarray) : string :=
  "{'descr': '" ++ descr a ++ "', 'fortran_order': False, 'shape': "
  ++ repr_tuple (shape a) ++ ", }".

Fixpoint spaces (n : nat) : string :=
  match n with O => "" | S n' => String " " (spaces n') end.

(** The header text: the dict, blanks up to a 64-byte boundary, a newline. *)
Definition header_text (a : ndarray) : string :=
  let d := header_dict a in
  let padlen := 64 - (10 + String.length d + 1) mod 64 in
  d ++ spaces padlen ++ String "010" "".

(** What the header text reads back as. *)
Definition header_obj (d : string) (zs : list Z) : pyobj :=
  PyDict [(PyStr "descr", PyStr d); (PyStr "fortran_order", PyBool false);
          (PyStr "shape", PyTuple (map PyInt zs))].

Fixpoint ascii_only (s : string) : bool :=
  match s with
  | String c s' => (N_of_ascii c <? 128)%N && ascii_only s'
  | EmptyString => true
  end.

Definition magic : list byte := [x93; x4e; x55; x4d; x50; x59; x01; x00].

Definition byte_of_nat (n : nat) : byte :=
  match Byte.of_N (N.of_nat n mod 256) with Some b => b | None => x00 end.

(** Modelled from the spec: the encoder is [np.savez] (called at line 115),
    which is not in the repository's sources.  Section 4.1 describes its
    output: a fixed magic and version prefix, the length [L] of the header
    text, [L] bytes of an ASCII literal with the keys [descr] and [shape],
    then the raw row-major payload.  The offsets are those the decoder is
    said to read: the prefix fills bytes 0 to 7, the length sits at offset
    8 with its high byte at offset 9, and the text starts at offset 10. *)
Definition encode (a : ndarray) : list byte :=
  let text := header_text a in
  let L := String.length text in
  magic ++ [byte_of_nat L; byte_of_nat (L / 256)]
        ++ list_byte_of_string text ++ data a.

(** A blob in the writer's layout around any header text and payload. *)
Definition blob (text : string) (payload : list byte) : list byte :=
  magic ++ [byte_of_nat (String.length text); byte_of_nat (String.length text / 256)]
        ++ list_byte_of_string text ++ payload.

(** A library that takes nothing outside the part modelled here: for
    running the examples, which stay inside it. *)
Definition narrow : Library := {|
  literal_eval_rest := fun _ => Raise SyntaxError;
  frombuffer_rest := fun _ _ => Raise TypeError;
  reshape_rest := fun _ _ => Raise TypeError
|}.

(** An example: a 1 x 2 array of little-endian doubles. *)
Definition matrix : ndarray := NDArray "<f8" [1%Z; 2%Z] (repeat x01 16).

(** The arrays the codec is for: a known element type, non-negative
    dimensions, a payload of the matching size, and a header text whose
    length fits the one byte read back. *)
Definition supported (a : ndarray) : Prop :=
  (exists sz, itemsize (descr a) = Some sz
              /\ Z.of_nat (length (data a)) = (product (shape a) * sz)%Z)
  /\ Forall (fun z => (0 <= z)%Z) (shape a)
  /\ String.length (header_text a) < 256.

End Codec.

(** ** The process state: file system, log, network and [_cache] *)

Module World.

Import KeyTree Codec.

(** What a run can be observed to do. *)
Inductive event : Type :=
  | Log (msg : string)          (* log.info(msg) *)
  | Get (url : string)          (* requests.get(url) *)
  | Mkdir (path : string)       (* Path.mkdir(exist_ok=True, parents=True) *)
  | WriteBytes (path : string). (* Path.write_bytes(...) *)

(** A row of the SVG frame. *)
Record row : Type := Row { id : string; svg : string }.

(** A leaf of the sample cache: an array of the geometry artifact, or the
    id string [sample] adds to every item. *)
Inductive leaf : Type :=
  | Array (a : ndarray)
  | Str (s : string).

Record world : Type := World {
  files : gmap string (list byte);
  dirs : gset string;
  trace : list event;
  _cache : option (mapping leaf)
}.

(** A computation that reads and updates the world and may raise; what it
    did before raising stays done. *)
Definition M (A : Type) : Type := world -> result A * world.

Global Instance M_ret : MRet M := fun A a w => (Ok a, w).
Global Instance M_bind : MBind M := fun A B f m w =>
  match m w with
  | (Ok a, w') => f a w'
  | (Raise e, w') => (Raise e, w')
  end.

Definition lift {A} (r : result A) : M A := fun w => (r, w).
Definition emit (e : event) : M unit := fun w =>
  (Ok tt, World (files w) (dirs w) (trace w ++ [e]) (_cache w)).

Definition log_info (msg : string) : M unit := emit (Log msg).

(** The world after some more events and nothing else. *)
Definition logged (w : world) (evs : list event) : world :=
  World (files w) (dirs w) (trace w ++ evs) (_cache w).

(** [p.exists()] *)
Definition path_exists (p : string) : M bool := fun w =>
  (Ok (bool_decide (is_Some (files w !! p)) || bool_decide (p ∈ dirs w)), w).

(** [p.mkdir(exist_ok=True, parents=True)]: a directory already there is
    left as it is; a regular file at [p] makes it raise. *)
Definition mkdir (p : string) : M unit := fun w =>
  match files w !! p with
  | Some _ => (Raise FileExistsError, w)
  | None => (Ok tt, World (files w) ({[p]} ∪ dirs w) (trace w ++ [Mkdir p]) (_cache w))
  end.

(** [p.write_bytes(bs)], in a directory that exists (every caller has made
    it): a directory at [p] makes it raise. *)
Definition write_bytes (p : string) (bs : list byte) : M unit := fun w =>
  if bool_decide (p ∈ dirs w) then (Raise IsADirectoryError, w)
  else (Ok tt, World (<[p := bs]> (files w)) (dirs w) (trace w ++ [WriteBytes p]) (_cache w)).

(** [p.read_bytes()] *)
Definition read_bytes (p : string) : M (list byte) := fun w =>
  (match files w !! p with
   | Some bs => Ok bs
   | None => Raise (if bool_decide (p ∈ dirs w) then IsADirectoryError else FileNotFoundError)
   end, w).

Definition get_cache : M (option (mapping leaf)) := fun w => (Ok (_cache w), w).
Definition set_cache (c : mapping leaf) : M unit := fun w =>
  (Ok tt, World (files w) (dirs w) (trace w) (Some c)).

(** The collaborators outside the module: numpy and [ast], the network,
    gzip, zip, pandas, rebar and the geometry extraction. *)
Class Externals : Type := {
  library :: Library;
  (** the body [requests.get(url)] streams, or what it raises *)
  http_get : string -> result (list byte);
  gzip_compress : list byte -> list byte;
  gzip_decompress : list byte -> result (list byte);
  (** [pd.read_json(...)], as the rows [iterrows] yields *)
  read_json : list byte -> result (list row);
  (** lines 44-52: the frame of the SVGs in the zip, as JSON *)
  svgs_json : list byte -> result (list byte);
  (** [ZipFile.namelist()] with [ZipFile.read] of each name *)
  zip_entries : list byte -> result (list (string * list byte));
  (** the archive [np.savez] lays its entries in *)
  zip_archive : list (string * list byte) -> list byte;
  (** [geometry.geometry(svg)], or what it raises *)
  geometry : string -> result (mapping ndarray);
  (** [dotdict(flat)] of line 125, for the [dotdict] that
      [from rebar import dotdict] binds (rebar is not among the sources):
      the mapping the call returns, or what it raises *)
  dotdict : dict leaf -> result (dict leaf)
}.

(** [np.random.RandomState(seed).permutation(xs)]: a shuffled copy. *)
Class RandomState : Type := {
  permutation : Z -> list string -> list string;
  permutation_Permutation : forall seed xs, permutation seed xs ≡ₚ xs
}.

End World.

(** ** The module [cubicasa] *)

Module Cubicasa.

Import KeyTree Codec World.

Section WithExternals.
Context {ext : Externals} {rng : RandomState}.

(** Lines 18-28: the chunks of the response, concatenated. *)
Definition download (url : string) : M (list byte) :=
  log_info ("Downloading " ++ url);;
  emit (Get url);;
  lift (http_get url).

Definition cubicasa5k : M string :=
  let p := ".cache/cubicasa.zip" in
  ex ← path_exists p;
  (if negb ex then
     let url := "https://zenodo.org/record/2613548/files/cubicasa5k.zip?download=1" in
     mkdir ".cache";;
     bs ← download url;
     write_bytes p bs
   else mret tt);;
  mret p.

Definition svg_data (regenerate : bool) : M (list row) :=
  let p := ".cache/cubicasa-svgs.json.gz" in
  ex ← path_exists p;
  (if negb ex || regenerate then
     mkdir ".cache";;
     if regenerate then
       log_info "Regenerating SVG cache from cubicasa dataset. This will require a 5G download.";;
       zp ← cubicasa5k;
       zipped ← read_bytes zp;
       json ← lift (svgs_json zipped);
       write_bytes p (gzip_compress json)
     else
       let url := "https://www.dropbox.com/s/iblduqobhqomz4g/cubicasa-svgs.json.gzip?raw=1" in
       bs ← download url;
       write_bytes p bs
   else mret tt);;
  bs ← read_bytes p;
  raw ← lift (gzip_decompress bs);
  lift (read_json raw).

(** Lines 80-87: any failure of the transform is logged and becomes [None]. *)
Definition safe_geometry (id svg : string) : M (option (mapping ndarray)) :=
  match geometry svg with
  | Ok g => mret (Some g)
  | Raise _ => log_info ("Geometry generation failed on on #" ++ id);; mret None
  end.

(** Modelled from the spec: [rebar.parallel] is not among the sources.
    Section 4.5: each worker applies the transform to exactly one item
    and returns its result or its caught failure, and all results are
    resolved before the wait returns; the dict is keyed by [str(row.id)]. *)
Fixpoint pool_wait (rows : list row) (gs : dict (option (mapping ndarray)))
  : M (dict (option (mapping ndarray))) :=
  match rows with
  | [] => mret gs
  | r :: rows' =>
      g ← safe_geometry (id r) (svg r);
      pool_wait rows' (set (id r) g gs)
  end.

(** [{k: v for k, v in gs.items() if v is not None}] *)
Definition not_none {X} (gs : dict (option X)) : dict X :=
  of_list (omap (fun kv => match kv.2 with Some v => Some (kv.1, v) | None => None end) gs).

(** Lines 110-112, before the result is flattened. *)
Definition derive (rows : list row) : M (dict (mapping ndarray)) :=
  gs ← pool_wait rows [];
  mret (not_none gs).

(** What [safe_geometry] returns for a row. *)
Definition outcome (r : row) : option (mapping ndarray) :=
  match geometry (svg r) with Ok g => Some g | Raise _ => None end.

(** The transform applied to one item in isolation, and what section 4.5
    asks of a derivation: the successful results under their keys, and
    the items that failed. *)
Definition failed (r : row) : bool :=
  match geometry (svg r) with Ok _ => false | Raise _ => true end.

Definition successes (rows : list row) : dict (mapping ndarray) :=
  omap (fun r => match geometry (svg r) with
                 | Ok g => Some (id r, g)
                 | Raise _ => None
                 end) rows.

Definition failure_log (rows : list row) : list event :=
  map (fun r => Log ("Geometry generation failed on on #" ++ id r))
      (List.filter failed rows).

(** [np.savez(bs, **gs)]: one entry per key, named key + ".npy". *)
Definition savez (gs : dict ndarray) : list byte :=
  zip_archive (map (fun kv => (kv.1 ++ ".npy", encode kv.2)) gs).

(** [{n[:-4]: fastload(zf.read(n)) for n in zf.namelist()}] *)
Fixpoint load_entries (entries : list (string * list byte)) (flat : dict leaf)
  : result (dict leaf) :=
  match entries with
  | [] => Ok flat
  | (n, bs) :: entries' =>
      a ← fastload bs;
      load_entries entries' (set (drop_last 4 n) (Array a) flat)
  end.

Definition geometry_data (regenerate : bool) : M (mapping leaf) :=
  let p := ".cache/cubicasa-geometry.npz.gz" in
  ex ← path_exists p;
  (if negb ex || regenerate then
     mkdir ".cache";;
     if regenerate then
       log_info "Regenerating geometry cache from SVG cache.";;
       rows ← svg_data false;
       gs ← derive rows;
       let gs := flatten (map (fun kv => (kv.1, Dict kv.2)) gs) in
       write_bytes p (gzip_compress (savez gs))
     else
       let url := "" in
       bs ← download url;
       write_bytes p bs
   else mret tt);;
  bs ← read_bytes p;
  raw ← lift (gzip_decompress bs);
  entries ← lift (zip_entries raw);
  flat ← lift (load_entries entries []);
  flat ← lift (dotdict flat);
  lift (unflatten flat).

(** [{k: type(v)({'id': k, **v}) for k, v in _cache.items()}]; unpacking
    an array with [**] raises. *)
Fixpoint with_ids (cache : mapping leaf) (acc : mapping leaf) : result (mapping leaf) :=
  match cache with
  | [] => Ok acc
  | (k, Dict v) :: cache' =>
      with_ids cache' (set k (Dict (of_list (("id", Arr (Str k)) :: v))) acc)
  | (k, Arr _) :: _ => Raise TypeError
  end.

(** [.9] as a binary64 number, and [int(.9 * n)]. *)
Definition point_nine : spec_float := S754_finite false 8106479329266893 (-53).

Definition float_of_nat (n : nat) : spec_float :=
  binary_normalize 53 1024 (Z.of_nat n) 0 false.

Definition int_of_float (x : spec_float) : Z :=
  match x with
  | S754_finite s m e =>
      let v := if (0 <=? e)%Z then (Z.pos m * 2 ^ e)%Z else (Z.pos m / 2 ^ (- e))%Z in
      if s then (- v)%Z else v
  | _ => 0%Z
  end.

Definition cutoff (n : nat) : nat :=
  Z.to_nat (int_of_float (SFmul 53 1024 point_nine (float_of_nat n))).

(** [floor(9 z / 10)] agrees with [int(.9 * z)] on [z .. z + fuel - 1]. *)
Fixpoint cutoff_floor_from (fuel : nat) (z : Z) : bool :=
  match fuel with
  | O => true
  | S fuel' =>
      (int_of_float (SFmul 53 1024 point_nine (binary_normalize 53 1024 z 0 false))
       =? 9 * z / 10)%Z
      && cutoff_floor_from fuel' (z + 1)
  end.

(** [sorted(_cache)]: the keys in code-point order. *)
Definition string_le (a b : string) : Prop := String.leb a b = true.
Global Instance string_le_dec : RelDecision string_le :=
  fun a b => decide (String.leb a b = true).
Definition sorted (ks : list string) : list string := merge_sort string_le ks.

(** Line 137: the one permutation all splits are cut from. *)
Definition order_of (cache : mapping leaf) : list string :=
  permutation 1 (sorted (keys cache)).

(** Lines 136-145: the ids of the split, in permutation order. *)
Definition split_order (cache : mapping leaf) (split : string) : result (list string) :=
  let cutoff := cutoff (length cache) in
  let order := permutation 1 (sorted (keys cache)) in
  if String.eqb split "training" then Ok (take cutoff order)
  else if String.eqb split "test" then Ok (drop cutoff order)
  else if String.eqb split "all" then Ok order
  else Raise ValueError.

(** [order[i % len(order)]] *)
Definition cyclic (order : list string) (i : nat) : result string :=
  match length order with
  | O => Raise ZeroDivisionError
  | S _ as len =>
      match order !! (i mod len) with
      | Some k => Ok k
      | None => Raise IndexError
      end
  end.

(** Line 147: [[_cache[order[i % len(order)]] for i in range(n_designs)]]. *)
Fixpoint designs (cache : mapping leaf) (order : list string) (range : list nat)
  : result (list (value leaf)) :=
  match range with
  | [] => Ok []
  | i :: range' =>
      k ← cyclic order i;
      x ← getitem k cache;
      xs ← designs cache order range';
      Ok (x :: xs)
  end.

(** The ids line 147 indexes the cache with. *)
Fixpoint design_ids (order : list string) (range : list nat) : result (list string) :=
  match range with
  | [] => Ok []
  | i :: range' =>
      k ← cyclic order i;
      ks ← design_ids order range';
      Ok (k :: ks)
  end.

Definition select (cache : mapping leaf) (n_designs : nat) (split : string)
  : result (list (value leaf)) :=
  order ← split_order cache split;
  designs cache order (seq 0 n_designs).

Definition sample (n_designs : nat) (split : string) : M (list (value leaf)) :=
  c ← get_cache;
  cache ← match c with
          | Some cache => mret cache
          | None =>
              tree ← geometry_data false;
              set_cache tree;;
              cache ← lift (with_ids tree []);
              set_cache cache;;
              mret cache
          end;
  lift (select cache n_designs split).

End WithExternals.

(** *** Stand-ins for the collaborators, to run the module on examples *)

(** No network; compression and the frame reader are transparent; an
    archive is read as one entry named by its first byte; the geometry of
    an empty SVG cannot be extracted; and [dotdict] is bound to something
    that cannot be called, as a module is. *)
Definition offline : Externals := {|
  library := narrow;
  http_get := fun _ => Raise HTTPError;
  gzip_compress := fun bs => bs;
  gzip_decompress := fun bs => Ok bs;
  read_json := fun bs => Ok (map (fun b => Row (string_of_list_byte [b]) "") bs);
  svgs_json := fun bs => Ok bs;
  zip_entries := fun bs =>
    match bs with
    | [] => Ok []
    | b :: bs' => Ok [(string_of_list_byte [b] ++ "/walls.npy", bs')]
    end;
  zip_archive := fun entries => concat (map snd entries);
  geometry := fun svg =>
    match svg with
    | EmptyString => Raise ValueError
    | String _ _ => Ok [("walls", Arr (NDArray "|u1" [Z.of_nat (String.length svg)]
                                        (list_byte_of_string svg)))]
    end;
  dotdict := fun _ => Raise TypeError
|}.

(** The same collaborators with [dotdict] bound to a mapping class, which
    keeps the entries it is given. *)
Definition callable (ext : Externals) : Externals := {|
  library := @library ext;
  http_get := @http_get ext;
  gzip_compress := @gzip_compress ext;
  gzip_decompress := @gzip_decompress ext;
  read_json := @read_json ext;
  svgs_json := @svgs_json ext;
  zip_entries := @zip_entries ext;
  zip_archive := @zip_archive ext;
  geometry := @geometry ext;
  dotdict := fun flat => Ok flat
|}.

(** A shuffle that reverses its input. *)
Definition reversing : RandomState := {|
  permutation := fun _ xs => rev xs;
  permutation_Permutation := fun _ xs => Permutation_sym (Permutation_rev xs)
|}.

(** Example caches and worlds. *)
Definition one_item : mapping leaf := [("7", Dict [("id", Arr (Str "7"))])].

Definition three_items : mapping leaf :=
  [("12", Dict [("id", Arr (Str "12"))]); ("7", Dict [("id", Arr (Str "7"))]);
   ("30", Dict [("id", Arr (Str "30"))])].

Definition walls : ndarray := NDArray "|u1" [2%Z] [x01; x02].

(** A fresh process over a disk that holds the SVG artifact of the items 3
    and 4 and the geometry artifact of item 7. *)
Definition fresh_world : world :=
  World {[ ".cache/cubicasa-svgs.json.gz" := ["3"%byte; "4"%byte];
           ".cache/cubicasa-geometry.npz.gz" := ("7"%byte :: encode walls) ]}
        ∅ [] None.

(** A process whose sample cache has been built. *)
Definition warm_world : world :=
  World ∅ ∅ [] (Some three_items).

Definition two_rows : list row := [Row "3" "<svg/>"; Row "4" ""].

End Cubicasa.

(** ** Further notions used to state properties *)

Module KeyPaths.

Import KeyTree.

(** ["/".join(parts)] *)
Fixpoint unsplit (parts : list string) : string :=
  match parts with
  | [] => ""
  | [p] => p
  | p :: ps => p ++ "/" ++ unsplit ps
  end.

(** [p] is an initial part of [q], or [q] itself. *)
Fixpoint is_prefix (p q : list string) : bool :=
  match p, q with
  | [], _ => true
  | _ :: _, [] => false
  | a :: p', b :: q' => String.eqb a b && is_prefix p' q'
  end.

Definition comparable (p q : list string) : bool := is_prefix p q || is_prefix q p.

(** No path of the list is an initial part of another one, nor equal to
    it: the keys of a flat record that came out of [flatten]. *)
Fixpoint prefix_free (ps : list (list string)) : bool :=
  match ps with
  | [] => true
  | p :: ps' => forallb (fun q => negb (comparable p q)) ps' && prefix_free ps'
  end.

(** A mapping with distinct ['/']-free keys at every level and no empty
    mapping inside. *)
Definition tidy {A} (node : mapping A) : bool :=
  well_keyed (Dict node) && forallb (fun kv => inhabited kv.2) node.

(** The tree with every leaf changed by [f]. *)
Fixpoint vmap {A B} (f : A -> B) (v : value A) : value B :=
  match v with
  | Arr a => Arr (f a)
  | Dict items => Dict (map (fun kv => (kv.1, vmap f kv.2)) items)
  end.

End KeyPaths.

Module Artifacts.

Import World.

(** The paths and addresses the module has in its text. *)
Definition zip_path : string := ".cache/cubicasa.zip".
Definition svg_path : string := ".cache/cubicasa-svgs.json.gz".
Definition geometry_path : string := ".cache/cubicasa-geometry.npz.gz".
Definition zip_url : string :=
  "https://zenodo.org/record/2613548/files/cubicasa5k.zip?download=1".
Definition svg_url : string :=
  "https://www.dropbox.com/s/iblduqobhqomz4g/cubicasa-svgs.json.gzip?raw=1".

(** [w'] differs from [w] at most in the three artifact files, in more
    directories and in a longer trace. *)
Definition frames (w w' : world) : Prop :=
  (forall q, q <> zip_path -> q <> svg_path -> q <> geometry_path ->
             files w' !! q = files w !! q)
  /\ (exists evs, trace w' = (trace w ++ evs)%list)
  /\ dirs w ⊆ dirs w'.

(** The same, with the sample cache untouched. *)
Definition evolves (w w' : world) : Prop := frames w w' /\ _cache w' = _cache w.

(** A computation that only ever takes a world to one related to it. *)
Definition respects {A} (R : world -> world -> Prop) (m : M A) : Prop :=
  forall w, R w (m w).2.

(** The world with one more file, one more directory and more events. *)
Definition stored (w : world) (p : string) (bs : list byte) (evs : list event) : world :=
  World (<[p := bs]> (files w)) ({[".cache"]} ∪ dirs w) (trace w ++ evs)%list (_cache w).

(** The world with one more directory and more events, and no new file. *)
Definition attempted (w : world) (evs : list event) : world :=
  World (files w) ({[".cache"]} ∪ dirs w) (trace w ++ evs)%list (_cache w).

(** What [geometry_data] makes of the bytes of its file (lines 123-126). *)
Definition load_geometry {ext : Externals} (bs : list byte)
  : result (KeyTree.mapping leaf) :=
  raw ← gzip_decompress bs;
  entries ← zip_entries raw;
  flat ← Cubicasa.load_entries entries [];
  flat ← dotdict flat;
  KeyTree.unflatten flat.

(** What [svg_data] makes of the bytes of its file (line 58). *)
Definition load_svgs {ext : Externals} (bs : list byte) : result (list row) :=
  raw ← gzip_decompress bs; read_json raw.

(** A network that answers every request with the same body; the other
    collaborators as in [Cubicasa.offline]. *)
Definition mirror (body : list byte) : Externals := {|
  library := @library Cubicasa.offline;
  http_get := fun _ => Ok body;
  gzip_compress := @gzip_compress Cubicasa.offline;
  gzip_decompress := @gzip_decompress Cubicasa.offline;
  read_json := @read_json Cubicasa.offline;
  svgs_json := @svgs_json Cubicasa.offline;
  zip_entries := @zip_entries Cubicasa.offline;
  zip_archive := @zip_archive Cubicasa.offline;
  geometry := @geometry Cubicasa.offline;
  dotdict := @dotdict Cubicasa.offline
|}.

(** An archive read as the one entry [walls.npy]; the other
    collaborators as in [Cubicasa.offline]. *)
Definition single_entry : Externals := {|
  library := @library Cubicasa.offline;
  http_get := @http_get Cubicasa.offline;
  gzip_compress := @gzip_compress Cubicasa.offline;
  gzip_decompress := @gzip_decompress Cubicasa.offline;
  read_json := @read_json Cubicasa.offline;
  svgs_json := @svgs_json Cubicasa.offline;
  zip_entries := fun bs => Ok [("walls.npy", bs)];
  zip_archive := @zip_archive Cubicasa.offline;
  geometry := @geometry Cubicasa.offline;
  dotdict := @dotdict Cubicasa.offline
|}.

(** An archive laid out entry after entry as the length of the name, the
    name, the length of the content and the content, each length in one
    byte; the other collaborators as in [Cubicasa.offline]. *)
Definition frame (entry : string * list byte) : list byte :=
  (Codec.byte_of_nat (String.length entry.1) :: list_byte_of_string entry.1)
  ++ Codec.byte_of_nat (length entry.2) :: entry.2.

Fixpoint unframe (fuel : nat) (bs : list byte) : result (list (string * list byte)) :=
  match bs, fuel with
  | [], _ => Ok []
  | _, O => Raise ValueError
  | n :: bs', S fuel' =>
      let ln := N.to_nat (Byte.to_N n) in
      match drop ln bs' with
      | [] => Raise ValueError
      | m :: rest =>
          let lm := N.to_nat (Byte.to_N m) in
          entries ← unframe fuel' (drop lm rest);
          Ok ((string_of_list_byte (take ln bs'), take lm rest) :: entries)
      end
  end.

Definition framed : Externals := {|
  library := @library Cubicasa.offline;
  http_get := @http_get Cubicasa.offline;
  gzip_compress := @gzip_compress Cubicasa.offline;
  gzip_decompress := @gzip_decompress Cubicasa.offline;
  read_json := @read_json Cubicasa.offline;
  svgs_json := @svgs_json Cubicasa.offline;
  zip_entries := fun bs => unframe (length bs) bs;
  zip_archive := fun entries => concat (map frame entries);
  geometry := @geometry Cubicasa.offline;
  dotdict := @dotdict Cubicasa.offline
|}.

(** A fresh process over a disk that holds the archive only, one over a
    disk whose geometry artifact is a bare array, and a process whose
    sample cache holds one item. *)
Definition zip_world : world :=
  World {[ zip_path := ["3"%byte] ]} ∅ [] None.

Definition bare_world : world :=
  World {[ geometry_path := Codec.encode Cubicasa.walls ]} ∅ [] None.

Definition lone_world : world :=
  World ∅ ∅ [] (Some Cubicasa.one_item).

End Artifacts.

(** * Properties *)

Local Open Scope list_scope.

Module PyFacts.

Section Dict.
Context {V : Type}.
Implicit Types (d : dict V) (k : string) (x : V).

Lemma get_None k d : get k d = None <-> ~ In k (keys d).
Proof.
  induction d as [|[k' v] d IH]; simpl; [tauto|].
  destruct (String.eqb_spec k k') as [->|Hne].
  - split; [discriminate | intros Hn; exfalso; apply Hn; now left].
  - rewrite IH. split; [intros Hn [Heq|Hin]; [congruence | tauto] | tauto].
Qed.

Lemma get_Some_In k d x : get k d = Some x -> In (k, x) d.
Proof.
  induction d as [|[k' v] d IH]; simpl; [discriminate|].
  destruct (String.eqb_spec k k') as [->|Hne].
  - intros [= ->]. now left.
  - intros Hg. right. now apply IH.
Qed.

Lemma set_fresh k x d : ~ In k (keys d) -> set k x d = (d ++ [(k, x)])%list.
Proof.
  induction d as [|[k' v] d IH]; simpl; [reflexivity|].
  intros Hn. destruct (String.eqb_spec k k') as [->|Hne]; [tauto|].
  rewrite IH; [reflexivity | tauto].
Qed.

Lemma get_set_eq k x d : get k (set k x d) = Some x.
Proof.
  induction d as [|[k' v] d IH]; simpl.
  - now rewrite String.eqb_refl.
  - destruct (String.eqb_spec k k') as [->|Hne]; simpl.
    + now rewrite String.eqb_refl.
    + destruct (String.eqb_spec k k'); [congruence | exact IH].
Qed.

Lemma get_set_ne k k' x d : k <> k' -> get k' (set k x d) = get k' d.
Proof.
  intros Hne. induction d as [|[k0 v] d IH]; simpl.
  - destruct (String.eqb_spec k' k); [congruence | reflexivity].
  - destruct (String.eqb_spec k k0) as [->|Hne0]; simpl.
    + destruct (String.eqb_spec k' k0); [congruence | reflexivity].
    + now rewrite IH.
Qed.

Lemma set_set k x y d : set k x (set k y d) = set k x d.
Proof.
  induction d as [|[k' v] d IH]; simpl.
  - now rewrite String.eqb_refl.
  - destruct (String.eqb_spec k k') as [->|Hne]; simpl.
    + now rewrite String.eqb_refl.
    + destruct (String.eqb_spec k k'); [congruence | now rewrite IH].
Qed.

Lemma keys_set_present k x d : In k (keys d) -> keys (set k x d) = keys d.
Proof.
  induction d as [|[k' v] d IH]; simpl; [tauto|].
  intros Hin. destruct (String.eqb_spec k k') as [->|Hne]; simpl; [reflexivity|].
  f_equal. apply IH. destruct Hin; [congruence | assumption].
Qed.

Lemma length_set_present k x d : In k (keys d) -> length (set k x d) = length d.
Proof.
  intros Hin. rewrite <- (length_map fst (set k x d)), <- (length_map fst d).
  fold (keys (set k x d)). fold (keys d). now rewrite keys_set_present.
Qed.

Lemma distinct_NoDup (ks : list string) : distinct ks = true <-> NoDup ks.
Proof.
  induction ks as [|k ks IH]; simpl.
  - split; [constructor | reflexivity].
  - rewrite andb_true_iff, negb_true_iff, IH. split.
    + intros [Hk Hd]. constructor; [|assumption].
      intros Hin. apply list_elem_of_In in Hin.
      assert (existsb (String.eqb k) ks = true) as He
        by (apply existsb_exists; exists k; split; [assumption | apply String.eqb_refl]).
      congruence.
    + intros Hnd. apply NoDup_cons in Hnd as [Hk Hd]. split; [|assumption].
      destruct (existsb (String.eqb k) ks) eqn:He; [|reflexivity].
      apply existsb_exists in He as (k' & Hin & Heq).
      apply String.eqb_eq in Heq. subst k'. exfalso. apply Hk.
      now apply list_elem_of_In.
Qed.

(** Binding fresh keys one after the other appends them in order. *)
Lemma fold_set_fresh (new d : dict V) :
  NoDup (keys (d ++ new)) ->
  fold_left (fun f kv => set kv.1 kv.2 f) new d = (d ++ new)%list.
Proof.
  revert d. induction new as [|[k x] new IH]; intros d Hnd; simpl.
  - now rewrite app_nil_r.
  - rewrite set_fresh.
    + rewrite IH; rewrite <- app_assoc; [reflexivity | exact Hnd].
    + unfold keys in *. rewrite map_app in Hnd. simpl in Hnd.
      apply NoDup_app in Hnd as (_ & Hdis & _).
      intros Hin. apply (Hdis k); [now apply list_elem_of_In | left].
Qed.

Lemma of_list_NoDup (l : list (string * V)) : NoDup (keys l) -> of_list l = l.
Proof. intros Hnd. unfold of_list. now rewrite fold_set_fresh. Qed.
End Dict.

Lemma split_nonempty sep s : split sep s <> [].
Proof.
  destruct s as [|c s]; simpl; [discriminate|].
  destruct (Ascii.eqb c sep); [discriminate|].
  destruct (split sep s); discriminate.
Qed.

Lemma split_app sep a b :
  split sep (a ++ String sep b)%string = split sep a ++ split sep b.
Proof.
  induction a as [|c a IH]; simpl.
  - now rewrite Ascii.eqb_refl.
  - destruct (Ascii.eqb c sep); [now rewrite IH|].
    rewrite IH. pose proof (split_nonempty sep a) as Hne.
    destruct (split sep a) as [|p ps]; [congruence | reflexivity].
Qed.

End PyFacts.

Module KeyTreeFacts.

Import KeyTree PyFacts.

Section WithLeaf.
Context {A : Type}.
Implicit Types (v : value A) (node tree : mapping A) (flat : dict A) (k : string).
Implicit Types (ps qs : list (list string * A)).

(** Induction over a value and the values nested in it. *)
Lemma value_nested_ind (P : value A -> Prop) :
  (forall a, P (Arr a)) ->
  (forall items, Forall (fun kv => P kv.2) items -> P (Dict items)) ->
  forall v, P v.
Proof.
  intros HArr HDict. fix IH 1. intros [a|items].
  - apply HArr.
  - apply HDict. induction items as [|[k v] items IHitems]; constructor.
    + apply IH.
    + exact IHitems.
Qed.

Lemma split_slash_free k : slash_free k = true -> split "/" k = [k].
Proof.
  induction k as [|c k IH]; simpl; [reflexivity|].
  rewrite andb_true_iff, negb_true_iff. intros [Hc Hk].
  rewrite Hc, (IH Hk). reflexivity.
Qed.

Lemma split_join k r : slash_free k = true -> split "/" (join k r) = k :: split "/" r.
Proof.
  intros Hk. unfold join. change ("/" ++ r)%string with (String "/" r).
  now rewrite split_app, split_slash_free.
Qed.

(** *** [flatten] lists the leaves depth first *)

Lemma flat_entry_paths v : forall k,
  well_keyed v = true -> slash_free k = true ->
  map key_path (flat_entry k v) = paths_entry k v.
Proof.
  induction v as [a|items IH] using value_nested_ind; intros k Hwk Hk; simpl.
  - unfold key_path. simpl. now rewrite split_slash_free.
  - simpl in Hwk. apply andb_true_iff in Hwk as [_ Hall].
    rewrite map_map.
    transitivity (map (fun pa : list string * A => (k :: pa.1, pa.2))
                      (map key_path (flat_map (fun kv => flat_entry kv.1 kv.2) items))).
    { rewrite map_map. apply map_ext. intros [k' a]. unfold key_path. simpl.
      now rewrite split_join. }
    f_equal. induction items as [|[k1 v1] items IHitems]; simpl; [reflexivity|].
    simpl in Hall. apply andb_true_iff in Hall as [Hhd Hall].
    apply andb_true_iff in Hhd as [Hk1 Hv1].
    apply Forall_cons in IH as [IH1 IH].
    rewrite map_app. f_equal; [now apply IH1 | now apply IHitems].
Qed.

Lemma paths_entry_head k v pa : In pa (paths_entry k v) -> exists rest, pa.1 = k :: rest.
Proof.
  destruct v as [a|sub]; simpl.
  - intros [<-|[]]. now exists [].
  - intros Hin. apply in_map_iff in Hin as (pa' & <- & _). now eexists.
Qed.

Lemma paths_head tree pa : In pa (paths tree) -> exists k rest, In k (keys tree) /\ pa.1 = k :: rest.
Proof.
  unfold paths. intros Hin. apply in_flat_map in Hin as ([k v] & Hkv & Hin).
  apply paths_entry_head in Hin as [rest Hrest]. exists k, rest. split; [|assumption].
  unfold keys. apply in_map_iff. now exists (k, v).
Qed.

Lemma NoDup_paths_items (items : mapping A) :
  NoDup (keys items) ->
  Forall (fun kv => NoDup (map fst (paths_entry kv.1 kv.2))) items ->
  NoDup (map fst (paths items)).
Proof.
  induction items as [|[k v] items IH]; simpl; intros Hnd Hall; [constructor|].
  apply NoDup_cons in Hnd as [Hk Hnd]. apply Forall_cons in Hall as [Hv Hall].
  unfold paths. simpl. rewrite map_app. apply NoDup_app. split; [exact Hv|]. split.
  - intros p Hp1 Hp2. apply list_elem_of_In in Hp1, Hp2.
    apply in_map_iff in Hp1 as (pa1 & <- & Hin1).
    apply in_map_iff in Hp2 as (pa2 & Heq & Hin2).
    apply paths_entry_head in Hin1 as [r1 Hr1].
    apply paths_head in Hin2 as (k2 & r2 & Hk2 & Hr2).
    rewrite Hr1, Hr2 in Heq. injection Heq as -> _.
    apply Hk. now apply list_elem_of_In.
  - now apply IH.
Qed.

Lemma NoDup_paths_entry v : forall k,
  well_keyed v = true -> NoDup (map fst (paths_entry k v)).
Proof.
  induction v as [a|items IH] using value_nested_ind; intros k Hwk; simpl.
  - apply NoDup_singleton.
  - simpl in Hwk. apply andb_true_iff in Hwk as [Hd Hall].
    rewrite map_map. simpl.
    rewrite <- (map_map fst (cons k)).
    apply NoDup_fmap_2; [intros x y [=]; assumption|].
    apply NoDup_paths_items; [now apply distinct_NoDup|].
    rewrite forallb_forall in Hall. rewrite List.Forall_forall in IH |- *.
    intros kv Hin. apply IH; [assumption|].
    specialize (Hall kv Hin). now apply andb_true_iff in Hall as [_ ?].
Qed.

Lemma NoDup_paths tree : well_keyed (Dict tree) = true -> NoDup (map fst (paths tree)).
Proof.
  simpl. intros Hwk. apply andb_true_iff in Hwk as [Hd Hall].
  apply NoDup_paths_items; [now apply distinct_NoDup|].
  rewrite forallb_forall in Hall. apply List.Forall_forall. intros kv Hin.
  apply NoDup_paths_entry. specialize (Hall kv Hin).
  now apply andb_true_iff in Hall as [_ ?].
Qed.

Lemma NoDup_keys_of_paths flat : NoDup (map fst (map key_path flat)) -> NoDup (keys flat).
Proof.
  rewrite map_map. unfold key_path, keys. simpl.
  rewrite <- (map_map fst (split "/")). apply NoDup_fmap_1.
Qed.

Lemma fold_set_join k (sub flat : dict A) :
  fold_left (fun flat kv => set (join k kv.1) kv.2 flat) sub flat
  = fold_left (fun f kv => set kv.1 kv.2 f) (map (fun kv => (join k kv.1, kv.2)) sub) flat.
Proof. revert flat. induction sub as [|kv sub IH]; intros flat; simpl; [reflexivity | apply IH]. Qed.

Lemma flatten_entry_spec v : forall k flat,
  NoDup (keys (flat ++ flat_entry k v)) ->
  flatten_entry flat k v = flat ++ flat_entry k v.
Proof.
  induction v as [a|items IH] using value_nested_ind; intros k flat Hnd; simpl.
  - apply set_fresh. simpl in Hnd. unfold keys in Hnd. rewrite map_app in Hnd.
    apply NoDup_app in Hnd as (_ & Hdis & _). intros Hin.
    apply (Hdis k); [now apply list_elem_of_In | left].
  - simpl in Hnd.
    assert (forall acc, NoDup (keys (acc ++ flat_map (fun kv => flat_entry kv.1 kv.2) items)) ->
              fold_left (fun f kv => flatten_entry f kv.1 kv.2) items acc
              = acc ++ flat_map (fun kv => flat_entry kv.1 kv.2) items) as Hsub.
    { clear Hnd. induction items as [|[k1 v1] items IHitems]; intros acc Hacc; simpl.
      - now rewrite app_nil_r.
      - apply Forall_cons in IH as [IH1 IH]. simpl in Hacc, IH1.
        rewrite app_assoc in Hacc.
        rewrite IH1.
        + rewrite IHitems; [now rewrite <- app_assoc | assumption | assumption].
        + unfold keys in *. rewrite map_app in Hacc. now apply NoDup_app in Hacc as (? & _). }
    rewrite Hsub.
    + simpl. rewrite fold_set_join. now apply fold_set_fresh.
    + simpl. unfold keys in *. rewrite map_app in Hnd. apply NoDup_app in Hnd as (_ & _ & Hnd).
      rewrite map_map in Hnd. simpl in Hnd.
      rewrite <- (map_map fst (join k)) in Hnd. now apply NoDup_fmap_1 in Hnd.
Qed.

Lemma paths_of_flat tree :
  well_keyed (Dict tree) = true ->
  map key_path (flat_map (fun kv => flat_entry kv.1 kv.2) tree) = paths tree.
Proof.
  simpl. intros Hwk. apply andb_true_iff in Hwk as [_ Hall]. unfold paths.
  induction tree as [|[k v] tree IH]; simpl; [reflexivity|].
  simpl in Hall. apply andb_true_iff in Hall as [Hhd Hall].
  apply andb_true_iff in Hhd as [Hk Hv].
  rewrite map_app, IH by assumption. f_equal. now apply flat_entry_paths.
Qed.

Lemma flatten_spec tree :
  well_keyed (Dict tree) = true ->
  flatten tree = flat_map (fun kv => flat_entry kv.1 kv.2) tree.
Proof.
  intros Hwk.
  assert (NoDup (keys (flat_map (fun kv => flat_entry kv.1 kv.2) tree))) as Hnd.
  { apply NoDup_keys_of_paths. rewrite paths_of_flat by assumption. now apply NoDup_paths. }
  clear Hwk. unfold flatten.
  enough (forall acc, NoDup (keys (acc ++ flat_map (fun kv => flat_entry kv.1 kv.2) tree)) ->
            fold_left (fun f kv => flatten_entry f kv.1 kv.2) tree acc
            = acc ++ flat_map (fun kv => flat_entry kv.1 kv.2) tree) as Hgen
    by (now apply (Hgen [])).
  clear Hnd. induction tree as [|[k v] tree IH]; intros acc Hacc; simpl.
  - now rewrite app_nil_r.
  - simpl in Hacc. rewrite app_assoc in Hacc. rewrite flatten_entry_spec.
    + rewrite IH; [now rewrite <- app_assoc | assumption].
    + unfold keys in *. rewrite map_app in Hacc. now apply NoDup_app in Hacc as (? & _).
Qed.


(** *** [unflatten] rebuilds the tree path by path *)

Lemma unflatten_paths flat : unflatten flat = assign_all (map key_path flat) (Ok []).
Proof.
  unfold unflatten, assign_all. generalize (Ok [] : result (mapping A)).
  induction flat as [|kv flat IH]; intros r; simpl; [reflexivity | apply IH].
Qed.

Lemma assign_all_Raise ps e : assign_all ps (Raise e) = Raise e.
Proof. induction ps as [|pa ps IH]; simpl; [reflexivity | exact IH]. Qed.

Lemma assign_all_app ps qs (r : result (mapping A)) : assign_all (ps ++ qs) r = assign_all qs (assign_all ps r).
Proof. unfold assign_all. apply fold_left_app. Qed.

Lemma set_same {V} k (x : V) (d : dict V) : get k d = Some x -> set k x d = d.
Proof.
  induction d as [|[k' y] d IH]; simpl; [discriminate|].
  destruct (String.eqb_spec k k') as [->|Hne].
  - now intros [= ->].
  - intros Hg. now rewrite IH.
Qed.

Lemma assign_under_present ps : forall k node sub0 sub',
  get k node = Some (Dict sub0) ->
  Forall (fun pa => pa.1 <> []) ps ->
  assign_all ps (Ok sub0) = Ok sub' ->
  assign_all (map (fun pa => (k :: pa.1, pa.2)) ps) (Ok node)
  = Ok (set k (Dict sub') node).
Proof.
  induction ps as [|[p a] ps IH]; intros k node sub0 sub' Hget Hne Hall.
  - simpl in *. injection Hall as <-. now rewrite set_same.
  - apply Forall_cons in Hne as [Hp Hne]. simpl in Hp.
    destruct p as [|s more]; [congruence|].
    change (assign_all ((s :: more, a) :: ps) (Ok sub0))
      with (assign_all ps (assign (s :: more) a sub0)) in Hall.
    destruct (assign (s :: more) a sub0) as [sub1|e] eqn:Hsub1;
      [|now rewrite assign_all_Raise in Hall].
    change (assign_all (map (fun pa => (k :: pa.1, pa.2)) ((s :: more, a) :: ps)) (Ok node))
      with (assign_all (map (fun pa => (k :: pa.1, pa.2)) ps) (assign (k :: s :: more) a node)).
    assert (assign (k :: s :: more) a node = Ok (set k (Dict sub1) node)) as ->.
    { change (assign (k :: s :: more) a node)
        with (match get k node with
              | None => sub ← assign (s :: more) a []; Ok (set k (Dict sub) node)
              | Some (Dict sub) => sub2 ← assign (s :: more) a sub; Ok (set k (Dict sub2) node)
              | Some (Arr _) => match more with [] => Raise IndexError | _ :: _ => Raise AttributeError end
              end).
      rewrite Hget, Hsub1. reflexivity. }
    rewrite (IH k _ sub1 sub'); [now rewrite set_set | apply get_set_eq | assumption | assumption].
Qed.

Lemma assign_under_absent ps : forall k node sub',
  get k node = None ->
  ps <> [] ->
  Forall (fun pa => pa.1 <> []) ps ->
  assign_all ps (Ok []) = Ok sub' ->
  assign_all (map (fun pa => (k :: pa.1, pa.2)) ps) (Ok node)
  = Ok (node ++ [(k, Dict sub')]).
Proof.
  intros k node sub' Hget Hps Hne Hall.
  destruct ps as [|[p a] ps]; [congruence|].
  apply Forall_cons in Hne as [Hp Hne]. simpl in Hp.
  destruct p as [|s more]; [congruence|].
  change (assign_all ((s :: more, a) :: ps) (Ok [])) with (assign_all ps (assign (s :: more) a [])) in Hall.
  destruct (assign (s :: more) a []) as [sub1|e] eqn:Hsub1;
    [|now rewrite assign_all_Raise in Hall].
  change (assign_all (map (fun pa => (k :: pa.1, pa.2)) ((s :: more, a) :: ps)) (Ok node))
    with (assign_all (map (fun pa => (k :: pa.1, pa.2)) ps) (assign (k :: s :: more) a node)).
  assert (assign (k :: s :: more) a node = Ok (set k (Dict sub1) node)) as ->.
  { change (assign (k :: s :: more) a node)
      with (match get k node with
            | None => sub ← assign (s :: more) a []; Ok (set k (Dict sub) node)
            | Some (Dict sub) => sub2 ← assign (s :: more) a sub; Ok (set k (Dict sub2) node)
            | Some (Arr _) => match more with [] => Raise IndexError | _ :: _ => Raise AttributeError end
            end).
    rewrite Hget, Hsub1. reflexivity. }
  rewrite (assign_under_present ps k _ sub1 sub'); [| apply get_set_eq | assumption | assumption].
  rewrite set_set. rewrite set_fresh; [reflexivity | now apply get_None].
Qed.

Lemma paths_entry_nonempty v k : inhabited v = true -> paths_entry k v <> [].
Proof.
  revert k. induction v as [a|items IH] using value_nested_ind; intros k Hin; simpl; [discriminate|].
  simpl in Hin. destruct items as [|[k1 v1] items]; [discriminate|].
  simpl in Hin. apply andb_true_iff in Hin as [Hv1 _].
  apply Forall_cons in IH as [IH1 _]. simpl in *.
  specialize (IH1 k1 Hv1). destruct (paths_entry k1 v1); [congruence | discriminate].
Qed.

Lemma assign_all_entry v : forall k node,
  well_keyed v = true -> inhabited v = true -> ~ In k (keys node) ->
  assign_all (paths_entry k v) (Ok node) = Ok (node ++ [(k, v)]).
Proof.
  induction v as [a|items IH] using value_nested_ind; intros k node Hwk Hin Hk.
  - simpl. now rewrite set_fresh.
  - assert (forall acc, NoDup (keys (acc ++ items)) ->
              assign_all (paths items) (Ok acc) = Ok (acc ++ items)) as Hitems.
    { simpl in Hwk, Hin. apply andb_true_iff in Hwk as [_ Hwk].
      assert (forallb (fun kv => inhabited kv.2) items = true) as Hinh
        by (destruct items; [reflexivity | exact Hin]).
      clear Hin Hk. unfold paths.
      induction items as [|[k1 v1] items IHitems]; intros acc Hnd; simpl.
      - now rewrite app_nil_r.
      - apply Forall_cons in IH as [IH1 IH]. simpl in IH1, Hwk, Hinh.
        apply andb_true_iff in Hwk as [Hhd Hwk]. apply andb_true_iff in Hhd as [_ Hv1].
        apply andb_true_iff in Hinh as [Hi1 Hinh].
        rewrite assign_all_app, IH1; [| assumption | assumption |].
        + rewrite IHitems; [now rewrite <- app_assoc | assumption | assumption | assumption |].
          now rewrite <- app_assoc.
        + unfold keys in Hnd. rewrite map_app in Hnd. simpl in Hnd.
          apply NoDup_app in Hnd as (_ & Hdis & _). intros Hacc.
          apply (Hdis k1); [now apply list_elem_of_In | left]. }
    simpl. apply assign_under_absent.
    + now apply get_None.
    + simpl in Hin. destruct items as [|[k1 v1] items]; [discriminate|].
      simpl in Hin. apply andb_true_iff in Hin as [Hv1 _]. simpl.
      pose proof (paths_entry_nonempty v1 k1 Hv1).
      destruct (paths_entry k1 v1); [congruence | discriminate].
    + apply List.Forall_forall. intros pa Hpa. apply in_flat_map in Hpa as ([k1 v1] & _ & Hpa).
      apply paths_entry_head in Hpa as [rest ->]. discriminate.
    + apply (Hitems []). simpl in Hwk. apply andb_true_iff in Hwk as [Hd _].
      now apply distinct_NoDup.
Qed.

Lemma assign_all_paths tree :
  well_keyed (Dict tree) = true ->
  forallb (fun kv => inhabited kv.2) tree = true ->
  assign_all (paths tree) (Ok []) = Ok tree.
Proof.
  intros Hwk Hinh. simpl in Hwk. apply andb_true_iff in Hwk as [Hd Hwk].
  apply distinct_NoDup in Hd.
  enough (forall acc, NoDup (keys (acc ++ tree)) ->
            assign_all (paths tree) (Ok acc) = Ok (acc ++ tree)) as Hgen
    by (now apply (Hgen [])).
  clear Hd. unfold paths.
  induction tree as [|[k1 v1] items IHitems]; intros acc Hnd; simpl.
  - now rewrite app_nil_r.
  - simpl in Hwk, Hinh.
    apply andb_true_iff in Hwk as [Hhd Hwk]. apply andb_true_iff in Hhd as [_ Hv1].
    apply andb_true_iff in Hinh as [Hi1 Hinh].
    rewrite assign_all_app, assign_all_entry; [| assumption | assumption |].
    + rewrite IHitems; [now rewrite <- app_assoc | assumption | assumption |].
      now rewrite <- app_assoc.
    + unfold keys in Hnd. rewrite map_app in Hnd. simpl in Hnd.
      apply NoDup_app in Hnd as (_ & Hdis & _). intros Hacc.
      apply (Hdis k1); [now apply list_elem_of_In | left].
Qed.

(** C1, as amended.  For every nested mapping whose keys are distinct
    and free of ['/'] and in which no nested mapping is empty,
    [unflatten (flatten tree)] is [tree]: the same keys in the same order
    with the same values at every level. *)
Theorem unflatten_flatten tree :
  well_keyed (Dict tree) = true ->
  forallb (fun kv => inhabited kv.2) tree = true ->
  unflatten (flatten tree) = Ok tree.
Proof.
  intros Hwk Hinh.
  rewrite unflatten_paths, flatten_spec, paths_of_flat by assumption.
  now apply assign_all_paths.
Qed.


(** *** A key that is a leaf and a prefix of a later key *)

Lemma assign_cons2 p s more (a : A) node :
  assign (p :: s :: more) a node
  = match get p node with
    | None => sub ← assign (s :: more) a []; Ok (set p (Dict sub) node)
    | Some (Dict sub) => sub' ← assign (s :: more) a sub; Ok (set p (Dict sub') node)
    | Some (Arr _) =>
        match more with [] => Raise IndexError | _ :: _ => Raise AttributeError end
    end.
Proof. reflexivity. Qed.









End WithLeaf.

(** C1, as stated, fails on a tree with an empty nested mapping: [flatten]
    has nothing to record for it and the key is lost. *)
Lemma unflatten_flatten_empty_nested :
  let t : mapping Z := [("walls", Arr 1%Z); ("doors", Dict [])] in
  well_keyed (Dict t) = true
  /\ unflatten (flatten t) = Ok [("walls", Arr 1%Z)]
  /\ get "doors" t = Some (Dict [])
  /\ unflatten (flatten t) <> Ok t.
Proof. repeat split; discriminate. Qed.

Lemma unflatten_flatten_witness :
  let t : mapping Z :=
    [("lines", Dict [("vals", Arr 1%Z); ("ends", Dict [("x", Arr 2%Z)])]); ("id", Arr 3%Z)] in
  unflatten (flatten t) = Ok t.
Proof. intros t. apply (unflatten_flatten t); reflexivity. Defined.


End KeyTreeFacts.

Module LiteralFacts.

Import Literal.

Lemma read_value_S n s :
  read_value (S n) s =
  match skip_ws s with
  | EmptyString => None
  | String c s1 =>
      if Ascii.eqb c "{" then
        match read_items n s1 with
        | Some (items, s2) => Some (PyDict items, s2)
        | None => None
        end
      else if Ascii.eqb c "(" then
        match read_seq n ")" s1 with
        | Some ([x], false, s2) => Some (x, s2)
        | Some (xs, _, s2) => Some (PyTuple xs, s2)
        | None => None
        end
      else if Ascii.eqb c "[" then
        match read_seq n "]" s1 with
        | Some (xs, _, s2) => Some (PyList xs, s2)
        | None => None
        end
      else if (Ascii.eqb c "'" || Ascii.eqb c "034")%bool then
        match read_quoted c s1 with
        | Some (body, s2) => Some (PyStr body, s2)
        | None => None
        end
      else if Ascii.eqb c "-" then
        match read_nat s1 with
        | Some (z, s2) => Some (PyInt (- z), s2)
        | None => None
        end
      else if is_digit c then
        match read_nat (String c s1) with
        | Some (z, s2) => Some (PyInt z, s2)
        | None => None
        end
      else read_keyword (String c s1)
  end.
Proof. reflexivity. Qed.

Lemma read_seq_S n close s :
  read_seq (S n) close s =
  match skip_ws s with
  | EmptyString => None
  | String c s1 =>
      if Ascii.eqb c close then Some ([], false, s1)
      else
        match read_value n (String c s1) with
        | None => None
        | Some (x, s2) =>
            match skip_ws s2 with
            | EmptyString => None
            | String c' s3 =>
                if Ascii.eqb c' close then Some ([x], false, s3)
                else if Ascii.eqb c' "," then
                  match read_seq n close s3 with
                  | Some (xs, _, s4) => Some (x :: xs, true, s4)
                  | None => None
                  end
                else None
            end
        end
  end.
Proof. reflexivity. Qed.

Lemma read_items_S n s :
  read_items (S n) s =
  match skip_ws s with
  | EmptyString => None
  | String c s1 =>
      if Ascii.eqb c "}" then Some ([], s1)
      else
        match read_value n (String c s1) with
        | None => None
        | Some (k, s2) =>
            if negb (hashable k) then None
            else
            match skip_ws s2 with
            | String ":" s3 =>
                match read_value n s3 with
                | None => None
                | Some (v, s4) =>
                    match skip_ws s4 with
                    | EmptyString => None
                    | String c' s5 =>
                        if Ascii.eqb c' "}" then Some ([(k, v)], s5)
                        else if Ascii.eqb c' "," then
                          match read_items n s5 with
                          | Some (kvs, s6) => Some ((k, v) :: kvs, s6)
                          | None => None
                          end
                        else None
                    end
                end
            | _ => None
            end
        end
  end.
Proof. reflexivity. Qed.

Lemma skip_ws_idem s : skip_ws (skip_ws s) = skip_ws s.
Proof.
  induction s as [|c s IH]; simpl; [reflexivity|].
  destruct (is_space c) eqn:Hc; [exact IH | simpl; now rewrite Hc].
Qed.

Lemma read_value_skip_ws n s : read_value n (skip_ws s) = read_value n s.
Proof. destruct n; [reflexivity|]. now rewrite !read_value_S, skip_ws_idem. Qed.

Lemma read_value_space n c s : is_space c = true -> read_value n (String c s) = read_value n s.
Proof.
  intros Hc. rewrite <- (read_value_skip_ws n (String c s)), <- (read_value_skip_ws n s).
  simpl. now rewrite Hc.
Qed.

Lemma read_quoted_plain q body rest :
  plain q body = true -> read_quoted q (body ++ String q rest)%string = Some (body, rest).
Proof.
  induction body as [|c body IH]; simpl.
  - now rewrite Ascii.eqb_refl.
  - rewrite andb_true_iff, negb_true_iff, !orb_false_iff.
    intros [[[Hq Hb] Hn] Hbody]. rewrite Hq, Hb, Hn, IH by assumption. reflexivity.
Qed.

(** *** Decimal numerals *)

Lemma span_digits_uint d rest :
  no_digit_ahead rest = true ->
  span_digits (NilEmpty.string_of_uint d ++ rest)%string = (NilEmpty.string_of_uint d, rest).
Proof.
  intros Hrest. induction d; simpl; try (rewrite IHd; reflexivity).
  destruct rest as [|c rest]; simpl in *; [reflexivity|].
  apply negb_true_iff in Hrest. now rewrite Hrest.
Qed.

Lemma to_uint_normal n : Decimal.unorm (N.to_uint n) = N.to_uint n.
Proof. now rewrite <- (DecimalN.Unsigned.of_to n) at 2; rewrite DecimalN.Unsigned.to_of. Qed.

Lemma to_uint_leading_zero n d : N.to_uint n = Decimal.D0 d -> d = Decimal.Nil.
Proof.
  intros Hn. pose proof (to_uint_normal n) as Hnorm. rewrite Hn in Hnorm.
  unfold Decimal.unorm in Hnorm. destruct (Decimal.nzhead (Decimal.D0 d)) eqn:Hz.
  - now injection Hnorm.
  - now apply nzhead_nonzero in Hz.
  - discriminate. - discriminate. - discriminate. - discriminate.
  - discriminate. - discriminate. - discriminate. - discriminate. - discriminate.
Qed.

Lemma to_uint_nonnil n : N.to_uint n <> Decimal.Nil.
Proof. rewrite <- to_uint_normal. apply unorm_nonnil. Qed.

Lemma read_nat_repr n rest :
  no_digit_ahead rest = true ->
  read_nat (NilEmpty.string_of_uint (N.to_uint n) ++ rest)%string = Some (Z.of_N n, rest).
Proof.
  intros Hrest. unfold read_nat. rewrite span_digits_uint by assumption.
  rewrite NilEmpty.usu, DecimalN.Unsigned.of_to.
  destruct (N.to_uint n) as [|d|d|d|d|d|d|d|d|d|d] eqn:Hn; try reflexivity.
  - now apply to_uint_nonnil in Hn.
  - apply to_uint_leading_zero in Hn. subst d. reflexivity.
Qed.

Lemma uint_head d : d <> Decimal.Nil ->
  exists c s, NilEmpty.string_of_uint d = String c s /\ is_digit c = true /\ is_space c = false
              /\ c <> "{"%char /\ c <> "("%char /\ c <> "["%char /\ c <> "'"%char
              /\ c <> "034"%char /\ c <> "-"%char /\ c <> ")"%char /\ c <> "}"%char.
Proof.
  destruct d; [congruence| | | | | | | | | |]; intros _; simpl; eexists _, _;
    (split; [reflexivity|]); repeat split; discriminate.
Qed.


Lemma append_cons x (a b : string) : (String x a ++ b = String x (a ++ b))%string.
Proof. reflexivity. Qed.

Lemma append_assoc (a b c : string) : ((a ++ b) ++ c = a ++ (b ++ c))%string.
Proof. induction a as [|x a IH]; [reflexivity | rewrite !append_cons; f_equal; exact IH]. Qed.

Lemma length_append (a b : string) :
  String.length (a ++ b)%string = String.length a + String.length b.
Proof. induction a as [|x a IH]; [reflexivity | rewrite append_cons; simpl; f_equal; exact IH]. Qed.

Lemma skip_ws_spaces k s : skip_ws (Codec.spaces k ++ s)%string = skip_ws s.
Proof. induction k as [|k IH]; simpl; [reflexivity | exact IH]. Qed.

Lemma read_value_int n z rest :
  (0 <= z)%Z -> no_digit_ahead rest = true ->
  read_value (S n) (Codec.repr_int z ++ rest)%string = Some (PyInt z, rest).
Proof.
  intros Hz Hrest. unfold Codec.repr_int.
  destruct (uint_head (N.to_uint (Z.to_N z)) (to_uint_nonnil _))
    as (c & s & Hcs & Hd & Hsp & H1 & H2 & H3 & H4 & H5 & H6 & _).
  rewrite read_value_S. rewrite Hcs at 1. rewrite append_cons. cbn [skip_ws]. rewrite Hsp.
  apply Ascii.eqb_neq in H1, H2, H3, H4, H5, H6.
  rewrite H1, H2, H3, H4, H5, H6, Hd. cbn [orb].
  rewrite <- append_cons, <- Hcs, read_nat_repr by assumption. now rewrite Z2N.id.
Qed.

Lemma skip_ws_int z rest :
  skip_ws (Codec.repr_int z ++ rest)%string = (Codec.repr_int z ++ rest)%string.
Proof.
  unfold Codec.repr_int.
  destruct (uint_head (N.to_uint (Z.to_N z)) (to_uint_nonnil _)) as (c & s & Hcs & _ & Hsp & _).
  rewrite Hcs, append_cons. simpl. now rewrite Hsp.
Qed.

Lemma int_head_not z rest close :
  close = ")"%char \/ close = "}"%char ->
  exists c s, (Codec.repr_int z ++ rest)%string = String c s /\ Ascii.eqb c close = false.
Proof.
  intros Hclose. unfold Codec.repr_int.
  destruct (uint_head (N.to_uint (Z.to_N z)) (to_uint_nonnil _))
    as (c & s & Hcs & _ & _ & _ & _ & _ & _ & _ & _ & H7 & H8).
  rewrite Hcs, append_cons. eexists _, _. split; [reflexivity|].
  apply Ascii.eqb_neq. destruct Hclose; now subst.
Qed.

Lemma skip_ws_nonspace c s : is_space c = false -> skip_ws (String c s) = String c s.
Proof. intros Hc. simpl. now rewrite Hc. Qed.

Lemma skip_ws_space c s : is_space c = true -> skip_ws (String c s) = skip_ws s.
Proof. intros Hc. simpl. now rewrite Hc. Qed.

Lemma append_nil_l (s : string) : ("" ++ s)%string = s.
Proof. reflexivity. Qed.

(** Decide the tests on the known characters at the head of the input. *)
Ltac decide_chars :=
  repeat match goal with
  | |- context [Ascii.eqb ?a ?b] =>
      let v := eval vm_compute in (Ascii.eqb a b) in
      match v with
      | true => change (Ascii.eqb a b) with true
      | false => change (Ascii.eqb a b) with false
      end
  | |- context [is_digit ?a] =>
      let v := eval vm_compute in (is_digit a) in
      match v with
      | true => change (is_digit a) with true
      | false => change (is_digit a) with false
      end
  | |- context [printable ?a] =>
      let v := eval vm_compute in (printable a) in
      match v with
      | true => change (printable a) with true
      | false => change (printable a) with false
      end
  end;
  cbv beta match; cbn [orb andb negb hashable].

Ltac read_head :=
  rewrite ?append_cons, ?append_nil_l;
  repeat (rewrite skip_ws_space by reflexivity);
  rewrite ?skip_ws_nonspace by reflexivity;
  decide_chars.

Lemma repr_elems_cons z z' zs :
  Codec.repr_elems (z :: z' :: zs)
  = (Codec.repr_int z ++ ", " ++ Codec.repr_elems (z' :: zs))%string.
Proof. reflexivity. Qed.

Lemma read_elems zs : forall n k rest,
  Forall (fun z => (0 <= z)%Z) zs -> zs <> [] -> length zs < n ->
  read_seq n ")" (Codec.spaces k ++ Codec.repr_elems zs ++ String ")" rest)%string
  = Some (map PyInt zs, Nat.ltb 1 (length zs), rest).
Proof.
  induction zs as [|z zs IH]; intros n k rest Hpos Hne Hn; [congruence|].
  apply Forall_cons in Hpos as [Hz Hpos].
  destruct n as [|n]; [lia|]. rewrite read_seq_S, skip_ws_spaces.
  destruct zs as [|z' zs].
  - cbn [Codec.repr_elems]. rewrite skip_ws_int.
    destruct (int_head_not z (String ")" rest) ")") as (c & s & Hcs & Hc); [now left|].
    rewrite Hcs, Hc, <- Hcs.
    simpl in Hn. destruct n as [|n]; [lia|].
    rewrite read_value_int by (assumption || reflexivity). reflexivity.
  - rewrite repr_elems_cons, !append_assoc. rewrite skip_ws_int.
    destruct (int_head_not z (", " ++ Codec.repr_elems (z' :: zs) ++ String ")" rest)%string ")")
      as (c & s & Hcs & Hc); [now left|].
    rewrite Hcs, Hc, <- Hcs.
    simpl in Hn. destruct n as [|n]; [lia|].
    rewrite read_value_int by (assumption || reflexivity).
    read_head.
    change (String " " ?x) with (Codec.spaces 1 ++ x)%string.
    rewrite IH; [reflexivity | assumption | discriminate | simpl; lia].
Qed.

Lemma read_value_tuple zs n rest :
  Forall (fun z => (0 <= z)%Z) zs -> length zs + 2 < n ->
  read_value n (Codec.repr_tuple zs ++ rest)%string = Some (PyTuple (map PyInt zs), rest).
Proof.
  intros Hpos Hn. destruct n as [|n]; [lia|]. rewrite read_value_S.
  destruct zs as [|z [|z' zs]].
  - change (Codec.repr_tuple []) with "()". read_head.
    destruct n as [|n]; [simpl in Hn; lia|]. rewrite read_seq_S. read_head. reflexivity.
  - change (Codec.repr_tuple [z]) with ("(" ++ Codec.repr_int z ++ ",)")%string.
    rewrite !append_assoc. read_head.
    destruct n as [|n]; [simpl in Hn; lia|]. rewrite read_seq_S, skip_ws_int.
    destruct (int_head_not z (String "," (String ")" rest)) ")") as (c & s & Hcs & Hc); [now left|].
    rewrite Hcs, Hc, <- Hcs.
    destruct n as [|n]; [simpl in Hn; lia|].
    apply Forall_cons in Hpos as [Hz _].
    rewrite read_value_int by (assumption || reflexivity).
    read_head. rewrite read_seq_S. read_head. reflexivity.
  - change (Codec.repr_tuple (z :: z' :: zs))
      with ("(" ++ Codec.repr_elems (z :: z' :: zs) ++ ")")%string.
    rewrite !append_assoc. read_head.
    change (Codec.repr_elems (z :: z' :: zs) ++ String ")" rest)%string
      with (Codec.spaces 0 ++ Codec.repr_elems (z :: z' :: zs) ++ String ")" rest)%string.
    rewrite read_elems; [reflexivity | assumption | discriminate | simpl in *; lia].
Qed.


Ltac read_string := repeat (cbn [read_quoted]; decide_chars).

Lemma read_header d zs tail n :
  plain "'" d = true -> Forall (fun z => (0 <= z)%Z) zs -> length zs + 8 <= n ->
  read_value n ("{'descr': '" ++ d ++ "', 'fortran_order': False, 'shape': "
                ++ Codec.repr_tuple zs ++ ", }" ++ tail)%string
  = Some (Codec.header_obj d zs, tail).
Proof.
  intros Hd Hzs Hn.
  replace n with (S (S (S (S (S (n - 5)))))) by lia.
  rewrite read_value_S. read_head.
  rewrite read_items_S. read_head.
  rewrite read_value_S. read_head. read_string. read_head.
  rewrite read_value_S. read_head.
  rewrite read_quoted_plain by assumption. read_head.
  rewrite read_items_S. read_head.
  rewrite read_value_S. read_head. read_string. read_head.
  rewrite read_value_S. read_head.
  cbv [read_keyword]. cbn [strip_prefix]. decide_chars. read_head.
  rewrite read_items_S. read_head.
  rewrite read_value_S. read_head. read_string. read_head.
  rewrite read_value_space by reflexivity.
  rewrite read_value_tuple by (assumption || lia). read_head.
  replace (n - 5) with (S (n - 6)) by lia.
  rewrite read_items_S. read_head. reflexivity.
Qed.

End LiteralFacts.

Module CodecFacts.

Import Literal Codec LiteralFacts.

(** *** Strings and bytes *)

Lemma list_byte_of_string_cons c s :
  list_byte_of_string (String c s) = byte_of_ascii c :: list_byte_of_string s.
Proof. reflexivity. Qed.

Lemma length_list_byte_of_string s : length (list_byte_of_string s) = String.length s.
Proof.
  induction s as [|c s IH]; [reflexivity|].
  rewrite list_byte_of_string_cons. simpl. now rewrite IH.
Qed.

Lemma to_N_byte_of_ascii c : Byte.to_N (byte_of_ascii c) = N_of_ascii c.
Proof. apply Byte.to_of_N. symmetry. apply byte_of_ascii_via_N. Qed.

Lemma utf8_ascii s : ascii_only s = true -> utf8 (list_byte_of_string s) = true.
Proof.
  induction s as [|c s IH]; [reflexivity|].
  rewrite list_byte_of_string_cons. cbn [ascii_only utf8].
  intros [Hc Hs]%andb_true_iff. unfold between. rewrite to_N_byte_of_ascii.
  apply N.ltb_lt in Hc.
  replace (0 <=? N_of_ascii c)%N with true by (symmetry; apply N.leb_le; lia).
  replace (N_of_ascii c <=? 127)%N with true by (symmetry; apply N.leb_le; lia).
  now apply IH.
Qed.

Lemma ascii_only_app a b : ascii_only (a ++ b)%string = ascii_only a && ascii_only b.
Proof.
  induction a as [|c a IH]; [reflexivity|].
  rewrite append_cons. cbn [ascii_only]. now rewrite IH, andb_assoc.
Qed.

Lemma ascii_only_uint d : ascii_only (NilEmpty.string_of_uint d) = true.
Proof. induction d; simpl; try assumption; reflexivity. Qed.

Lemma ascii_only_elems zs : ascii_only (repr_elems zs) = true.
Proof.
  induction zs as [|z [|z' zs] IH]; [reflexivity | apply ascii_only_uint |].
  rewrite repr_elems_cons, !ascii_only_app, IH. unfold repr_int.
  now rewrite ascii_only_uint.
Qed.

Lemma ascii_only_tuple zs : ascii_only (repr_tuple zs) = true.
Proof.
  destruct zs as [|z [|z' zs]]; [reflexivity | |].
  - change (repr_tuple [z]) with ("(" ++ repr_int z ++ ",)")%string.
    rewrite !ascii_only_app. unfold repr_int. now rewrite ascii_only_uint.
  - change (repr_tuple (z :: z' :: zs)) with ("(" ++ repr_elems (z :: z' :: zs) ++ ")")%string.
    now rewrite !ascii_only_app, ascii_only_elems.
Qed.

Lemma ascii_only_spaces n : ascii_only (spaces n) = true.
Proof. induction n as [|n IH]; [reflexivity | exact IH]. Qed.

(** *** Element types *)

Lemma kind_size_Some code sz :
  kind_size code = Some sz ->
  plain "'" code = true /\ ascii_only code = true /\ (0 < sz)%Z.
Proof.
  unfold kind_size.
  repeat match goal with
  | |- context [String.eqb code ?k] =>
      destruct (String.eqb_spec code k) as [->|?];
      [intros [= <-]; repeat split; reflexivity | cbn [orb]]
  end.
  discriminate.
Qed.

Lemma itemsize_Some d sz :
  itemsize d = Some sz ->
  plain "'" d = true /\ ascii_only d = true /\ (0 < sz)%Z.
Proof.
  destruct d as [|c code]; [discriminate|]. unfold itemsize.
  destruct (Ascii.eqb_spec c "<") as [->|?];
    [intros (? & ? & ?)%kind_size_Some; repeat split; assumption|].
  destruct (Ascii.eqb_spec c ">") as [->|?];
    [intros (? & ? & ?)%kind_size_Some; repeat split; assumption|].
  destruct (Ascii.eqb_spec c "|") as [->|?];
    [intros (? & ? & ?)%kind_size_Some; repeat split; assumption|].
  destruct (Ascii.eqb_spec c "=") as [->|?];
    [intros (? & ? & ?)%kind_size_Some; repeat split; assumption|].
  cbn [orb]. apply kind_size_Some.
Qed.

(** *** The header text *)

Lemma ascii_only_header a sz :
  itemsize (descr a) = Some sz -> ascii_only (header_text a) = true.
Proof.
  intros (_ & Hd & _)%itemsize_Some. unfold header_text, header_dict.
  rewrite !ascii_only_app, Hd, ascii_only_tuple, ascii_only_spaces. reflexivity.
Qed.

Lemma length_repr_int z : 1 <= String.length (repr_int z).
Proof.
  unfold repr_int.
  destruct (uint_head (N.to_uint (Z.to_N z)) (to_uint_nonnil _)) as (c & s & -> & _).
  simpl. lia.
Qed.

Lemma length_repr_elems zs : 3 * length zs <= String.length (repr_elems zs) + 2.
Proof.
  induction zs as [|z [|z' zs] IH];
    [simpl; lia | pose proof (length_repr_int z); simpl in *; lia |].
  rewrite repr_elems_cons, !length_append. pose proof (length_repr_int z).
  simpl in *. lia.
Qed.

Lemma length_repr_tuple zs : 3 * length zs <= String.length (repr_tuple zs) + 2.
Proof.
  destruct zs as [|z [|z' zs]]; [simpl; lia | |].
  - change (repr_tuple [z]) with ("(" ++ repr_int z ++ ",)")%string.
    rewrite !length_append. simpl. lia.
  - change (repr_tuple (z :: z' :: zs)) with ("(" ++ repr_elems (z :: z' :: zs) ++ ")")%string.
    rewrite !length_append. pose proof (length_repr_elems (z :: z' :: zs)). simpl in *. lia.
Qed.

Lemma read_literal_header a sz :
  itemsize (descr a) = Some sz ->
  Forall (fun z => (0 <= z)%Z) (shape a) ->
  String.length (header_text a) < 256 ->
  read_literal (header_text a) = Some (header_obj (descr a) (shape a)).
Proof.
  intros (Hd & _ & _)%itemsize_Some Hshape HL. unfold read_literal.
  replace (Nat.ltb 255 (String.length (header_text a))) with false
    by (symmetry; apply Nat.ltb_ge; lia).
  assert (length (shape a) + 8 <= 96) as Hfuel.
  { revert HL. unfold header_text, header_dict. rewrite !length_append.
    pose proof (length_repr_tuple (shape a)). simpl. lia. }
  revert Hfuel. generalize 96. intros n Hn.
  unfold header_text, header_dict. rewrite !append_assoc.
  change (indented _) with false. cbn [orb].
  rewrite read_header by assumption.
  unfold blank_tail. rewrite skip_ws_spaces. reflexivity.
Qed.

Lemma literal_eval_header rest a sz :
  itemsize (descr a) = Some sz ->
  Forall (fun z => (0 <= z)%Z) (shape a) ->
  String.length (header_text a) < 256 ->
  literal_eval rest (header_text a) = Ok (header_obj (descr a) (shape a)).
Proof.
  intros Hsz Hshape HL. unfold literal_eval.
  now rewrite (read_literal_header a sz).
Qed.


(** *** Reading back what the writer wrote *)

Section WithLibrary.
Context {lib : Library}.

Lemma byte_of_nat_small n : n < 256 -> N.to_nat (Byte.to_N (byte_of_nat n)) = n.
Proof.
  intros Hn. unfold byte_of_nat. rewrite N.mod_small by lia.
  destruct (Byte.of_N (N.of_nat n)) as [b|] eqn:Hb.
  - apply Byte.to_of_N in Hb. rewrite Hb. apply Nat2N.id.
  - apply Byte.of_N_None_iff in Hb. lia.
Qed.

Lemma headerlen_encode a :
  String.length (header_text a) < 256 ->
  headerlen (encode a) = Ok (String.length (header_text a)).
Proof.
  intros HL. unfold headerlen, encode.
  change (slice 8 9 (magic ++ ?l)) with (slice 0 1 l).
  cbn [slice app take drop Nat.sub]. now rewrite byte_of_nat_small.
Qed.

Lemma header_slice_encode a :
  slice 10 (10 + String.length (header_text a)) (encode a)
  = list_byte_of_string (header_text a).
Proof.
  unfold slice, encode. change (drop 10 (magic ++ [?x; ?y] ++ ?l)) with l.
  replace (10 + String.length (header_text a) - 10) with (String.length (header_text a)) by lia.
  rewrite <- length_list_byte_of_string. apply take_app_length.
Qed.

Lemma payload_encode a :
  drop (10 + String.length (header_text a)) (encode a) = data a.
Proof.
  unfold encode. rewrite <- drop_drop.
  change (drop 10 (magic ++ [?x; ?y] ++ ?l)) with l.
  rewrite <- length_list_byte_of_string. apply drop_app_length.
Qed.

Lemma ints_PyInt zs : ints (map PyInt zs) = Some zs.
Proof. induction zs as [|z zs IH]; simpl; [reflexivity | now rewrite IH]. Qed.

Lemma filter_nonneg zs :
  Forall (fun z => (0 <= z)%Z) zs ->
  List.filter (fun z => (0 <=? z)%Z) zs = zs /\ List.filter (fun z => (z <? 0)%Z) zs = [].
Proof.
  induction 1 as [|z zs Hz _ [IH1 IH2]]; [split; reflexivity|]. simpl.
  replace (0 <=? z)%Z with true by (symmetry; apply Z.leb_le; lia).
  replace (z <? 0)%Z with false by (symmetry; apply Z.ltb_ge; lia).
  now rewrite IH1, IH2.
Qed.

Lemma fix_shape_exact zs :
  Forall (fun z => (0 <= z)%Z) zs -> fix_shape (product zs) zs = Ok zs.
Proof.
  intros [H1 H2]%filter_nonneg. unfold fix_shape.
  rewrite H1, H2. simpl. now rewrite Z.eqb_refl.
Qed.

Lemma fix_shape_mismatch size zs :
  Forall (fun z => (0 <= z)%Z) zs -> size <> product zs -> fix_shape size zs = Raise ValueError.
Proof.
  intros [H1 H2]%filter_nonneg Hne. unfold fix_shape.
  rewrite H1, H2. simpl. now apply Z.eqb_neq in Hne as ->.
Qed.

(** C2.  For every array the codec supports, the blob the writer produces
    carries the length [L] of its header text in the byte at offset 8;
    [fastload] parses the [L] bytes from offset 10 as a literal with the
    keys [descr] and [shape], takes the bytes after them as the payload,
    and returns the very array that was written. *)
Theorem fastload_encode a :
  supported a ->
  headerlen (encode a) = Ok (String.length (header_text a))
  /\ parsed_header (encode a) = Ok (header_obj (descr a) (shape a))
  /\ payload (encode a) = Ok (data a)
  /\ fastload (encode a) = Ok a.
Proof.
  intros ((sz & Hsz & Hlen) & Hshape & HL).
  assert (parsed_header (encode a) = Ok (header_obj (descr a) (shape a))) as Hparsed.
  { unfold parsed_header. rewrite headerlen_encode by assumption. cbn [mbind result_bind].
    rewrite header_slice_encode. unfold decode.
    rewrite utf8_ascii by (eapply ascii_only_header; eassumption).
    cbn [mbind result_bind]. rewrite string_of_list_byte_of_string.
    eapply literal_eval_header; eassumption. }
  split; [now apply headerlen_encode|]. split; [exact Hparsed|]. split.
  { unfold payload. rewrite headerlen_encode by assumption. cbn [mbind result_bind].
    now rewrite payload_encode. }
  unfold fastload. unfold parsed_header in Hparsed.
  rewrite headerlen_encode in * by assumption. cbn [mbind result_bind] in *.
  destruct (decode _) as [text|]; [|discriminate]. cbn [mbind result_bind] in *.
  rewrite Hparsed. cbn [mbind result_bind]. rewrite payload_encode.
  cbn [header_obj subscript lookup_str String.eqb Ascii.eqb Bool.eqb].
  cbn [mbind result_bind]. unfold frombuffer, dtype. rewrite Hsz.
  apply itemsize_Some in Hsz as (_ & _ & Hpos).
  rewrite Hlen, Z.mod_mul, Z.div_mul by lia. cbn [Z.eqb mbind result_bind].
  unfold reshape, dims. rewrite ints_PyInt.
  cbn [shape product fold_right]. rewrite Z.mul_1_r.
  change (fold_right Z.mul 1%Z (Codec.shape a)) with (product (Codec.shape a)).
  rewrite fix_shape_exact by assumption. cbn [mbind result_bind descr data].
  now destruct a.
Qed.

Lemma fix_shape_inferred size zs m :
  length (List.filter (fun z => (z <? 0)%Z) zs) = 1 ->
  let known := product (List.filter (fun z => (0 <=? z)%Z) zs) in
  (0 < known)%Z -> size = (m * known)%Z ->
  fix_shape size zs = Ok (map (fun z => if (z <? 0)%Z then m else z) zs).
Proof.
  intros Hone known Hk ->. unfold fix_shape. fold known. rewrite Hone.
  replace (known =? 0)%Z with false by (symmetry; apply Z.eqb_neq; lia).
  rewrite Z.mod_mul, Z.div_mul by lia. reflexivity.
Qed.

Lemma frombuffer_known buf s sz :
  itemsize s = Some sz ->
  frombuffer buf (PyStr s)
  = if (Z.of_nat (length buf) mod sz =? 0)%Z
    then Ok (NDArray s [(Z.of_nat (length buf) / sz)%Z] buf)
    else Raise ValueError.
Proof. intros Hsz. unfold frombuffer, dtype. now rewrite Hsz. Qed.

(** C7, as amended.  For every blob whose header parses to a mapping:
    without the key [descr], [fastload] raises [KeyError]; with [descr]
    and without the key [shape] it raises what the buffer conversion
    raises on the payload, and [KeyError] if the conversion succeeds; with
    an element type of the table and non-negative dimensions whose
    product times the element size is not the payload length, it raises
    [ValueError]; and with at most 32 dimensions, each a 64-bit signed
    integer, exactly one of them negative, the product [k] of the others
    positive and below [2 ^ 63], and a payload of [m * k] elements, it
    returns the array with that dimension set to [m]. *)
Theorem fastload_malformed raw items :
  parsed_header raw = Ok (PyDict items) ->
  (lookup_str "descr" items = None -> fastload raw = Raise KeyError)
  /\ (forall d bs,
        lookup_str "descr" items = Some d -> lookup_str "shape" items = None ->
        payload raw = Ok bs ->
        fastload raw
        = match frombuffer bs d with Ok _ => Raise KeyError | Raise e => Raise e end)
  /\ (forall s sz sh zs bs,
        lookup_str "descr" items = Some (PyStr s) -> itemsize s = Some sz ->
        lookup_str "shape" items = Some sh -> dims sh = Some zs ->
        Forall (fun z => (0 <= z)%Z) zs ->
        payload raw = Ok bs ->
        (product zs * sz)%Z <> Z.of_nat (length bs) ->
        fastload raw = Raise ValueError)
  /\ (forall s sz sh zs bs m,
        lookup_str "descr" items = Some (PyStr s) -> itemsize s = Some sz ->
        lookup_str "shape" items = Some sh -> dims sh = Some zs ->
        length zs <= 32 -> Forall (fun z => (- 2 ^ 63 <= z < 2 ^ 63)%Z) zs ->
        length (List.filter (fun z => (z <? 0)%Z) zs) = 1 ->
        (0 < product (List.filter (fun z => (0 <=? z)%Z) zs) < 2 ^ 63)%Z ->
        payload raw = Ok bs ->
        Z.of_nat (length bs)
        = (m * product (List.filter (fun z => (0 <=? z)%Z) zs) * sz)%Z ->
        fastload raw
        = Ok (NDArray s (map (fun z => if (z <? 0)%Z then m else z) zs) bs)).
Proof.
  unfold parsed_header, fastload, payload.
  destruct (headerlen raw) as [L|]; [|discriminate]. cbn [mbind result_bind].
  generalize (drop (10 + L) raw). intros buf.
  destruct (decode _) as [text|]; [|discriminate]. cbn [mbind result_bind].
  intros ->. cbn [mbind result_bind subscript]. split; [|split; [|split]].
  - now intros ->.
  - intros d bs -> Hshape [= <-]. cbn [mbind result_bind].
    destruct (frombuffer buf d) as [a|e]; [|reflexivity].
    cbn [mbind result_bind]. now rewrite Hshape.
  - intros s sz sh zs bs -> Hsz -> Hzs Hpos [= <-] Hne. cbn [mbind result_bind].
    rewrite (frombuffer_known buf s sz Hsz).
    destruct (_ =? 0)%Z eqn:Hmod; [|reflexivity]. cbn [mbind result_bind].
    unfold reshape. rewrite Hzs. cbn [mbind result_bind shape product fold_right].
    rewrite fix_shape_mismatch; [reflexivity | assumption |].
    apply Z.eqb_eq in Hmod. apply itemsize_Some in Hsz as (_ & _ & Hsz).
    rewrite Z.mul_1_r. intros Heq. apply Hne. rewrite <- Heq.
    apply Z.mod_divide in Hmod; [|lia]. destruct Hmod as [q Hq].
    rewrite Hq, Z.div_mul by lia. reflexivity.
  - intros s sz sh zs bs m -> Hsz -> Hzs _ _ Hone [Hk _] [= <-] Hlen.
    cbn [mbind result_bind].
    rewrite (frombuffer_known buf s sz Hsz).
    pose proof Hsz as (_ & _ & Hpos)%itemsize_Some.
    rewrite Hlen, Z.mod_mul, Z.div_mul by lia. cbn [Z.eqb mbind result_bind].
    unfold reshape. rewrite Hzs. cbn [shape product fold_right]. rewrite Z.mul_1_r.
    rewrite (fix_shape_inferred _ zs m Hone Hk eq_refl). reflexivity.
Qed.

End WithLibrary.

(** *** Examples *)

Lemma fastload_encode_witness :
  supported matrix /\ fastload (lib := narrow) (encode matrix) = Ok matrix.
Proof.
  assert (supported matrix) as Hs.
  { split; [exists 8%Z; split; reflexivity|].
    split; [repeat constructor; lia | vm_compute; lia]. }
  split; [exact Hs | apply (fastload_encode (lib := narrow) matrix Hs)].
Defined.

Lemma fastload_malformed_witness :
  fastload (lib := narrow) (blob "{'shape': (2,)}" [x01; x02]) = Raise KeyError
  /\ fastload (lib := narrow) (blob "{'descr': '<i2'}" [x01; x02]) = Raise KeyError
  /\ fastload (lib := narrow) (blob "{'descr': '<i2'}" [x01; x02; x03]) = Raise ValueError
  /\ fastload (lib := narrow) (blob "{'descr': '<i2', 'shape': (3,)}" [x01; x02; x03; x04])
     = Raise ValueError
  /\ fastload (lib := narrow)
       (blob "{'descr': '<i2', 'shape': (-1, 2)}" [x01; x02; x03; x04; x05; x06; x07; x08])
     = Ok (NDArray "<i2" [2; 2]%Z [x01; x02; x03; x04; x05; x06; x07; x08]).
Proof.
  split; [|split; [|split; [|split]]].
  - apply (proj1 (fastload_malformed (lib := narrow) (blob "{'shape': (2,)}" [x01; x02])
                    [(PyStr "shape", PyTuple [PyInt 2])] eq_refl)).
    reflexivity.
  - apply (proj1 (proj2 (fastload_malformed (lib := narrow)
                           (blob "{'descr': '<i2'}" [x01; x02])
                           [(PyStr "descr", PyStr "<i2")] eq_refl))
             (PyStr "<i2") [x01; x02]); reflexivity.
  - apply (proj1 (proj2 (fastload_malformed (lib := narrow)
                           (blob "{'descr': '<i2'}" [x01; x02; x03])
                           [(PyStr "descr", PyStr "<i2")] eq_refl))
             (PyStr "<i2") [x01; x02; x03]); reflexivity.
  - apply (proj1 (proj2 (proj2 (fastload_malformed (lib := narrow)
                           (blob "{'descr': '<i2', 'shape': (3,)}" [x01; x02; x03; x04])
                           [(PyStr "descr", PyStr "<i2"); (PyStr "shape", PyTuple [PyInt 3])]
                           eq_refl)))
             "<i2" 2%Z (PyTuple [PyInt 3]) [3%Z] [x01; x02; x03; x04]);
      try reflexivity; [repeat constructor; lia | simpl; lia].
  - apply (proj2 (proj2 (proj2 (fastload_malformed (lib := narrow)
                           (blob "{'descr': '<i2', 'shape': (-1, 2)}"
                                 [x01; x02; x03; x04; x05; x06; x07; x08])
                           [(PyStr "descr", PyStr "<i2");
                            (PyStr "shape", PyTuple [PyInt (-1); PyInt 2])]
                           eq_refl)))
             "<i2" 2%Z (PyTuple [PyInt (-1); PyInt 2]) [(-1)%Z; 2%Z]
             [x01; x02; x03; x04; x05; x06; x07; x08] 2%Z);
      try reflexivity; [simpl; lia | repeat constructor; lia | simpl; lia].
Defined.

(** C7, as stated, fails on a header whose shape leaves a dimension to be
    inferred: the declared product, [-1] times one byte, is not the
    payload length, and [fastload] returns an array all the same. *)
Lemma fastload_accepts_inferred_dimension :
  let raw := blob "{'descr': '|u1', 'shape': (-1,)}" [x01; x02; x03] in
  parsed_header (lib := narrow) raw
  = Ok (PyDict [(PyStr "descr", PyStr "|u1"); (PyStr "shape", PyTuple [PyInt (-1)])])
  /\ payload raw = Ok [x01; x02; x03]
  /\ itemsize "|u1" = Some 1%Z
  /\ (product [(-1)%Z] * 1)%Z <> Z.of_nat (length [x01; x02; x03])
  /\ fastload (lib := narrow) raw = Ok (NDArray "|u1" [3%Z] [x01; x02; x03]).
Proof. repeat split; try reflexivity. discriminate. Qed.

End CodecFacts.

Module WorldFacts.

Import KeyTree Codec World Cubicasa Artifacts.

(** *** Running a computation step by step *)

Lemma bind_run {A B} (m : M A) (f : A -> M B) w :
  (m ≫= f) w = match m w with (Ok a, w') => f a w' | (Raise e, w') => (Raise e, w') end.
Proof. reflexivity. Qed.

Lemma bind_Ok {A B} (m : M A) (f : A -> M B) w a w1 :
  m w = (Ok a, w1) -> (m ≫= f) w = f a w1.
Proof. intros Hm. now rewrite bind_run, Hm. Qed.

Lemma bind_Raise {A B} (m : M A) (f : A -> M B) w e w1 :
  m w = (Raise e, w1) -> (m ≫= f) w = (Raise e, w1).
Proof. intros Hm. now rewrite bind_run, Hm. Qed.

(** *** The file system *)

Lemma path_exists_file p w bs :
  files w !! p = Some bs -> path_exists p w = (Ok true, w).
Proof.
  intros Hp. unfold path_exists. rewrite Hp.
  rewrite bool_decide_eq_true_2 by eauto. reflexivity.
Qed.

Lemma path_exists_absent p w :
  files w !! p = None -> p ∉ dirs w -> path_exists p w = (Ok false, w).
Proof.
  intros Hp Hd. unfold path_exists. rewrite Hp.
  rewrite bool_decide_eq_false_2 by (intros [? ?]; discriminate).
  now rewrite bool_decide_eq_false_2.
Qed.

Lemma path_exists_run p w : exists b, path_exists p w = (Ok b, w).
Proof. unfold path_exists. eauto. Qed.

Lemma read_bytes_file p w bs : files w !! p = Some bs -> read_bytes p w = (Ok bs, w).
Proof. intros Hp. unfold read_bytes. now rewrite Hp. Qed.

Lemma mkdir_run p w :
  files w !! p = None ->
  mkdir p w = (Ok tt, World (files w) ({[p]} ∪ dirs w) (trace w ++ [Mkdir p]) (_cache w)).
Proof. intros Hp. unfold mkdir. now rewrite Hp. Qed.

Lemma mkdir_blocked p w bs :
  files w !! p = Some bs -> mkdir p w = (Raise FileExistsError, w).
Proof. intros Hp. unfold mkdir. now rewrite Hp. Qed.

Lemma write_run p bs w :
  p ∉ dirs w ->
  write_bytes p bs w
  = (Ok tt, World (<[p := bs]> (files w)) (dirs w) (trace w ++ [WriteBytes p]) (_cache w)).
Proof. intros Hp. unfold write_bytes. now rewrite bool_decide_eq_false_2. Qed.

Lemma write_blocked p bs w :
  p ∈ dirs w -> write_bytes p bs w = (Raise IsADirectoryError, w).
Proof. intros Hp. unfold write_bytes. now rewrite bool_decide_eq_true_2. Qed.

Lemma log_run msg w : log_info msg w = (Ok tt, logged w [Log msg]).
Proof. reflexivity. Qed.

Lemma logged_nil w : logged w [] = w.
Proof. destruct w. unfold logged. simpl. now rewrite app_nil_r. Qed.

Lemma logged_logged w evs evs' : logged (logged w evs) evs' = logged w (evs ++ evs').
Proof. unfold logged. simpl. now rewrite app_assoc. Qed.

(** Two worlds built from the same parts up to the bracketing of their
    traces. *)
Ltac same_world :=
  unfold stored, attempted, logged;
  cbn [files dirs trace _cache fst snd];
  rewrite <- ?app_assoc; cbn [app]; try reflexivity.

(** *** What a computation leaves alone *)

Lemma frames_refl w : frames w w.
Proof. split; [auto|]. split; [exists []; now rewrite app_nil_r | set_solver]. Qed.

Lemma frames_trans w1 w2 w3 : frames w1 w2 -> frames w2 w3 -> frames w1 w3.
Proof.
  intros (Hf & [evs Ht] & Hd) (Hf' & [evs' Ht'] & Hd'). split; [|split].
  - intros q H1 H2 H3. now rewrite Hf', Hf.
  - exists (evs ++ evs'). now rewrite Ht', Ht, app_assoc.
  - set_solver.
Qed.

Lemma evolves_refl w : evolves w w.
Proof. split; [apply frames_refl | reflexivity]. Qed.

Lemma evolves_trans w1 w2 w3 : evolves w1 w2 -> evolves w2 w3 -> evolves w1 w3.
Proof. intros [Hf Hc] [Hf' Hc']. split; [now apply frames_trans with w2 | congruence]. Qed.

Section Respects.
Variable R : world -> world -> Prop.
Hypothesis R_refl : forall w, R w w.
Hypothesis R_trans : forall w1 w2 w3, R w1 w2 -> R w2 w3 -> R w1 w3.

Lemma respects_bind {A B} (m : M A) (f : A -> M B) :
  respects R m -> (forall a, respects R (f a)) -> respects R (m ≫= f).
Proof.
  intros Hm Hf w. rewrite bind_run. specialize (Hm w).
  destruct (m w) as [[a|e] w1]; [|exact Hm].
  apply R_trans with w1; [exact Hm | apply Hf].
Qed.

Lemma respects_ret {A} (a : A) : respects R (mret a).
Proof. intros w. apply R_refl. Qed.

Lemma respects_lift {A} (r : result A) : respects R (lift r).
Proof. intros w. apply R_refl. Qed.

End Respects.

Lemma evolves_logged w evs : evolves w (logged w evs).
Proof. split; [|reflexivity]. split; [auto|]. split; [now exists evs | set_solver]. Qed.

Lemma evolves_mkdir p : respects evolves (mkdir p).
Proof.
  intros w. unfold mkdir. destruct (files w !! p); [apply evolves_refl|].
  split; [|reflexivity]. split; [auto|].
  split; [now exists [Mkdir p] | cbn; set_solver].
Qed.

Lemma evolves_write p bs :
  p = zip_path \/ p = svg_path \/ p = geometry_path -> respects evolves (write_bytes p bs).
Proof.
  intros Hp w. unfold write_bytes. destruct (bool_decide (p ∈ dirs w)); [apply evolves_refl|].
  split; [|reflexivity]. split; [|split; [now exists [WriteBytes p] | set_solver]].
  intros q H1 H2 H3. cbn. apply lookup_insert_ne. intuition congruence.
Qed.

Lemma evolves_path_exists p : respects evolves (path_exists p).
Proof. intros w. apply evolves_refl. Qed.

Lemma evolves_read p : respects evolves (read_bytes p).
Proof. intros w. apply evolves_refl. Qed.

Lemma evolves_emit e : respects evolves (emit e).
Proof. intros w. apply (evolves_logged w [e]). Qed.

Lemma evolves_log msg : respects evolves (log_info msg).
Proof. intros w. apply (evolves_logged w [Log msg]). Qed.

Lemma frames_set_cache c : respects frames (set_cache c).
Proof.
  intros w. split; [auto|]. split; [exists []; cbn; now rewrite app_nil_r | cbn; set_solver].
Qed.

End WorldFacts.

Module SamplerFacts.

Import KeyTree Codec World Cubicasa Artifacts WorldFacts.

(** *** The order of the keys *)

Lemma ascii_compare_N a b : Ascii.compare a b = N.compare (N_of_ascii a) (N_of_ascii b).
Proof. reflexivity. Qed.

Lemma string_compare_trans a : forall b c,
  String.compare a b <> Gt -> String.compare b c <> Gt -> String.compare a c <> Gt.
Proof.
  induction a as [|x a IH]; intros [|y b] [|z c]; simpl; try congruence.
  rewrite !ascii_compare_N.
  destruct (N.compare_spec (N_of_ascii x) (N_of_ascii y)) as [Hxy|Hxy|Hxy];
  destruct (N.compare_spec (N_of_ascii y) (N_of_ascii z)) as [Hyz|Hyz|Hyz];
  destruct (N.compare_spec (N_of_ascii x) (N_of_ascii z)) as [Hxz|Hxz|Hxz];
  try congruence; try lia.
  apply IH.
Qed.

Global Instance string_le_trans : Transitive string_le.
Proof.
  intros a b c. unfold string_le, String.leb. intros Hab Hbc.
  pose proof (string_compare_trans a b c) as Ht.
  destruct (String.compare a b); destruct (String.compare b c);
    destruct (String.compare a c); try discriminate; try reflexivity;
    exfalso; apply Ht; first [discriminate | reflexivity].
Qed.

Global Instance string_le_antisym : AntiSymm eq string_le.
Proof. intros a b. apply String.leb_antisym. Qed.

Global Instance string_le_total : Total string_le.
Proof. intros a b. apply String.leb_total. Qed.

Lemma sorted_Permutation ks : sorted ks ≡ₚ ks.
Proof. apply merge_sort_Permutation. Qed.

(** The sorted list depends on the keys only, not on their order. *)
Lemma sorted_unique ks ks' : ks ≡ₚ ks' -> sorted ks = sorted ks'.
Proof.
  intros Hp. apply (Sorted_unique string_le).
  - apply Sorted_merge_sort, _.
  - apply Sorted_merge_sort, _.
  - unfold sorted. now rewrite !merge_sort_Permutation.
Qed.


(** *** The cutoff *)

Lemma cutoff_floor_from_spec fuel : forall z k,
  cutoff_floor_from fuel z = true -> (z <= k < z + Z.of_nat fuel)%Z ->
  int_of_float (SFmul 53 1024 point_nine (binary_normalize 53 1024 k 0 false))
  = (9 * k / 10)%Z.
Proof.
  induction fuel as [|fuel IH]; intros z k Hall Hk; [lia|].
  cbn [cutoff_floor_from] in Hall. apply andb_true_iff in Hall as [Hz Hall].
  destruct (Z.eq_dec k z) as [->|Hne]; [now apply Z.eqb_eq|].
  apply (IH (z + 1)%Z); [assumption | lia].
Qed.

Lemma cutoff_floor_checked : cutoff_floor_from (Z.to_nat 65536) 0 = true.
Proof. vm_compute. reflexivity. Qed.

Lemma cutoff_floor n : (Z.of_nat n < 65536)%Z -> cutoff n = 9 * n / 10.
Proof.
  intros Hn. unfold cutoff, float_of_nat.
  rewrite (cutoff_floor_from_spec _ 0 _ cutoff_floor_checked)
    by (rewrite Z2Nat.id; lia).
  apply Nat2Z.inj. rewrite Z2Nat.id by (apply Z.div_pos; lia).
  now rewrite Nat2Z.inj_div, Nat2Z.inj_mul.
Qed.

Section WithRandomState.
Context {ext : Externals} {rng : RandomState}.
Implicit Types (cache : mapping leaf) (order : list string).

(** *** Cyclic indexing *)

Lemma cyclic_lookup order i :
  order <> [] ->
  exists k, cyclic order i = Ok k /\ order !! (i mod length order) = Some k.
Proof.
  intros Hne. unfold cyclic. destruct order as [|k0 order']; [congruence|].
  cbn [length].
  destruct ((k0 :: order') !! (i mod S (length order'))) as [k|] eqn:Hk; [now exists k|].
  apply lookup_ge_None in Hk. cbn [length] in Hk.
  pose proof (Nat.mod_upper_bound i (S (length order'))). lia.
Qed.

Lemma cyclic_empty i : cyclic [] i = Raise ZeroDivisionError.
Proof. reflexivity. Qed.

Lemma get_In {V} k (d : dict V) : In k (keys d) -> exists x, get k d = Some x.
Proof.
  induction d as [|[k' v] d IH]; simpl; [tauto|].
  destruct (String.eqb_spec k k') as [->|Hne]; [eauto|].
  intros [Heq|Hin]; [congruence | now apply IH].
Qed.

Lemma designs_lookup cache order range :
  order <> [] -> (forall k, In k order -> In k (keys cache)) ->
  exists items,
    designs cache order range = Ok items
    /\ length items = length range
    /\ forall j i, range !! j = Some i ->
         exists k x, order !! (i mod length order) = Some k
                     /\ get k cache = Some x /\ items !! j = Some x.
Proof.
  intros Hne Hsub. induction range as [|i range (items & Hitems & Hlen & Hall)].
  - exists []. repeat split. intros j i Hj. discriminate.
  - destruct (cyclic_lookup order i Hne) as (k & Hc & Hk).
    destruct (get_In k cache) as [x Hx].
    { apply Hsub. apply list_elem_of_In. eapply list_elem_of_lookup_2, Hk. }
    exists (x :: items). cbn [designs]. rewrite Hc. cbn [mbind result_bind].
    unfold getitem. rewrite Hx, Hitems. cbn [mbind result_bind].
    split; [reflexivity|]. split; [simpl; now rewrite Hlen|].
    intros [|j] i'; simpl.
    + intros [= <-]. now exists k, x.
    + apply Hall.
Qed.

Lemma design_ids_spec order range :
  order <> [] ->
  design_ids order range = Ok (map (fun i => nth (i mod length order) order "") range).
Proof.
  intros Hne. induction range as [|i range IH]; [reflexivity|].
  destruct (cyclic_lookup order i Hne) as (k & Hc & Hk).
  cbn [design_ids]. rewrite Hc, IH. cbn [mbind result_bind map]. do 2 f_equal.
  symmetry. apply nth_lookup_Some with (d := "") in Hk.
  rewrite <- Hk. clear. generalize (i mod length order). intros n. revert n.
  induction order as [|? ? IHo]; intros [|n]; simpl; auto.
Qed.

Lemma map_nth_seq {X} (l pre : list X) d :
  map (fun i => List.nth i (pre ++ l) d) (seq (length pre) (length l)) = l.
Proof.
  revert pre. induction l as [|x l IH]; intros pre; [reflexivity|].
  simpl. rewrite nth_middle. f_equal.
  specialize (IH (pre ++ [x])). rewrite length_app in IH. simpl in IH.
  rewrite Nat.add_1_r in IH. rewrite <- IH at 2.
  apply map_ext. intros i. now rewrite <- app_assoc.
Qed.

Lemma design_ids_all order : design_ids order (seq 0 (length order)) = Ok order.
Proof.
  destruct order as [|k0 order'] eqn:Ho; [reflexivity|]. rewrite <- Ho.
  rewrite design_ids_spec by (subst; discriminate). f_equal.
  transitivity (map (fun i => List.nth i ([] ++ order) "") (seq (length (@nil string)) (length order)));
    [|apply map_nth_seq].
  apply map_ext_in. intros i Hi%in_seq. cbn [length] in Hi.
  rewrite Nat.mod_small by lia. reflexivity.
Qed.

(** *** The splits *)

Lemma order_Permutation cache : order_of cache ≡ₚ keys cache.
Proof. unfold order_of. now rewrite permutation_Permutation, sorted_Permutation. Qed.

Lemma In_take {X} n (l : list X) x : In x (take n l) -> In x l.
Proof. intros Hin. rewrite <- (firstn_skipn n l). apply in_or_app. now left. Qed.

Lemma In_drop {X} n (l : list X) x : In x (drop n l) -> In x l.
Proof. intros Hin. rewrite <- (firstn_skipn n l). apply in_or_app. now right. Qed.

Lemma split_order_In cache split order k :
  split_order cache split = Ok order -> In k order -> In k (keys cache).
Proof.
  unfold split_order. fold (order_of cache). intros Hs Hin.
  assert (In k (order_of cache)) as Hk.
  { destruct (String.eqb split "training"); [injection Hs as <-; eapply In_take, Hin|].
    destruct (String.eqb split "test"); [injection Hs as <-; eapply In_drop, Hin|].
    destruct (String.eqb split "all"); [now injection Hs as <- | discriminate]. }
  apply list_elem_of_In. rewrite <- order_Permutation. now apply list_elem_of_In.
Qed.


Lemma order_NoDup cache : NoDup (keys cache) -> NoDup (order_of cache).
Proof. intros Hnd. now rewrite order_Permutation. Qed.

Lemma order_of_keys cache cache' :
  keys cache' ≡ₚ keys cache -> order_of cache' = order_of cache.
Proof. intros Hp. unfold order_of. now rewrite (sorted_unique _ _ Hp). Qed.

Lemma length_keys {V} (d : dict V) : length (keys d) = length d.
Proof. apply length_map. Qed.

(** *** Sampling from a cache that is built *)

Lemma sample_cached n split w cache :
  _cache w = Some cache -> sample n split w = (select cache n split, w).
Proof.
  intros Hc. unfold sample. rewrite bind_run. unfold get_cache. rewrite Hc.
  rewrite bind_run. reflexivity.
Qed.

(** C3.  In a process whose sample cache holds [N] items with distinct
    ids, the cutoff is [int(.9 * N)], which is [floor(9 N / 10)] for every
    [N] below 65536; the three splits are the first [cutoff] ids, the
    remaining ids and all ids of the one permutation of the sorted ids;
    that selection depends on the set of ids only; training and test share
    no id; [sample] returns the items of the ids of its split, taken
    cyclically, and leaves the process as it was; and [sample(N, "all")]
    returns the item of every id of the cache exactly once, in the order
    of the permutation. *)
Theorem split_selection cache w :
  _cache w = Some cache ->
  NoDup (keys cache) ->
  let N := length cache in
  ((Z.of_nat N < 65536)%Z -> cutoff N = 9 * N / 10)
  /\ split_order cache "training" = Ok (take (cutoff N) (order_of cache))
  /\ split_order cache "test" = Ok (drop (cutoff N) (order_of cache))
  /\ split_order cache "all" = Ok (order_of cache)
  /\ (forall cache' split,
        keys cache' ≡ₚ keys cache -> split_order cache' split = split_order cache split)
  /\ (forall k, In k (take (cutoff N) (order_of cache)) ->
                ~ In k (drop (cutoff N) (order_of cache)))
  /\ order_of cache ≡ₚ keys cache
  /\ NoDup (order_of cache)
  /\ design_ids (order_of cache) (seq 0 N) = Ok (order_of cache)
  /\ (forall n, sample n "training" w
                = (designs cache (take (cutoff N) (order_of cache)) (seq 0 n), w))
  /\ (forall n, sample n "test" w
                = (designs cache (drop (cutoff N) (order_of cache)) (seq 0 n), w))
  /\ (forall n, sample n "all" w = (designs cache (order_of cache) (seq 0 n), w))
  /\ exists items,
       sample N "all" w = (Ok items, w)
       /\ Forall2 (fun k x => get k cache = Some x) (order_of cache) items.
Proof.
  intros Hw Hnd N.
  assert (length (order_of cache) = N) as Hlen
    by (now rewrite order_Permutation, length_keys).
  split; [apply cutoff_floor|]. split; [reflexivity|]. split; [reflexivity|].
  split; [reflexivity|]. split.
  { intros cache' split Hp. unfold split_order. fold (order_of cache') (order_of cache).
    rewrite (order_of_keys _ _ Hp). apply Permutation_length in Hp.
    rewrite !length_keys in Hp. now rewrite Hp. }
  split.
  { intros k Htake Hdrop. pose proof (order_NoDup cache Hnd) as Ho.
    rewrite <- (take_drop (cutoff N) (order_of cache)) in Ho.
    apply NoDup_app in Ho as (_ & Hdis & _).
    apply (Hdis k); now apply list_elem_of_In. }
  split; [apply order_Permutation|]. split; [now apply order_NoDup|].
  split; [rewrite <- Hlen; apply design_ids_all|].
  split; [intros n; now rewrite (sample_cached n _ w cache Hw)|].
  split; [intros n; now rewrite (sample_cached n _ w cache Hw)|].
  split; [intros n; now rewrite (sample_cached n _ w cache Hw)|].
  rewrite (sample_cached N "all" w cache Hw).
  unfold select. change (split_order cache "all") with (Ok (order_of cache)).
  cbn [mbind result_bind]. rewrite <- Hlen.
  destruct (order_of cache) as [|k0 order'] eqn:Ho; [exists []; split; [reflexivity | constructor]|].
  rewrite <- Ho.
  destruct (designs_lookup cache (order_of cache) (seq 0 (length (order_of cache))))
    as (items & Hitems & Hlen' & Hall).
  { rewrite Ho. discriminate. }
  { intros k Hk. apply list_elem_of_In. rewrite <- order_Permutation. now apply list_elem_of_In. }
  exists items. split; [now rewrite Hitems|]. rewrite length_seq in Hlen'.
  apply Forall2_same_length_lookup. split; [congruence|].
  intros j k x Hk Hx. pose proof (lookup_lt_Some _ _ _ Hk) as Hj.
  destruct (Hall j j) as (k' & x' & Hk' & Hget & Hx'); [now apply lookup_seq_lt|].
  rewrite Nat.mod_small in Hk' by assumption. congruence.
Qed.

(** C6.  In a process whose sample cache is built, for a split that is
    not empty and any count, [sample] returns [count] items, the one at
    position [i] being the cache item of the id at position
    [i mod len(split)] of the split, and leaves the process as it was; so
    with one more than the split holds, the last item is the first one
    again. *)
Theorem select_cyclic cache split order n w :
  _cache w = Some cache ->
  split_order cache split = Ok order -> order <> [] ->
  exists items,
    sample n split w = (Ok items, w)
    /\ length items = n
    /\ (forall i, i < n ->
          exists k x, order !! (i mod length order) = Some k
                      /\ get k cache = Some x /\ items !! i = Some x)
    /\ (n = length order + 1 ->
        exists x, items !! 0 = Some x /\ items !! length order = Some x).
Proof.
  intros Hw Hs Hne.
  destruct (designs_lookup cache order (seq 0 n) Hne) as (items & Hitems & Hlen & Hall).
  { intros k. now apply split_order_In with (split := split). }
  exists items. rewrite (sample_cached n split w cache Hw).
  unfold select. rewrite Hs. cbn [mbind result_bind].
  split; [now rewrite Hitems|]. rewrite length_seq in Hlen. split; [assumption|].
  assert (forall i, i < n -> exists k x, order !! (i mod length order) = Some k
                                /\ get k cache = Some x /\ items !! i = Some x) as Hcyc.
  { intros i Hi. apply Hall. now apply lookup_seq_lt. }
  split; [exact Hcyc|]. intros ->.
  destruct (Hcyc 0) as (k & x & Hk & Hx & Hi0); [lia|].
  destruct (Hcyc (length order)) as (k' & x' & Hk' & Hx' & Hil); [lia|].
  assert (length order <> 0) by (destruct order; [congruence | discriminate]).
  rewrite Nat.Div0.mod_same in Hk'. rewrite Nat.Div0.mod_0_l in Hk.
  exists x. split; [assumption|]. congruence.
Qed.

(** C10.  In a process whose sample cache is built, with a count of at
    least one, [sample] on an empty split raises [ZeroDivisionError] and
    leaves the process as it was; the training split of a cache of exactly
    one item is empty, its cutoff being [int(.9 * 1) = 0]. *)
Theorem select_empty_split cache split n w :
  _cache w = Some cache ->
  1 <= n ->
  (split_order cache split = Ok [] -> sample n split w = (Raise ZeroDivisionError, w))
  /\ (length cache = 1 ->
      split_order cache "training" = Ok []
      /\ sample n "training" w = (Raise ZeroDivisionError, w)).
Proof.
  intros Hw Hn.
  assert (forall s, split_order cache s = Ok [] ->
                    sample n s w = (Raise ZeroDivisionError, w)) as Hempty.
  { intros s Hs. rewrite (sample_cached n s w cache Hw). unfold select. rewrite Hs.
    cbn [mbind result_bind]. destruct n as [|n]; [lia | reflexivity]. }
  split; [apply Hempty|]. intros Hone.
  assert (split_order cache "training" = Ok []) as Htr.
  { unfold split_order. rewrite Hone. reflexivity. }
  split; [exact Htr | now apply Hempty].
Qed.

End WithRandomState.

(** *** Examples *)

Lemma split_selection_witness :
  _cache warm_world = Some three_items
  /\ NoDup (keys three_items)
  /\ (Z.of_nat 3 < 65536)%Z
  /\ cutoff 3 = 9 * 3 / 10
  /\ split_order (rng := reversing) three_items "training" = Ok ["7"; "30"]
  /\ split_order (rng := reversing) three_items "test" = Ok ["12"]
  /\ design_ids (order_of (rng := reversing) three_items) (seq 0 3) = Ok ["7"; "30"; "12"]
  /\ sample (ext := offline) (rng := reversing) 3 "all" warm_world
     = (Ok [Dict [("id", Arr (Str "7"))]; Dict [("id", Arr (Str "30"))];
            Dict [("id", Arr (Str "12"))]], warm_world).
Proof.
  assert (NoDup (keys three_items)) as Hnd by (apply PyFacts.distinct_NoDup; reflexivity).
  split; [reflexivity|]. split; [exact Hnd|].
  destruct (split_selection (ext := offline) (rng := reversing) three_items warm_world
              eq_refl Hnd)
    as (Hcut & Htr & Hte & _ & _ & _ & _ & _ & Hall & _ & _ & Hsample & _).
  split; [reflexivity|]. split; [apply Hcut; reflexivity|].
  split; [exact Htr|]. split; [exact Hte|]. split; [exact Hall|].
  rewrite Hsample. reflexivity.
Defined.

Lemma select_cyclic_witness :
  _cache warm_world = Some three_items
  /\ split_order (rng := reversing) three_items "training" = Ok ["7"; "30"]
  /\ ["7"; "30"] <> []
  /\ exists items,
       sample (ext := offline) (rng := reversing) 3 "training" warm_world
       = (Ok items, warm_world)
       /\ exists x, items !! 0 = Some x /\ items !! 2 = Some x.
Proof.
  split; [reflexivity|]. split; [reflexivity|]. split; [discriminate|].
  destruct (select_cyclic (ext := offline) (rng := reversing) three_items "training"
              ["7"; "30"] 3 warm_world eq_refl eq_refl ltac:(discriminate))
    as (items & Hsel & _ & _ & Hlast).
  exists items. split; [exact Hsel | exact (Hlast eq_refl)].
Defined.

Lemma select_empty_split_witness :
  _cache lone_world = Some one_item
  /\ 1 <= 3 /\ length one_item = 1
  /\ sample (ext := offline) (rng := reversing) 3 "training" lone_world
     = (Raise ZeroDivisionError, lone_world).
Proof.
  split; [reflexivity|]. split; [lia|]. split; [reflexivity|].
  apply (proj2 (select_empty_split (ext := offline) (rng := reversing) one_item "training" 3
                  lone_world eq_refl ltac:(lia)) eq_refl).
Defined.

End SamplerFacts.

Module CacheFacts.

Import KeyTree Codec World Cubicasa Artifacts PyFacts WorldFacts.

Section WithExternals.
Context {ext : Externals}.

(** *** Reading the file back *)

Lemma svg_tail p w bs :
  files w !! p = Some bs ->
  (bs ← read_bytes p;
   raw ← lift (gzip_decompress bs);
   lift (read_json raw)) w
  = (load_svgs bs, w).
Proof.
  intros Hbs. rewrite bind_run, (read_bytes_file _ _ _ Hbs), bind_run. unfold lift, load_svgs.
  destruct (gzip_decompress bs); reflexivity.
Qed.

Lemma geometry_tail p w bs :
  files w !! p = Some bs ->
  (bs ← read_bytes p;
   raw ← lift (gzip_decompress bs);
   entries ← lift (zip_entries raw);
   flat ← lift (load_entries entries []);
   flat ← lift (dotdict flat);
   lift (unflatten flat)) w
  = (load_geometry bs, w).
Proof.
  intros Hbs. rewrite bind_run, (read_bytes_file _ _ _ Hbs), bind_run. unfold lift, load_geometry.
  destruct (gzip_decompress bs) as [raw|]; [|reflexivity].
  rewrite bind_run. cbn [mbind result_bind].
  destruct (zip_entries raw) as [entries|]; [|reflexivity].
  rewrite bind_run. cbn [mbind result_bind].
  destruct (load_entries entries []) as [flat|]; [|reflexivity].
  rewrite bind_run. cbn [mbind result_bind].
  destruct (dotdict flat); reflexivity.
Qed.

Lemma svg_data_hit w bs :
  files w !! svg_path = Some bs -> svg_data false w = (load_svgs bs, w).
Proof.
  intros Hbs. unfold svg_path in Hbs. unfold svg_data.
  rewrite bind_run, (path_exists_file _ _ _ Hbs).
  cbn [negb orb]. rewrite bind_run. cbn [mret M_ret]. now apply svg_tail.
Qed.

Lemma geometry_data_hit w bs :
  files w !! geometry_path = Some bs -> geometry_data false w = (load_geometry bs, w).
Proof.
  intros Hbs. unfold geometry_path in Hbs. unfold geometry_data.
  rewrite bind_run, (path_exists_file _ _ _ Hbs).
  cbn [negb orb]. rewrite bind_run. cbn [mret M_ret]. now apply geometry_tail.
Qed.

(** C4.  When the cached file is present and [regenerate] is false,
    [svg_data] and [geometry_data] do nothing but read the file: what
    they return (or raise) is what the decoding of the file's bytes gives,
    for [geometry_data] through the call [dotdict(...)], and the world is
    left as it was: nothing is fetched, nothing regenerated, nothing
    logged, no directory made and no file written. *)
Theorem materialize_hit w :
  (forall bs, files w !! ".cache/cubicasa-svgs.json.gz" = Some bs ->
     svg_data false w = (raw ← gzip_decompress bs; read_json raw, w))
  /\ (forall bs, files w !! ".cache/cubicasa-geometry.npz.gz" = Some bs ->
     geometry_data false w
     = (raw ← gzip_decompress bs; entries ← zip_entries raw;
        flat ← load_entries entries []; flat ← dotdict flat; unflatten flat, w)).
Proof.
  split; intros bs Hbs.
  - unfold svg_data. rewrite bind_run, (path_exists_file _ _ _ Hbs).
    cbn [negb orb]. rewrite bind_run. cbn [mret M_ret].
    rewrite bind_run, (read_bytes_file _ _ _ Hbs), bind_run. unfold lift.
    destruct (gzip_decompress bs); reflexivity.
  - unfold geometry_data. rewrite bind_run, (path_exists_file _ _ _ Hbs).
    cbn [negb orb]. rewrite bind_run. cbn [mret M_ret].
    rewrite bind_run, (read_bytes_file _ _ _ Hbs), bind_run. unfold lift.
    destruct (gzip_decompress bs) as [raw|]; [|reflexivity].
    rewrite bind_run. cbn [mbind result_bind].
    destruct (zip_entries raw) as [entries|]; [|reflexivity].
    rewrite bind_run. cbn [mbind result_bind].
    destruct (load_entries entries []) as [flat|]; [|reflexivity].
    rewrite bind_run. cbn [mbind result_bind].
    destruct (dotdict flat); reflexivity.
Qed.

(** *** The derivation *)

Lemma safe_geometry_run r w :
  safe_geometry (id r) (svg r) w = (Ok (outcome r), logged w (failure_log [r])).
Proof.
  unfold safe_geometry, outcome, failure_log, failed. cbn [List.filter].
  destruct (geometry (svg r)); cbn [map]; [now rewrite logged_nil | reflexivity].
Qed.

Lemma failure_log_cons r rows :
  failure_log (r :: rows) = failure_log [r] ++ failure_log rows.
Proof. unfold failure_log. cbn [List.filter]. destruct (failed r); reflexivity. Qed.

Lemma pool_wait_run rows : forall gs w,
  NoDup (keys gs ++ map id rows) ->
  pool_wait rows gs w
  = (Ok (gs ++ map (fun r => (id r, outcome r)) rows), logged w (failure_log rows)).
Proof.
  induction rows as [|r rows IH]; intros gs w Hnd.
  - simpl. now rewrite app_nil_r, logged_nil.
  - cbn [pool_wait]. rewrite bind_run, safe_geometry_run.
    rewrite set_fresh.
    + rewrite IH.
      * rewrite logged_logged, <- failure_log_cons, <- app_assoc. reflexivity.
      * unfold keys in *. rewrite map_app, <- app_assoc. exact Hnd.
    + apply NoDup_app in Hnd as (_ & Hdis & _). intros Hin.
      apply (Hdis (id r)); [now apply list_elem_of_In | left].
Qed.

Lemma omap_outcomes rows :
  omap (fun kv : string * option (mapping ndarray) =>
          match kv.2 with Some v => Some (kv.1, v) | None => None end)
       (map (fun r => (id r, outcome r)) rows)
  = successes rows.
Proof.
  unfold successes, outcome. induction rows as [|r rows IH]; [reflexivity|].
  cbn [map omap list_omap]. simpl. destruct (geometry (svg r)); simpl; now rewrite IH.
Qed.

Lemma In_successes rows k g :
  In (k, g) (successes rows) <-> exists r, In r rows /\ id r = k /\ geometry (svg r) = Ok g.
Proof.
  unfold successes. induction rows as [|r rows IH]; simpl.
  - split; [tauto | intros (r & [] & _)].
  - destruct (geometry (svg r)) as [g'|e] eqn:Hg; simpl; rewrite IH; split.
    + intros [[= <- <-]|(r' & Hin & Hr')]; [exists r; auto | exists r'; tauto].
    + intros (r' & [<-|Hin] & <- & Hg'); [left; congruence | right; eauto].
    + intros (r' & Hin & Hr'). exists r'. tauto.
    + intros (r' & [<-|Hin] & <- & Hg'); [congruence | eauto].
Qed.

Lemma keys_successes_sublist rows : sublist (keys (successes rows)) (map id rows).
Proof.
  unfold successes, keys. induction rows as [|r rows IH]; simpl; [constructor|].
  destruct (geometry (svg r)); simpl; [now apply sublist_skip | now apply sublist_cons].
Qed.

Lemma length_successes rows :
  length (successes rows) + length (List.filter failed rows) = length rows.
Proof.
  induction rows as [|r rows IH]; [reflexivity|].
  unfold successes in *. cbn [omap list_omap List.filter]. unfold failed at 1.
  destruct (geometry (svg r)); cbn [length]; lia.
Qed.

Lemma get_NoDup_In {V} k (x : V) (d : dict V) :
  NoDup (keys d) -> In (k, x) d -> get k d = Some x.
Proof.
  induction d as [|[k' v] d IH]; simpl; [tauto|].
  intros Hnd. apply NoDup_cons in Hnd as [Hk' Hnd].
  destruct (String.eqb_spec k k') as [->|Hne].
  - intros [[= ->]|Hin]; [reflexivity|]. exfalso. apply Hk'.
    apply list_elem_of_In. unfold keys. apply in_map_iff. now exists (k', x).
  - intros [[=]|Hin]; [congruence | now apply IH].
Qed.

(** C5.  Over [N] items with distinct keys of which the transform fails
    on [k], the derivation does not raise, returns exactly [N - k]
    entries, holds under each successful key what the transform returns
    on that item alone, holds nothing under a failed key, and logs each
    failed item with its key. *)
Theorem derive_partial_failure rows w :
  NoDup (map id rows) ->
  derive rows w = (Ok (successes rows), logged w (failure_log rows))
  /\ length (successes rows) = length rows - length (List.filter failed rows)
  /\ (forall r, In r rows ->
       match geometry (svg r) with
       | Ok g => get (id r) (successes rows) = Some g
       | Raise _ =>
           get (id r) (successes rows) = None
           /\ In (Log ("Geometry generation failed on on #" ++ id r)%string)
                 (failure_log rows)
       end).
Proof.
  intros Hnd.
  assert (NoDup (keys (successes rows))) as Hks
    by (eapply sublist_NoDup; [exact Hnd | exact (keys_successes_sublist rows)]).
  split; [|split].
  - unfold derive. rewrite bind_run, pool_wait_run by exact Hnd.
    cbn [app mret M_ret]. unfold not_none. rewrite omap_outcomes.
    now rewrite of_list_NoDup.
  - pose proof (length_successes rows). lia.
  - intros r Hr. destruct (geometry (svg r)) as [g|e] eqn:Hg.
    + apply get_NoDup_In; [assumption|]. apply In_successes. now exists r.
    + split.
      * destruct (get (id r) (successes rows)) as [g|] eqn:Hget; [|reflexivity].
        apply get_Some_In, In_successes in Hget as (r' & Hr' & Hid & Hg').
        assert (r' = r) as ->; [|congruence].
        clear -Hnd Hr Hr' Hid. induction rows as [|r0 rows IH]; [destruct Hr|].
        simpl in Hnd. apply NoDup_cons in Hnd as [Hr0 Hnd].
        destruct Hr as [->|Hr], Hr' as [->|Hr']; auto.
        -- exfalso. apply Hr0, list_elem_of_In, in_map_iff. eauto.
        -- exfalso. apply Hr0, list_elem_of_In, in_map_iff. eauto.
      * unfold failure_log. apply in_map_iff. exists r. split; [reflexivity|].
        apply filter_In. split; [assumption|]. unfold failed. now rewrite Hg.
Qed.

(** *** What the functions leave alone *)

Lemma download_run url w :
  download url w
  = (http_get url, logged w [Log ("Downloading " ++ url)%string; Get url]).
Proof.
  unfold download, log_info, emit, lift, logged. rewrite !bind_run. simpl.
  now rewrite <- app_assoc.
Qed.

Lemma evolves_download url : respects evolves (download url).
Proof. intros w. rewrite download_run. apply evolves_logged. Qed.

Ltac evolve :=
  repeat first
    [ apply evolves_download | apply evolves_mkdir | apply evolves_path_exists
    | apply evolves_read | apply evolves_log | apply evolves_emit
    | apply evolves_write; unfold zip_path, svg_path, geometry_path; tauto
    | apply (respects_ret evolves evolves_refl)
    | apply (respects_lift evolves evolves_refl)
    | match goal with |- respects _ (if ?b then _ else _) => destruct b end
    | match goal with |- respects _ (_ ≫= _) =>
        apply (respects_bind evolves evolves_trans); [|intros ?] end ].

Lemma evolves_cubicasa5k : respects evolves cubicasa5k.
Proof. unfold cubicasa5k. evolve. Qed.

Lemma evolves_svg_data regenerate : respects evolves (svg_data regenerate).
Proof. unfold svg_data. evolve; apply evolves_cubicasa5k. Qed.

Lemma evolves_pool_wait rows : forall gs, respects evolves (pool_wait rows gs).
Proof.
  induction rows as [|r rows IH]; intros gs; cbn [pool_wait]; [evolve|].
  apply (respects_bind evolves evolves_trans); [|intros g; apply IH].
  intros w. rewrite safe_geometry_run. apply evolves_logged.
Qed.

Lemma evolves_derive rows : respects evolves (derive rows).
Proof. unfold derive. evolve. apply evolves_pool_wait. Qed.

Lemma evolves_geometry_data regenerate : respects evolves (geometry_data regenerate).
Proof.
  unfold geometry_data. evolve; first [apply evolves_svg_data | apply evolves_derive].
Qed.

(** *** The sample cache *)

Context {rng : RandomState}.

Lemma split_order_invalid cache split :
  split <> "training" -> split <> "test" -> split <> "all" ->
  split_order cache split = Raise ValueError.
Proof.
  intros H1%String.eqb_neq H2%String.eqb_neq H3%String.eqb_neq.
  unfold split_order. now rewrite H1, H2, H3.
Qed.

Lemma sample_cold n split w :
  _cache w = None ->
  sample n split w
  = match geometry_data false w with
    | (Ok tree, w1) =>
        match with_ids tree [] with
        | Ok c => (select c n split, World (files w1) (dirs w1) (trace w1) (Some c))
        | Raise e => (Raise e, World (files w1) (dirs w1) (trace w1) (Some tree))
        end
    | (Raise e, w1) => (Raise e, w1)
    end.
Proof.
  intros Hc. unfold sample. rewrite bind_run. unfold get_cache. rewrite Hc.
  rewrite bind_run, bind_run.
  destruct (geometry_data false w) as [[tree|e] w1]; [|reflexivity].
  rewrite bind_run. unfold set_cache at 1. rewrite bind_run. unfold lift at 1.
  destruct (with_ids tree []) as [c|e]; reflexivity.
Qed.

(** C9, as amended.  For every count and every split other than
    "training", "test" and "all", [sample] never returns.  When the sample
    cache is built it raises [ValueError] and leaves the whole world, the
    cache included, as it was.  On the first call the cache is
    materialized before the split is looked at: if loading the artifact
    raises, that is what the caller sees, and the cache stays unset; if
    giving the items their ids raises, that is what the caller sees, and
    the cache is left holding the loaded tree; otherwise the cache is left
    built and [ValueError] is raised. *)
Theorem sample_invalid_split n split w :
  split <> "training" -> split <> "test" -> split <> "all" ->
  is_ok (sample n split w).1 = false
  /\ (forall c, _cache w = Some c -> sample n split w = (Raise ValueError, w))
  /\ (_cache w = None ->
      match geometry_data false w with
      | (Raise e, w1) => sample n split w = (Raise e, w1) /\ _cache w1 = None
      | (Ok tree, w1) =>
          match with_ids tree [] with
          | Raise e =>
              sample n split w
              = (Raise e, World (files w1) (dirs w1) (trace w1) (Some tree))
          | Ok c =>
              sample n split w
              = (Raise ValueError, World (files w1) (dirs w1) (trace w1) (Some c))
          end
      end).
Proof.
  intros H1 H2 H3.
  assert (forall c, select c n split = Raise ValueError) as Hsel.
  { intros c. unfold select. now rewrite split_order_invalid. }
  assert (forall c, _cache w = Some c -> sample n split w = (Raise ValueError, w)) as Hwarm.
  { intros c Hc. unfold sample. rewrite bind_run. unfold get_cache. rewrite Hc.
    rewrite bind_run. cbn [mret M_ret]. unfold lift. now rewrite Hsel. }
  assert (_cache w = None ->
          match geometry_data false w with
          | (Raise e, w1) => sample n split w = (Raise e, w1) /\ _cache w1 = None
          | (Ok tree, w1) =>
              match with_ids tree [] with
              | Raise e =>
                  sample n split w
                  = (Raise e, World (files w1) (dirs w1) (trace w1) (Some tree))
              | Ok c =>
                  sample n split w
                  = (Raise ValueError, World (files w1) (dirs w1) (trace w1) (Some c))
              end
          end) as Hcold.
  { intros Hc. rewrite (sample_cold n split w Hc).
    pose proof (evolves_geometry_data false w) as [_ Hcache].
    destruct (geometry_data false w) as [[tree|e] w1].
    - destruct (with_ids tree []) as [c|e]; [now rewrite Hsel | reflexivity].
    - split; [reflexivity|]. cbn in Hcache. congruence. }
  split; [|split; assumption].
  destruct (_cache w) as [c|] eqn:Hc; [now rewrite (Hwarm c)|].
  specialize (Hcold eq_refl).
  destruct (geometry_data false w) as [[tree|e] w1].
  - destruct (with_ids tree []) as [c|e]; now rewrite Hcold.
  - destruct Hcold as [-> _]. reflexivity.
Qed.

End WithExternals.

(** *** Examples *)

Lemma materialize_hit_witness :
  files fresh_world !! ".cache/cubicasa-svgs.json.gz" = Some ["3"%byte; "4"%byte]
  /\ files fresh_world !! ".cache/cubicasa-geometry.npz.gz" = Some ("7"%byte :: encode walls)
  /\ svg_data (ext := offline) false fresh_world = (Ok [Row "3" ""; Row "4" ""], fresh_world)
  /\ geometry_data (ext := offline) false fresh_world = (Raise TypeError, fresh_world)
  /\ geometry_data (ext := callable offline) false fresh_world
     = (Ok [("7", Dict [("walls", Arr (Array walls))])], fresh_world).
Proof.
  split; [reflexivity|]. split; [reflexivity|]. split; [|split].
  - rewrite (proj1 (materialize_hit (ext := offline) fresh_world) _ eq_refl). reflexivity.
  - rewrite (proj2 (materialize_hit (ext := offline) fresh_world) _ eq_refl). reflexivity.
  - rewrite (proj2 (materialize_hit (ext := callable offline) fresh_world) _ eq_refl).
    reflexivity.
Defined.

Lemma derive_partial_failure_witness :
  NoDup (map id two_rows)
  /\ (derive (ext := offline) two_rows warm_world).1
     = Ok [("3", [("walls", Arr (NDArray "|u1" [6%Z] (list_byte_of_string "<svg/>")))])]
  /\ trace (derive (ext := offline) two_rows warm_world).2
     = [Log "Geometry generation failed on on #4"].
Proof.
  assert (NoDup (map id two_rows)) as Hnd by (apply distinct_NoDup; reflexivity).
  split; [exact Hnd|].
  rewrite (proj1 (derive_partial_failure (ext := offline) two_rows warm_world Hnd)).
  split; reflexivity.
Defined.

Lemma sample_invalid_split_witness :
  "bogus" <> "training" /\ "bogus" <> "test" /\ "bogus" <> "all"
  /\ sample (ext := offline) (rng := reversing) 5 "bogus" warm_world
     = (Raise ValueError, warm_world).
Proof.
  repeat (split; [discriminate|]).
  apply (proj1 (proj2 (sample_invalid_split (ext := offline) (rng := reversing)
                         5 "bogus" warm_world
                         ltac:(discriminate) ltac:(discriminate) ltac:(discriminate)))
               three_items eq_refl).
Defined.

(** C9, as stated, fails on the first sampling call of a process, which
    materializes the cache before it looks at the split: where [dotdict]
    cannot be called the caller sees the [TypeError] of the
    materialization and not [ValueError]; where it can, [ValueError] is
    raised by a call that has built the cache. *)
Lemma sample_invalid_split_first_call :
  _cache fresh_world = None
  /\ sample (ext := offline) (rng := reversing) 1 "bogus" fresh_world
     = (Raise TypeError, fresh_world)
  /\ (sample (ext := callable offline) (rng := reversing) 1 "bogus" fresh_world).1
     = Raise ValueError
  /\ _cache (sample (ext := callable offline) (rng := reversing) 1 "bogus" fresh_world).2
     = Some [("7", Dict [("id", Arr (Str "7")); ("walls", Arr (Array walls))])].
Proof. repeat split; vm_compute; reflexivity. Qed.

End CacheFacts.

Module KeyTreeMore.

Import KeyTree KeyPaths PyFacts KeyTreeFacts LiteralFacts.

Section WithLeaf.
Context {A : Type}.
Implicit Types (v : value A) (node tree sub : mapping A) (flat : dict A) (k : string).
Implicit Types (ps : list (list string * A)) (parts : list string).

(** *** Splitting and joining keys *)

Lemma split_parts_slash_free k : Forall (fun p => slash_free p = true) (split "/" k).
Proof.
  induction k as [|c k IH]; [repeat constructor|]. cbn [split].
  destruct (Ascii.eqb c "/") eqn:Hc; [constructor; [reflexivity | exact IH]|].
  destruct (split "/" k) as [|p ps]; [repeat constructor; simpl; now rewrite Hc|].
  apply Forall_cons in IH as [Hp Hps]. constructor; [|exact Hps].
  simpl. now rewrite Hc, Hp.
Qed.

Lemma unsplit_cons c p parts : unsplit (String c p :: parts) = String c (unsplit (p :: parts)).
Proof. destruct parts; reflexivity. Qed.

Lemma unsplit_split k : unsplit (split "/" k) = k.
Proof.
  induction k as [|c k IH]; [reflexivity|]. cbn [split].
  destruct (Ascii.eqb_spec c "/") as [->|Hc].
  - pose proof (split_nonempty "/" k). destruct (split "/" k) as [|p ps]; [congruence|].
    change (unsplit ("" :: p :: ps)) with ("" ++ "/" ++ unsplit (p :: ps))%string.
    now rewrite IH.
  - pose proof (split_nonempty "/" k). destruct (split "/" k) as [|p ps]; [congruence|].
    now rewrite unsplit_cons, IH.
Qed.

Lemma key_path_inj (kv kv' : string * A) : key_path kv = key_path kv' -> kv = kv'.
Proof.
  destruct kv as [k a], kv' as [k' a']. unfold key_path. simpl. intros [= Hk ->].
  f_equal. now rewrite <- (unsplit_split k), Hk, unsplit_split.
Qed.

(** *** What [assign] keeps *)

Lemma distinct_set {V} k (x : V) (d : dict V) :
  distinct (keys d) = true -> distinct (keys (set k x d)) = true.
Proof.
  rewrite !distinct_NoDup. intros Hnd.
  destruct (get k d) as [y|] eqn:Hg.
  - rewrite keys_set_present; [assumption|].
    apply get_Some_In in Hg. unfold keys. apply in_map_iff. exists (k, y). auto.
  - apply get_None in Hg. rewrite set_fresh by assumption. unfold keys in *.
    rewrite map_app. apply NoDup_app. split; [assumption|]. split; [|apply NoDup_singleton].
    intros k' Hk' Heq%list_elem_of_singleton. subst. now apply Hg, list_elem_of_In.
Qed.

Lemma forallb_set {V} (f : string * V -> bool) k (x : V) (d : dict V) :
  f (k, x) = true -> forallb f d = true -> forallb f (set k x d) = true.
Proof.
  intros Hx. induction d as [|[k' y] d IH]; simpl; [now rewrite Hx|].
  intros [Hy Hd]%andb_true_iff. destruct (String.eqb_spec k k') as [->|Hne]; simpl.
  - now rewrite Hx.
  - now rewrite Hy, IH.
Qed.

Lemma tidy_set k v node :
  slash_free k = true -> well_keyed v = true -> inhabited v = true ->
  tidy node = true -> tidy (set k v node) = true.
Proof.
  intros Hk Hwk Hin. unfold tidy. cbn [well_keyed].
  intros [[Hd Hall]%andb_true_iff Hinh]%andb_true_iff.
  rewrite distinct_set by assumption.
  rewrite forallb_set; [| simpl; now rewrite Hk, Hwk | assumption].
  rewrite forallb_set; [reflexivity | assumption | assumption].
Qed.

Lemma tidy_get k sub node :
  tidy node = true -> get k node = Some (Dict sub) ->
  tidy sub = true /\ sub <> [].
Proof.
  unfold tidy. cbn [well_keyed].
  intros [[_ Hall]%andb_true_iff Hinh]%andb_true_iff Hg%get_Some_In.
  rewrite forallb_forall in Hall, Hinh.
  specialize (Hall _ Hg). specialize (Hinh _ Hg). simpl in Hall, Hinh.
  apply andb_true_iff in Hall as [_ Hwk].
  destruct sub as [|kv sub]; [discriminate|]. split; [|discriminate].
  cbn [well_keyed] in Hwk. now rewrite Hwk, Hinh.
Qed.

Lemma assign_nonempty parts : forall (a : A) node node',
  parts <> [] -> assign parts a node = Ok node' -> node' <> [].
Proof.
  assert (forall k (x : value A) d, set k x d <> []) as Hset
    by (intros k x [|[k' y] d]; simpl; [|destruct (String.eqb k k')]; discriminate).
  intros a node node' Hne. destruct parts as [|p [|s more]]; [congruence| |].
  - intros [= <-]. apply Hset.
  - rewrite assign_cons2. destruct (get p node) as [[b|sub]|].
    + destruct more; discriminate.
    + destruct (assign (s :: more) a sub); [|discriminate]. intros [= <-]. apply Hset.
    + destruct (assign (s :: more) a []); [|discriminate]. intros [= <-]. apply Hset.
Qed.

Lemma tidy_inhabited sub : tidy sub = true -> sub <> [] ->
  well_keyed (Dict sub) = true /\ inhabited (Dict sub) = true.
Proof.
  unfold tidy. intros [Hwk Hinh]%andb_true_iff Hne. split; [assumption|].
  destruct sub; [congruence | exact Hinh].
Qed.

Lemma assign_tidy parts : forall (a : A) node node',
  Forall (fun p => slash_free p = true) parts ->
  tidy node = true -> assign parts a node = Ok node' -> tidy node' = true.
Proof.
  induction parts as [|p parts IH]; intros a node node' Hsf Ht; [now intros [= <-]|].
  apply Forall_cons in Hsf as [Hp Hsf]. destruct parts as [|s more].
  - intros [= <-]. now apply tidy_set.
  - rewrite assign_cons2. destruct (get p node) as [[b|sub]|] eqn:Hg.
    + destruct more; discriminate.
    + destruct (assign (s :: more) a sub) as [sub'|] eqn:Hsub; [|discriminate].
      intros [= <-]. destruct (tidy_get _ _ _ Ht Hg) as [Hts _].
      destruct (tidy_inhabited sub') as [Hwk Hinh];
        [eapply IH; eassumption | eapply assign_nonempty, Hsub; discriminate|].
      now apply tidy_set.
    + destruct (assign (s :: more) a []) as [sub'|] eqn:Hsub; [|discriminate].
      intros [= <-].
      destruct (tidy_inhabited sub') as [Hwk Hinh];
        [eapply (IH a []); [eassumption | reflexivity | eassumption]
        | eapply assign_nonempty, Hsub; discriminate|].
      now apply tidy_set.
Qed.

Lemma assign_all_tidy ps : forall node t,
  Forall (fun pa => Forall (fun p => slash_free p = true) pa.1) ps ->
  tidy node = true -> assign_all ps (Ok node) = Ok t -> tidy t = true.
Proof.
  induction ps as [|[q a] ps IH]; intros node t Hsf Ht; [now intros [= <-]|].
  apply Forall_cons in Hsf as [Hq Hsf].
  change (assign_all ((q, a) :: ps) (Ok node)) with (assign_all ps (assign q a node)).
  destruct (assign q a node) as [node1|e] eqn:Hq1; [|now rewrite assign_all_Raise].
  apply IH; [assumption|]. eapply assign_tidy; eassumption.
Qed.

Lemma unflatten_tidy flat t : unflatten flat = Ok t -> tidy t = true.
Proof.
  rewrite unflatten_paths. apply assign_all_tidy; [|reflexivity].
  apply List.Forall_forall. intros pa [kv [<- _]]%in_map_iff. apply split_parts_slash_free.
Qed.

(** X1.  Whatever [unflatten] returns has distinct ['/']-free keys at every
    level and no empty mapping, and is a fixed point of the round trip:
    flattening it and unflattening again gives it back. *)
Theorem unflatten_fixed_point flat t :
  unflatten flat = Ok t -> tidy t = true /\ unflatten (flatten t) = Ok t.
Proof.
  intros Ht%unflatten_tidy. split; [assumption|].
  unfold tidy in Ht. apply andb_true_iff in Ht as [Hwk Hinh].
  rewrite unflatten_paths, flatten_spec, paths_of_flat by assumption.
  now apply assign_all_paths.
Qed.


(** *** The leaves of the tree [assign] returns *)

Lemma paths_app tree tree' : paths (tree ++ tree') = paths tree ++ paths tree'.
Proof. unfold paths. apply flat_map_app. Qed.

Lemma get_decompose {V} k (x : V) (d : dict V) :
  get k d = Some x ->
  exists pre post, d = pre ++ (k, x) :: post /\ ~ In k (keys pre).
Proof.
  induction d as [|[k' y] d IH]; simpl; [discriminate|].
  destruct (String.eqb_spec k k') as [->|Hne].
  - intros [= ->]. now exists [], d.
  - intros (pre & post & -> & Hpre)%IH. exists ((k', y) :: pre), post. split; [reflexivity|].
    simpl. intros [Heq|Hin]; [congruence | tauto].
Qed.

Lemma set_decomposed {V} k (x y : V) (pre post : dict V) :
  ~ In k (keys pre) -> set k y (pre ++ (k, x) :: post) = pre ++ (k, y) :: post.
Proof.
  induction pre as [|[k' z] pre IH]; simpl; intros Hpre.
  - now rewrite String.eqb_refl.
  - destruct (String.eqb_spec k k') as [->|Hne]; [tauto|]. rewrite IH; tauto.
Qed.

Lemma is_prefix_refl parts : is_prefix parts parts = true.
Proof. induction parts as [|p parts IH]; simpl; [reflexivity|]. now rewrite String.eqb_refl. Qed.

Lemma comparable_cons p parts q : comparable (p :: parts) (p :: q) = comparable parts q.
Proof. unfold comparable. simpl. now rewrite String.eqb_refl. Qed.

Lemma comparable_sym parts q : comparable parts q = comparable q parts.
Proof. unfold comparable. apply orb_comm. Qed.

Lemma assign_paths parts : forall (a : A) node,
  parts <> [] -> tidy node = true ->
  (forall qa, In qa (paths node) -> comparable parts qa.1 = false) ->
  exists node', assign parts a node = Ok node'
                /\ paths node' ≡ₚ paths node ++ [(parts, a)].
Proof.
  induction parts as [|p parts IH]; intros a node Hne Ht Hfree; [congruence|].
  destruct (get p node) as [[b|sub]|] eqn:Hg.
  - (* a leaf under [p]: its path is an initial part of [parts] *)
    exfalso. apply get_decompose in Hg as (pre & post & -> & _).
    assert (comparable (p :: parts) [p] = false) as Hc.
    { apply (Hfree ([p], b)). rewrite paths_app. apply in_or_app. right. now left. }
    unfold comparable in Hc. simpl in Hc. rewrite String.eqb_refl in Hc.
    rewrite orb_true_r in Hc. discriminate Hc.
  - destruct (tidy_get _ _ _ Ht Hg) as [Hts Hsub].
    pose proof Hg as (pre & post & -> & Hpre)%get_decompose.
    assert (paths (pre ++ (p, Dict sub) :: post)
            = paths pre ++ map (fun pa => (p :: pa.1, pa.2)) (paths sub) ++ paths post) as Hpaths
      by (rewrite paths_app; reflexivity).
    destruct parts as [|s more].
    + (* [parts] ends on a mapping that is not empty *)
      exfalso. destruct (tidy_inhabited _ Hts Hsub) as [_ Hinh].
      pose proof (paths_entry_nonempty (Dict sub) p Hinh) as Hpe.
      destruct (paths_entry p (Dict sub)) as [|qa l] eqn:Hqa; [congruence|].
      assert (In qa (paths_entry p (Dict sub))) as Hin by (rewrite Hqa; now left).
      destruct (paths_entry_head _ _ _ Hin) as [rest Hrest].
      assert (comparable [p] qa.1 = false) as Hc.
      { apply Hfree. rewrite paths_app. apply in_or_app. right.
        apply in_or_app. left. exact Hin. }
      rewrite Hrest in Hc. unfold comparable in Hc. simpl in Hc.
      rewrite String.eqb_refl in Hc. discriminate Hc.
    + destruct (IH a sub) as (sub' & Hsub' & Hperm); [discriminate | assumption | |].
      { intros qa Hqa. rewrite <- (comparable_cons p). apply (Hfree (p :: qa.1, qa.2)).
        rewrite Hpaths. apply in_or_app. right. apply in_or_app. left.
        apply in_map_iff. now exists qa. }
      exists (pre ++ (p, Dict sub') :: post). rewrite assign_cons2, Hg, Hsub'.
      cbn [mbind result_bind]. rewrite set_decomposed by assumption.
      split; [reflexivity|]. rewrite Hpaths.
      assert (paths (pre ++ (p, Dict sub') :: post)
              = paths pre ++ map (fun pa => (p :: pa.1, pa.2)) (paths sub') ++ paths post) as ->
        by (rewrite paths_app; reflexivity).
      rewrite (Permutation_map _ Hperm), map_app. cbn [map].
      rewrite <- !app_assoc. apply Permutation_app_head, Permutation_app_head.
      apply Permutation_app_comm.
  - apply get_None in Hg. destruct parts as [|s more].
    + exists (node ++ [(p, Arr a)]). cbn [assign]. rewrite set_fresh by assumption.
      split; [reflexivity|]. now rewrite paths_app.
    + destruct (IH a []) as (sub' & Hsub' & Hperm); [discriminate | reflexivity | intros ? [] |].
      exists (node ++ [(p, Dict sub')]). apply get_None in Hg.
      rewrite assign_cons2, Hg, Hsub'. cbn [mbind result_bind].
      rewrite set_fresh by now apply get_None. split; [reflexivity|].
      rewrite paths_app. apply Permutation_app_head.
      change (paths [(p, Dict sub')])
        with (map (fun pa : list string * A => (p :: pa.1, pa.2)) (paths sub') ++ []).
      rewrite app_nil_r. now rewrite (Permutation_map _ Hperm).
Qed.

Lemma assign_all_paths_free ps : forall node,
  tidy node = true ->
  Forall (fun pa => Forall (fun p => slash_free p = true) pa.1 /\ pa.1 <> []) ps ->
  prefix_free (map fst ps) = true ->
  (forall qa pa, In qa (paths node) -> In pa ps -> comparable pa.1 qa.1 = false) ->
  exists t, assign_all ps (Ok node) = Ok t /\ paths t ≡ₚ paths node ++ ps.
Proof.
  induction ps as [|[q a] ps IH]; intros node Ht Hsf Hpf Hfree.
  - exists node. split; [reflexivity|]. now rewrite app_nil_r.
  - apply Forall_cons in Hsf as [[Hq Hqne] Hsf]. cbn [map prefix_free fst] in Hpf.
    apply andb_true_iff in Hpf as [Hhd Hpf]. rewrite forallb_forall in Hhd.
    destruct (assign_paths q a node Hqne Ht) as (node1 & Hnode1 & Hperm).
    { intros qa Hqa. apply (Hfree qa (q, a) Hqa). now left. }
    destruct (IH node1) as (t & Ht' & Hperm'); [eapply assign_tidy; eassumption | assumption..| |].
    + intros qa pa Hqa Hpa. apply list_elem_of_In in Hqa. rewrite Hperm in Hqa.
      apply list_elem_of_In, in_app_or in Hqa as [Hqa|[<-|[]]].
      * apply (Hfree qa pa Hqa). now right.
      * rewrite comparable_sym. apply negb_true_iff, Hhd, in_map_iff. now exists pa.
    + exists t. change (assign_all ((q, a) :: ps) (Ok node)) with (assign_all ps (assign q a node)).
      rewrite Hnode1. split; [assumption|].
      rewrite Hperm', Hperm, <- app_assoc. reflexivity.
Qed.

(** X2.  A flat record none of whose keys, split on ['/'], is an initial
    part of another key or equal to it unflattens without error, and
    flattening the tree gives back the record: the same keys with the same
    values, up to their order. *)
Theorem flatten_unflatten flat :
  prefix_free (map (split "/") (keys flat)) = true ->
  exists t, unflatten flat = Ok t /\ flatten t ≡ₚ flat.
Proof.
  intros Hpf. rewrite unflatten_paths.
  destruct (assign_all_paths_free (map key_path flat) []) as (t & Ht & Hperm).
  - reflexivity.
  - apply List.Forall_forall. intros pa [kv [<- _]]%in_map_iff.
    split; [apply split_parts_slash_free | apply split_nonempty].
  - unfold keys in Hpf. rewrite map_map in *. exact Hpf.
  - intros qa pa [].
  - exists t. split; [assumption|].
    assert (tidy t = true) as Htidy
      by (apply (unflatten_tidy flat); now rewrite unflatten_paths).
    unfold tidy in Htidy. apply andb_true_iff in Htidy as [Hwk _].
    simpl in Hperm. rewrite <- (paths_of_flat t Hwk), <- (flatten_spec t Hwk) in Hperm.
    apply Permutation_map_inv in Hperm as (l & Hl & Hperm).
    enough (flatten t = l) as -> by now symmetry.
    clear -Hl. revert l Hl. induction (flatten t) as [|kv l' IH]; intros [|kv' l]; simpl;
      try discriminate; [reflexivity|].
    intros Heq.
    assert (key_path kv = key_path kv' /\ map key_path l' = map key_path l) as [Hkv Hrest]
      by (split; congruence).
    f_equal; [now apply key_path_inj | now apply IH].
Qed.


(** *** The keys [flatten] produces *)

Lemma forallb_map {X Y} (f : Y -> bool) (g : X -> Y) l :
  forallb f (map g l) = forallb (fun x => f (g x)) l.
Proof. induction l as [|x l IH]; simpl; [reflexivity | now rewrite IH]. Qed.

Lemma prefix_free_map_cons k (l : list (list string)) :
  prefix_free (map (cons k) l) = prefix_free l.
Proof.
  induction l as [|p l IH]; [reflexivity|]. cbn [map prefix_free].
  rewrite IH, forallb_map. f_equal. clear IH.
  induction l as [|q l IHl]; [reflexivity|]. simpl. now rewrite comparable_cons, IHl.
Qed.

Lemma prefix_free_app (l1 l2 : list (list string)) :
  prefix_free l1 = true -> prefix_free l2 = true ->
  (forall p q, In p l1 -> In q l2 -> comparable p q = false) ->
  prefix_free (l1 ++ l2) = true.
Proof.
  induction l1 as [|p l1 IH]; intros H1 H2 Hcross; [exact H2|].
  cbn [app prefix_free] in *. apply andb_true_iff in H1 as [Hp H1].
  rewrite IH; [|assumption|assumption|intros; apply Hcross; [now right | assumption]].
  rewrite andb_true_r, forallb_app, Hp. cbn [andb]. apply forallb_forall.
  intros q Hq. apply negb_true_iff, Hcross; [now left | assumption].
Qed.

Lemma comparable_heads p parts q rest : p <> q -> comparable (p :: parts) (q :: rest) = false.
Proof.
  intros Hne. unfold comparable. simpl.
  destruct (String.eqb_spec p q); [congruence|].
  destruct (String.eqb_spec q p); [congruence | reflexivity].
Qed.

Lemma prefix_free_paths_items (items : mapping A) :
  NoDup (keys items) ->
  Forall (fun kv => prefix_free (map fst (paths_entry kv.1 kv.2)) = true) items ->
  prefix_free (map fst (paths items)) = true.
Proof.
  induction items as [|[k v] items IH]; simpl; intros Hnd Hall; [reflexivity|].
  apply NoDup_cons in Hnd as [Hk Hnd]. apply Forall_cons in Hall as [Hv Hall].
  unfold paths. cbn [flat_map]. rewrite map_app. apply prefix_free_app.
  - exact Hv.
  - now apply IH.
  - intros p q (pa1 & <- & Hin1)%in_map_iff (pa2 & <- & Hin2)%in_map_iff.
    apply paths_entry_head in Hin1 as [r1 ->].
    apply paths_head in Hin2 as (k2 & r2 & Hk2 & ->).
    apply comparable_heads. intros ->. now apply Hk, list_elem_of_In.
Qed.

Lemma prefix_free_paths_entry v : forall k,
  well_keyed v = true -> prefix_free (map fst (paths_entry k v)) = true.
Proof.
  induction v as [a|items IH] using value_nested_ind; intros k Hwk; [reflexivity|].
  simpl in Hwk. apply andb_true_iff in Hwk as [Hd Hall]. cbn [paths_entry].
  rewrite map_map. cbn [fst]. rewrite <- (map_map fst (cons k)), prefix_free_map_cons.
  apply prefix_free_paths_items; [now apply distinct_NoDup|].
  rewrite forallb_forall in Hall. rewrite List.Forall_forall in IH |- *.
  intros kv Hin. apply IH; [assumption|].
  specialize (Hall kv Hin). now apply andb_true_iff in Hall as [_ ?].
Qed.

(** X3.  For a tree with distinct ['/']-free keys at every level, also
    one with empty mappings inside, no key of [flatten(tree)] split on
    ['/'] is an initial part of another of its keys or equal to it; so no
    two leaves share a flat key and [unflatten] accepts the result. *)
Theorem flatten_prefix_free tree :
  well_keyed (Dict tree) = true ->
  prefix_free (map (split "/") (keys (flatten tree))) = true
  /\ NoDup (keys (flatten tree))
  /\ exists t, unflatten (flatten tree) = Ok t.
Proof.
  intros Hwk.
  assert (map (split "/") (keys (flatten tree)) = map fst (paths tree)) as Hkeys.
  { rewrite <- (paths_of_flat tree Hwk), <- (flatten_spec tree Hwk).
    unfold keys. now rewrite !map_map. }
  assert (prefix_free (map fst (paths tree)) = true) as Hpf.
  { simpl in Hwk. apply andb_true_iff in Hwk as [Hd Hall].
    apply prefix_free_paths_items; [now apply distinct_NoDup|].
    rewrite forallb_forall in Hall. apply List.Forall_forall. intros kv Hin.
    apply prefix_free_paths_entry. specialize (Hall kv Hin).
    now apply andb_true_iff in Hall as [_ ?]. }
  split; [now rewrite Hkeys|]. split.
  - apply NoDup_keys_of_paths.
    rewrite (flatten_spec tree Hwk), (paths_of_flat tree Hwk). now apply NoDup_paths.
  - rewrite unflatten_paths.
    destruct (assign_all_paths_free (map key_path (flatten tree)) []) as (t & Ht & _).
    + reflexivity.
    + apply List.Forall_forall. intros pa [kv [<- _]]%in_map_iff.
      split; [apply split_parts_slash_free | apply split_nonempty].
    + rewrite map_map. unfold keys in Hkeys. rewrite map_map in Hkeys.
      etransitivity; [|exact Hpf]. f_equal. exact Hkeys.
    + intros qa pa [].
    + now exists t.
Qed.

End WithLeaf.

(** *** Examples *)

Lemma unflatten_fixed_point_witness :
  unflatten [("lines/vals", 1%Z); ("lines/ends/x", 2%Z); ("id", 3%Z)]
  = Ok [("lines", Dict [("vals", Arr 1%Z); ("ends", Dict [("x", Arr 2%Z)])]); ("id", Arr 3%Z)]
  /\ unflatten (flatten
       [("lines", Dict [("vals", Arr 1%Z); ("ends", Dict [("x", Arr 2%Z)])]); ("id", Arr 3%Z)])
     = Ok [("lines", Dict [("vals", Arr 1%Z); ("ends", Dict [("x", Arr 2%Z)])]); ("id", Arr 3%Z)].
Proof.
  split; [reflexivity|].
  apply (unflatten_fixed_point [("lines/vals", 1%Z); ("lines/ends/x", 2%Z); ("id", 3%Z)]).
  reflexivity.
Defined.

Lemma flatten_unflatten_witness :
  prefix_free (map (split "/") (keys [("a/x", 1%Z); ("b", 2%Z); ("a/y", 3%Z)])) = true
  /\ exists t, unflatten [("a/x", 1%Z); ("b", 2%Z); ("a/y", 3%Z)] = Ok t
               /\ flatten t ≡ₚ [("a/x", 1%Z); ("b", 2%Z); ("a/y", 3%Z)].
Proof.
  split; [reflexivity|].
  apply (flatten_unflatten [("a/x", 1%Z); ("b", 2%Z); ("a/y", 3%Z)]). reflexivity.
Defined.

Lemma flatten_prefix_free_witness :
  well_keyed (Dict [("walls", Arr 1%Z); ("doors", Dict []); ("rooms", Dict [("n", Arr 2%Z)])])
  = true
  /\ NoDup (keys (flatten [("walls", Arr 1%Z); ("doors", Dict []);
                           ("rooms", Dict [("n", Arr 2%Z)])])).
Proof.
  split; [reflexivity|].
  apply (flatten_prefix_free [("walls", Arr 1%Z); ("doors", Dict []);
                              ("rooms", Dict [("n", Arr 2%Z)])]).
  reflexivity.
Defined.

End KeyTreeMore.

Module CodecMore.

Import Literal Codec LiteralFacts CodecFacts.

(** *** What [reshape] hands back *)

Lemma product_nonneg zs : Forall (fun z => (0 <= z)%Z) zs -> (0 <= product zs)%Z.
Proof. induction 1 as [|z zs Hz _ IH]; simpl; [lia | now apply Z.mul_nonneg_nonneg]. Qed.

Lemma Forall_filter_nonneg zs :
  Forall (fun z => (0 <= z)%Z) (List.filter (fun z => (0 <=? z)%Z) zs).
Proof.
  apply List.Forall_forall. intros z [_ Hz]%filter_In. now apply Z.leb_le.
Qed.

Lemma no_negative zs :
  List.filter (fun z => (z <? 0)%Z) zs = [] -> Forall (fun z => (0 <= z)%Z) zs.
Proof.
  induction zs as [|z zs IH]; simpl; [constructor|].
  destruct (z <? 0)%Z eqn:Hz; [discriminate|]. intros Hnil.
  constructor; [now apply Z.ltb_ge | now apply IH].
Qed.

Lemma product_inferred q zs :
  product (map (fun z => if (z <? 0)%Z then q else z) zs)
  = (q ^ Z.of_nat (length (List.filter (fun z => (z <? 0)%Z) zs))
     * product (List.filter (fun z => (0 <=? z)%Z) zs))%Z.
Proof.
  induction zs as [|z zs IH]; [reflexivity|]. cbn [map product fold_right List.filter].
  fold (product (map (fun z => if (z <? 0)%Z then q else z) zs)). rewrite IH.
  destruct (z <? 0)%Z eqn:Hneg.
  - replace (0 <=? z)%Z with false by (symmetry; apply Z.leb_gt; now apply Z.ltb_lt).
    cbn [length]. rewrite Nat2Z.inj_succ, Z.pow_succ_r by lia. apply Z.mul_assoc.
  - replace (0 <=? z)%Z with true by (symmetry; apply Z.leb_le; now apply Z.ltb_ge).
    cbn [length]. unfold product. cbn [fold_right].
    generalize (fold_right Z.mul 1%Z (List.filter (fun z => (0 <=? z)%Z) zs)).
    generalize (q ^ Z.of_nat (length (List.filter (fun z => (z <? 0)%Z) zs)))%Z.
    intros x y. ring.
Qed.

Lemma fix_shape_Ok size zs zs' :
  (0 <= size)%Z -> fix_shape size zs = Ok zs' ->
  product zs' = size /\ Forall (fun z => (0 <= z)%Z) zs'.
Proof.
  intros Hsize. unfold fix_shape.
  pose proof (Forall_filter_nonneg zs) as Hnn. apply product_nonneg in Hnn.
  set (known := product (List.filter (fun z => (0 <=? z)%Z) zs)) in *.
  destruct (List.filter (fun z => (z <? 0)%Z) zs) as [|n [|n' l]] eqn:Hneg; cbn [length].
  - destruct (size =? known)%Z eqn:Heq; [|discriminate]. intros [= <-].
    apply Z.eqb_eq in Heq. pose proof (no_negative zs Hneg) as Hall.
    destruct (filter_nonneg zs Hall) as [Hfilter _]. subst known.
    rewrite Hfilter in Heq. now split.
  - destruct (known =? 0)%Z eqn:Hk0; [discriminate|].
    destruct (size mod known =? 0)%Z eqn:Hmod; [|discriminate]. cbn [orb negb].
    intros [= <-]. apply Z.eqb_neq in Hk0. apply Z.eqb_eq in Hmod. split.
    + rewrite product_inferred, Hneg. cbn [length]. fold known.
      rewrite Z.pow_1_r. apply Z.mod_divide in Hmod as [c Hc]; [|assumption].
      rewrite Hc, Z.div_mul by assumption. reflexivity.
    + apply List.Forall_forall. intros z (z0 & <- & _)%in_map_iff.
      destruct (z0 <? 0)%Z eqn:Hz0; [apply Z.div_pos; lia | now apply Z.ltb_ge].
  - discriminate.
Qed.

Lemma product_singleton z : product [z] = z.
Proof. unfold product. simpl. lia. Qed.

Lemma fix_shape_keeps size zs zs' :
  fix_shape size zs = Ok zs' ->
  length zs' = length zs
  /\ forall i z, zs !! i = Some z -> (0 <= z)%Z -> zs' !! i = Some z.
Proof.
  unfold fix_shape.
  destruct (length (List.filter (fun z => (z <? 0)%Z) zs)) as [|[|n]].
  - destruct (size =? _)%Z; [|discriminate]. intros [= <-]. auto.
  - destruct (_ || _); [discriminate|]. intros [= <-].
    split; [apply length_map|]. intros i z Hi Hz.
    rewrite list_lookup_fmap, Hi. cbn.
    now replace (z <? 0)%Z with false by (symmetry; apply Z.ltb_ge; lia).
  - discriminate.
Qed.

Section WithLibrary.
Context {lib : Library}.

(** X4.  For a blob whose header is a mapping that names an element type
    of the table under [descr] and gives an integer or a sequence of
    integers under [shape]: whenever [fastload] returns an array, its
    bytes are the blob from offset [10 + L] on, untouched; its element
    type is the one named; its dimensions are non-negative, as many as
    were given, each non-negative one as given; and their product times
    the element size is the number of payload bytes. *)
Theorem fastload_consistent raw items s sz sh zs a :
  parsed_header raw = Ok (PyDict items) ->
  lookup_str "descr" items = Some (PyStr s) -> itemsize s = Some sz ->
  lookup_str "shape" items = Some sh -> dims sh = Some zs ->
  fastload raw = Ok a ->
  exists L,
    headerlen raw = Ok L
    /\ data a = drop (10 + L) raw
    /\ descr a = s
    /\ Forall (fun z => (0 <= z)%Z) (shape a)
    /\ (product (shape a) * sz)%Z = Z.of_nat (length (data a))
    /\ length (shape a) = length zs
    /\ forall i z, zs !! i = Some z -> (0 <= z)%Z -> shape a !! i = Some z.
Proof.
  unfold parsed_header, fastload.
  destruct (headerlen raw) as [L|]; [|discriminate]. cbn [mbind result_bind].
  remember (drop (10 + L) raw) as buf eqn:Hbuf.
  destruct (decode _) as [text|]; [|discriminate]. cbn [mbind result_bind].
  intros -> Hd Hsz Hsh Hzs. cbn [mbind result_bind subscript]. rewrite Hd, Hsh.
  cbn [mbind result_bind]. rewrite (frombuffer_known buf s sz Hsz).
  destruct (_ =? 0)%Z eqn:Hmod; [|discriminate]. cbn [mbind result_bind].
  unfold reshape. rewrite Hzs. cbn [shape descr data]. rewrite product_singleton.
  destruct (fix_shape _ zs) as [zs'|] eqn:Hfix; [|discriminate].
  cbn [mbind result_bind]. intros [= <-]. cbn [data descr shape].
  pose proof Hsz as (_ & _ & Hpos)%itemsize_Some.
  apply Z.eqb_eq in Hmod.
  pose proof (fix_shape_keeps _ _ _ Hfix) as [Hlen Hkeep].
  apply fix_shape_Ok in Hfix as [Hprod Hnn]; [|apply Z.div_pos; lia].
  exists L. repeat split; try assumption.
  rewrite Hprod. apply Z.mod_divide in Hmod as [c Hc]; [|lia].
  rewrite Hc, Z.div_mul by lia. reflexivity.
Qed.

(** *** What [fastload] looks at *)

(** X5.  [fastload] reads the byte at offset 8 and the bytes from offset
    10 on, and nothing else: two blobs that agree there decode alike,
    whatever their first eight bytes and their byte at offset 9 are. *)
Theorem fastload_ignores_prefix raw raw' :
  take 1 (drop 8 raw) = take 1 (drop 8 raw') ->
  drop 10 raw = drop 10 raw' ->
  fastload raw = fastload raw'.
Proof.
  intros H8 H10.
  assert (headerlen raw = headerlen raw') as Hlen
    by (unfold headerlen, slice; change (9 - 8) with 1; now rewrite H8).
  assert (forall L, slice 10 (10 + L) raw = slice 10 (10 + L) raw') as Hslice
    by (intros L; unfold slice; now rewrite H10).
  assert (forall L, drop (10 + L) raw = drop (10 + L) raw') as Hdrop.
  { intros L. rewrite <- (drop_drop raw L 10), <- (drop_drop raw' L 10). now rewrite H10. }
  unfold fastload. rewrite Hlen. destruct (headerlen raw') as [L|]; [|reflexivity].
  cbn [mbind result_bind]. now rewrite Hslice, Hdrop.
Qed.

(** X6.  A blob of at most eight bytes makes [fastload] raise
    [IndexError]; header bytes that are not UTF-8 make it raise
    [UnicodeDecodeError]; and a header that [ast.literal_eval] evaluates
    to anything but a mapping (a tuple, a list, a string, a number, a set)
    makes it raise [TypeError]. *)
Theorem fastload_rejects raw :
  (length raw <= 8 -> fastload raw = Raise IndexError)
  /\ (forall L, headerlen raw = Ok L -> utf8 (slice 10 (10 + L) raw) = false ->
      fastload raw = Raise UnicodeDecodeError)
  /\ (forall obj, parsed_header raw = Ok obj -> (forall items, obj <> PyDict items) ->
      fastload raw = Raise TypeError).
Proof.
  split; [|split].
  - intros Hlen. unfold fastload, headerlen, slice.
    rewrite (drop_ge raw 8 Hlen). reflexivity.
  - intros L HL Hutf. unfold fastload, decode. rewrite HL. cbn [mbind result_bind].
    now rewrite Hutf.
  - intros obj Hobj Hnot. unfold fastload, parsed_header in *.
    destruct (headerlen raw) as [L|]; [|discriminate]. cbn [mbind result_bind] in *.
    destruct (decode _) as [text|]; [|discriminate]. cbn [mbind result_bind] in *.
    rewrite Hobj. cbn [mbind result_bind].
    destruct obj; try reflexivity. now destruct (Hnot items).
Qed.

End WithLibrary.

(** *** Examples *)

Lemma fastload_consistent_witness :
  fastload (lib := narrow)
    (blob "{'descr': '<i2', 'shape': (-1, 2)}" [x01; x02; x03; x04; x05; x06; x07; x08])
  = Ok (NDArray "<i2" [2; 2]%Z [x01; x02; x03; x04; x05; x06; x07; x08])
  /\ exists L,
       headerlen (blob "{'descr': '<i2', 'shape': (-1, 2)}"
                       [x01; x02; x03; x04; x05; x06; x07; x08]) = Ok L
       /\ (product [2; 2]%Z * 2)%Z = 8%Z.
Proof.
  split; [reflexivity|].
  destruct (fastload_consistent (lib := narrow)
              (blob "{'descr': '<i2', 'shape': (-1, 2)}" [x01; x02; x03; x04; x05; x06; x07; x08])
              [(PyStr "descr", PyStr "<i2"); (PyStr "shape", PyTuple [PyInt (-1); PyInt 2])]
              "<i2" 2%Z (PyTuple [PyInt (-1); PyInt 2]) [(-1)%Z; 2%Z]
              (NDArray "<i2" [2; 2]%Z [x01; x02; x03; x04; x05; x06; x07; x08])
              eq_refl eq_refl eq_refl eq_refl eq_refl eq_refl)
    as (L & HL & _ & _ & _ & Hprod & _).
  exists L. split; [exact HL | exact Hprod].
Defined.

Lemma fastload_ignores_prefix_witness :
  fastload (lib := narrow) (repeat x00 8 ++ drop 8 (encode matrix))
  = fastload (lib := narrow) (encode matrix).
Proof.
  apply fastload_ignores_prefix; reflexivity.
Defined.

Lemma fastload_rejects_witness :
  fastload (lib := narrow) [x93; x4e; x55; x4d; x50; x59; x01; x00] = Raise IndexError
  /\ fastload (lib := narrow) (magic ++ [x01; x00; xff]) = Raise UnicodeDecodeError
  /\ fastload (lib := narrow) (blob "('<f8', (1, 2))" [x01]) = Raise TypeError.
Proof.
  split; [|split].
  - apply (proj1 (fastload_rejects (lib := narrow) _)). simpl. lia.
  - apply (proj1 (proj2 (fastload_rejects (lib := narrow) _)) 1); reflexivity.
  - apply (proj2 (proj2 (fastload_rejects (lib := narrow) _))
             (PyTuple [PyStr "<f8"; PyTuple [PyInt 1; PyInt 2]])); [reflexivity | discriminate].
Defined.

End CodecMore.

Module CacheMore.

Import KeyTree Codec World Cubicasa Artifacts PyFacts WorldFacts SamplerFacts CacheFacts.

Section WithExternals.
Context {ext : Externals}.

(** *** The download branch: directory, fetch, write *)

Lemma write_after p bs w evs :
  p <> ".cache" ->
  write_bytes p bs (attempted w evs)
  = if bool_decide (p ∈ dirs w) then (Raise IsADirectoryError, attempted w evs)
    else (Ok tt, stored w p bs (evs ++ [WriteBytes p])).
Proof.
  intros Hp. unfold write_bytes, attempted, stored. cbn [files dirs trace _cache].
  destruct (decide (p ∈ dirs w)) as [Hin|Hout].
  - rewrite !bool_decide_eq_true_2; [reflexivity | assumption |].
    apply elem_of_union. now right.
  - rewrite !bool_decide_eq_false_2; [now rewrite app_assoc | assumption |].
    intros [Hc%elem_of_singleton|Hin]%elem_of_union; [congruence | contradiction].
Qed.

Lemma logged_attempted w evs evs' :
  logged (attempted w evs) evs' = attempted w (evs ++ evs').
Proof. unfold logged, attempted. cbn [files dirs trace _cache]. now rewrite app_assoc. Qed.

Lemma mkdir_cache w :
  files w !! ".cache" = None -> mkdir ".cache" w = (Ok tt, attempted w [Mkdir ".cache"]).
Proof. intros Hc. now rewrite mkdir_run. Qed.

Lemma fetch_run p url w :
  p ∉ dirs w -> p <> ".cache" ->
  (mkdir ".cache";; bs ← download url; write_bytes p bs) w
  = match files w !! ".cache", http_get url with
    | Some _, _ => (Raise FileExistsError, w)
    | None, Ok bs =>
        (Ok tt, stored w p bs [Mkdir ".cache"; Log ("Downloading " ++ url)%string;
                               Get url; WriteBytes p])
    | None, Raise e =>
        (Raise e, attempted w [Mkdir ".cache"; Log ("Downloading " ++ url)%string; Get url])
    end.
Proof.
  intros Hp Hne. destruct (files w !! ".cache") as [c|] eqn:Hc.
  - now rewrite (bind_Raise _ _ _ _ _ (mkdir_blocked _ _ _ Hc)).
  - rewrite (bind_Ok _ _ _ _ _ (mkdir_cache _ Hc)), bind_run, download_run.
    destruct (http_get url) as [bs|e]; [|f_equal; same_world].
    rewrite logged_attempted, write_after by exact Hne.
    now rewrite bool_decide_eq_false_2.
Qed.

(** X7.  With nothing at its path and [regenerate] false, [svg_data] and
    [geometry_data] make the cache directory and fetch the artifact from
    its address.  If [.cache] is a regular file, making the directory
    raises [FileExistsError] and nothing is requested.  Otherwise, if the
    fetch succeeds its bytes are written to the path and what they decode
    to is returned; if it raises, the error goes to the caller and no
    file has been written. *)
Theorem materialize_miss w :
  (files w !! svg_path = None -> svg_path ∉ dirs w ->
   svg_data false w
   = match files w !! ".cache", http_get svg_url with
     | Some _, _ => (Raise FileExistsError, w)
     | None, Ok bs =>
         (load_svgs bs,
          stored w svg_path bs [Mkdir ".cache"; Log ("Downloading " ++ svg_url)%string;
                                Get svg_url; WriteBytes svg_path])
     | None, Raise e =>
         (Raise e, attempted w [Mkdir ".cache"; Log ("Downloading " ++ svg_url)%string;
                                Get svg_url])
     end)
  /\ (files w !! geometry_path = None -> geometry_path ∉ dirs w ->
      geometry_data false w
      = match files w !! ".cache", http_get "" with
        | Some _, _ => (Raise FileExistsError, w)
        | None, Ok bs =>
            (load_geometry bs,
             stored w geometry_path bs [Mkdir ".cache"; Log "Downloading "; Get "";
                                        WriteBytes geometry_path])
        | None, Raise e =>
            (Raise e, attempted w [Mkdir ".cache"; Log "Downloading "; Get ""])
        end).
Proof.
  split; intros Hfile Hdir.
  - unfold svg_data. fold svg_path svg_url.
    rewrite bind_run, (path_exists_absent _ _ Hfile Hdir). cbn [negb orb].
    rewrite bind_run, fetch_run by (exact Hdir || discriminate).
    destruct (files w !! ".cache"); [reflexivity|].
    destruct (http_get svg_url) as [bs|e]; [|reflexivity].
    apply svg_tail. cbn [stored files]. apply lookup_insert_eq.
  - unfold geometry_data. fold geometry_path.
    rewrite bind_run, (path_exists_absent _ _ Hfile Hdir). cbn [negb orb].
    rewrite bind_run, fetch_run by (exact Hdir || discriminate).
    destruct (files w !! ".cache"); [reflexivity|].
    destruct (http_get "") as [bs|e]; [|reflexivity].
    apply geometry_tail. cbn [stored files]. apply lookup_insert_eq.
Qed.

(** *** A call that returns leaves its file behind *)

Lemma svg_data_leaves_file regenerate w rows w' :
  svg_data regenerate w = (Ok rows, w') ->
  exists bs, files w' !! svg_path = Some bs /\ load_svgs bs = Ok rows.
Proof.
  unfold svg_data. fold svg_path. rewrite bind_run.
  destruct (path_exists_run svg_path w) as [b ->]. rewrite bind_run.
  match goal with |- context [match ?m w with _ => _ end] => destruct (m w) as [[[]|e] w1] end;
    [|discriminate].
  destruct (files w1 !! svg_path) as [bs|] eqn:Hbs.
  - rewrite (svg_tail _ _ _ Hbs). intros [= Hrows <-]. eauto.
  - rewrite bind_run. unfold read_bytes. rewrite Hbs. discriminate.
Qed.

Lemma geometry_data_leaves_file regenerate w tree w' :
  geometry_data regenerate w = (Ok tree, w') ->
  exists bs, files w' !! geometry_path = Some bs /\ load_geometry bs = Ok tree.
Proof.
  unfold geometry_data. fold geometry_path. rewrite bind_run.
  destruct (path_exists_run geometry_path w) as [b ->]. rewrite bind_run.
  match goal with |- context [match ?m w with _ => _ end] => destruct (m w) as [[[]|e] w1] end;
    [|discriminate].
  destruct (files w1 !! geometry_path) as [bs|] eqn:Hbs.
  - rewrite (geometry_tail _ _ _ Hbs). intros [= Htree <-]. eauto.
  - rewrite bind_run. unfold read_bytes. rewrite Hbs. discriminate.
Qed.

(** X8.  Whatever way [svg_data] or [geometry_data] came to return a
    value (from the file, by download or by regeneration), the file is
    then in place: calling again without [regenerate] returns the same
    value and changes nothing. *)
Theorem materialize_settles regenerate w :
  (forall rows w', svg_data regenerate w = (Ok rows, w') ->
     svg_data false w' = (Ok rows, w'))
  /\ (forall tree w', geometry_data regenerate w = (Ok tree, w') ->
     geometry_data false w' = (Ok tree, w')).
Proof.
  split.
  - intros rows w' (bs & Hbs & Hrows)%svg_data_leaves_file.
    now rewrite (svg_data_hit _ _ Hbs), Hrows.
  - intros tree w' (bs & Hbs & Htree)%geometry_data_leaves_file.
    now rewrite (geometry_data_hit _ _ Hbs), Htree.
Qed.

Lemma cubicasa5k_hit w z :
  files w !! zip_path = Some z -> cubicasa5k w = (Ok zip_path, w).
Proof.
  intros Hz. unfold zip_path in Hz. unfold cubicasa5k.
  rewrite bind_run, (path_exists_file _ _ _ Hz). reflexivity.
Qed.

(** X9.  [cubicasa5k] returns the path of the archive.  With the archive
    on disk it does nothing else.  With nothing at that path it makes the
    cache directory, which raises [FileExistsError] if [.cache] is a
    regular file, and fetches the archive from its address: the bytes
    fetched are written to the path, and a failed fetch raises with no
    file written. *)
Theorem cubicasa5k_run w :
  (forall z, files w !! zip_path = Some z -> cubicasa5k w = (Ok zip_path, w))
  /\ (files w !! zip_path = None -> zip_path ∉ dirs w ->
      cubicasa5k w
      = match files w !! ".cache", http_get zip_url with
        | Some _, _ => (Raise FileExistsError, w)
        | None, Ok z =>
            (Ok zip_path,
             stored w zip_path z [Mkdir ".cache"; Log ("Downloading " ++ zip_url)%string;
                                  Get zip_url; WriteBytes zip_path])
        | None, Raise e =>
            (Raise e, attempted w [Mkdir ".cache"; Log ("Downloading " ++ zip_url)%string;
                                   Get zip_url])
        end).
Proof.
  split; [apply cubicasa5k_hit|]. intros Hfile Hdir.
  unfold cubicasa5k. fold zip_path zip_url.
  rewrite bind_run, (path_exists_absent _ _ Hfile Hdir). cbn [negb].
  rewrite bind_run, fetch_run by (exact Hdir || discriminate).
  destruct (files w !! ".cache"); [reflexivity|]. now destruct (http_get zip_url).
Qed.

(** X10.  [svg_data(regenerate=True)] with the archive on disk, and
    [.cache] not a regular file, rebuilds the SVG file from the archive,
    whether or not an SVG file was there: nothing is fetched, the
    compressed frame is written over the path and its decoding returned.
    If reading the archive fails, the error is raised and the SVG file is
    left as it was; if the SVG path is a directory, the write raises
    [IsADirectoryError]. *)
Theorem svg_data_regenerate w z :
  files w !! zip_path = Some z -> files w !! ".cache" = None ->
  let note :=
    Log "Regenerating SVG cache from cubicasa dataset. This will require a 5G download." in
  svg_data true w
  = match svgs_json z with
    | Ok json =>
        if bool_decide (svg_path ∈ dirs w)
        then (Raise IsADirectoryError, attempted w [Mkdir ".cache"; note])
        else (load_svgs (gzip_compress json),
              stored w svg_path (gzip_compress json)
                [Mkdir ".cache"; note; WriteBytes svg_path])
    | Raise e => (Raise e, attempted w [Mkdir ".cache"; note])
    end.
Proof.
  intros Hz Hc note. unfold svg_data. fold svg_path.
  destruct (path_exists_run svg_path w) as [b Hb].
  rewrite (bind_Ok _ _ _ _ _ Hb), orb_true_r.
  assert (forall w0, files w0 !! zip_path = Some z ->
            (zp ← cubicasa5k; zipped ← read_bytes zp; json ← lift (svgs_json zipped);
             write_bytes svg_path (gzip_compress json)) w0
            = match svgs_json z with
              | Ok json => write_bytes svg_path (gzip_compress json) w0
              | Raise e => (Raise e, w0)
              end) as Hblock.
  { intros w0 Hz0. rewrite (bind_Ok _ _ _ _ _ (cubicasa5k_hit _ _ Hz0)).
    rewrite (bind_Ok _ _ _ _ _ (read_bytes_file _ _ _ Hz0)).
    rewrite bind_run. unfold lift. now destruct (svgs_json z). }
  rewrite bind_run, (bind_Ok _ _ _ _ _ (mkdir_cache _ Hc)).
  rewrite (bind_Ok _ _ _ _ _ (log_run _ _)), logged_attempted. cbn [app].
  rewrite Hblock by exact Hz. destruct (svgs_json z) as [json|e]; [|reflexivity].
  rewrite write_after by discriminate.
  destruct (bool_decide (svg_path ∈ dirs w)); [reflexivity|].
  apply svg_tail. cbn [stored files]. apply lookup_insert_eq.
Qed.

Lemma derive_run rows w :
  NoDup (map id rows) ->
  derive rows w = (Ok (successes rows), logged w (failure_log rows)).
Proof.
  intros Hnd. unfold derive. rewrite bind_run, pool_wait_run by exact Hnd.
  cbn [app mret M_ret]. unfold not_none. rewrite omap_outcomes.
  rewrite of_list_NoDup; [reflexivity|].
  eapply sublist_NoDup; [exact Hnd | exact (keys_successes_sublist rows)].
Qed.

(** X11.  [geometry_data(regenerate=True)] with the SVG file on disk,
    and [.cache] not a regular file, fetches nothing: it reads the rows of
    the SVG file, derives the geometry of each, logs one line per row
    that failed, and writes the compressed archive of the flattened
    successes over its path, whether or not every row succeeded, in the
    order the pool gave them; what it returns or raises after that is
    what loading the bytes it wrote gives.  If the SVG file cannot be
    decoded the error is raised and no file is written; if the geometry
    path is a directory, the write raises [IsADirectoryError]. *)
Theorem geometry_data_regenerate w sb :
  files w !! svg_path = Some sb -> files w !! ".cache" = None ->
  let note := Log "Regenerating geometry cache from SVG cache." in
  match load_svgs sb with
  | Ok rows =>
      NoDup (map id rows) ->
      exists gs logs,
        gs ≡ₚ successes rows /\ logs ≡ₚ failure_log rows
        /\ let bs := gzip_compress
                       (savez (flatten (map (fun kv => (kv.1, Dict kv.2)) gs))) in
           geometry_data true w
           = if bool_decide (geometry_path ∈ dirs w)
             then (Raise IsADirectoryError, attempted w (Mkdir ".cache" :: note :: logs))
             else (load_geometry bs,
                   stored w geometry_path bs
                     (Mkdir ".cache" :: note :: logs ++ [WriteBytes geometry_path]))
  | Raise e => geometry_data true w = (Raise e, attempted w [Mkdir ".cache"; note])
  end.
Proof.
  intros Hsb Hc note.
  assert (forall A (k : M A),
            ((mkdir ".cache";; log_info "Regenerating geometry cache from SVG cache.";;
              rows ← svg_data false; gs ← derive rows;
              write_bytes geometry_path
                (gzip_compress
                   (savez (flatten (map (fun kv => (kv.1, Dict kv.2)) gs)))));; k) w
            = match load_svgs sb with
              | Ok rows =>
                  ((gs ← derive rows;
                    write_bytes geometry_path
                      (gzip_compress
                         (savez (flatten (map (fun kv => (kv.1, Dict kv.2)) gs)))));; k)
                    (attempted w [Mkdir ".cache"; note])
              | Raise e => (Raise e, attempted w [Mkdir ".cache"; note])
              end) as Hblock.
  { intros A k. rewrite bind_run, (bind_Ok _ _ _ _ _ (mkdir_cache _ Hc)).
    rewrite (bind_Ok _ _ _ _ _ (log_run _ _)), logged_attempted. cbn [app].
    rewrite bind_run, (svg_data_hit _ sb) by exact Hsb.
    destruct (load_svgs sb) as [rows|e]; [|reflexivity].
    rewrite bind_run. reflexivity. }
  unfold geometry_data. fold geometry_path.
  destruct (path_exists_run geometry_path w) as [b Hb].
  rewrite (bind_Ok _ _ _ _ _ Hb), orb_true_r. rewrite Hblock. clear Hblock.
  destruct (load_svgs sb) as [rows|e]; [|reflexivity].
  intros Hnd. exists (successes rows), (failure_log rows).
  split; [reflexivity|]. split; [reflexivity|]. cbv zeta.
  rewrite bind_run, (bind_Ok _ _ _ _ _ (derive_run _ _ Hnd)).
  rewrite logged_attempted, write_after by discriminate. cbn [app].
  destruct (bool_decide (geometry_path ∈ dirs w)); [reflexivity|].
  apply geometry_tail. cbn [stored files]. apply lookup_insert_eq.
Qed.

End WithExternals.

Section WithSampler.
Context {ext : Externals} {rng : RandomState}.

(** X12.  The functions of the module touch no file but the three
    artifacts under [.cache], only ever add to the directories and to the
    log, and, [sample] apart, leave the sample cache as it is; this holds
    on every path through them, the failing ones included. *)
Theorem module_footprint regenerate rows n split :
  respects evolves cubicasa5k
  /\ respects evolves (svg_data regenerate)
  /\ respects evolves (derive rows)
  /\ respects evolves (geometry_data regenerate)
  /\ respects frames (sample n split).
Proof.
  split; [apply evolves_cubicasa5k|]. split; [apply evolves_svg_data|].
  split; [apply evolves_derive|]. split; [apply evolves_geometry_data|].
  unfold sample.
  apply (respects_bind frames frames_trans); [intros w; apply frames_refl|].
  intros c. apply (respects_bind frames frames_trans);
    [|intros cache; apply (respects_lift frames frames_refl)].
  destruct c as [cache|]; [apply (respects_ret frames frames_refl)|].
  apply (respects_bind frames frames_trans);
    [intros w; apply (evolves_geometry_data false w)|].
  intros tree.
  apply (respects_bind frames frames_trans); [apply frames_set_cache|]. intros _.
  apply (respects_bind frames frames_trans); [apply (respects_lift frames frames_refl)|].
  intros cache.
  apply (respects_bind frames frames_trans); [apply frames_set_cache|]. intros _.
  apply (respects_ret frames frames_refl).
Qed.

Lemma with_ids_array tree : forall acc k a,
  In (k, Arr a) tree -> with_ids tree acc = Raise TypeError.
Proof.
  induction tree as [|[k' v] tree IH]; intros acc k a; [intros []|].
  intros [[= -> ->]|Hin]; [reflexivity|].
  destruct v; [reflexivity|]. cbn [with_ids]. now apply IH with k a.
Qed.

(** X13.  On the first call of a process, if loading the geometry
    artifact and giving every item its id both succeed, [sample] keeps
    the result in [_cache]; from then on every call, whatever its
    arguments, answers from that cache and leaves the process state
    alone: the artifact is not read again, even if the file changes. *)
Theorem sample_builds_once n split w tree w1 cache :
  _cache w = None ->
  geometry_data false w = (Ok tree, w1) ->
  with_ids tree [] = Ok cache ->
  let w' := World (files w1) (dirs w1) (trace w1) (Some cache) in
  sample n split w = (select cache n split, w')
  /\ (forall n' split' w2, _cache w2 = _cache w' ->
        sample n' split' w2 = (select cache n' split', w2)).
Proof.
  intros Hc Hg Hids w'. split.
  - now rewrite sample_cold, Hg, Hids.
  - intros n' split' w2 Hw2. now apply sample_cached.
Qed.

(** X14.  The two ways the first [sample] of a process can fail to build
    its cache differ in what they leave behind.  If loading the artifact
    raises, [_cache] stays unset and the next call tries again.  If the
    artifact loads and has an array at its top level (an entry whose name
    has no "/"), giving the items their ids raises [TypeError] after
    [_cache] was set to the loaded tree: later calls do not raise it again
    but sample from that tree, whose items have no id. *)
Theorem sample_failed_build n split w :
  _cache w = None ->
  (forall e w1, geometry_data false w = (Raise e, w1) ->
     sample n split w = (Raise e, w1) /\ _cache w1 = None)
  /\ (forall tree w1 k a,
        geometry_data false w = (Ok tree, w1) -> In (k, Arr a) tree ->
        let w' := World (files w1) (dirs w1) (trace w1) (Some tree) in
        sample n split w = (Raise TypeError, w')
        /\ forall n' split', sample n' split' w' = (select tree n' split', w')).
Proof.
  intros Hc. split.
  - intros e w1 Hg. split; [now rewrite sample_cold, Hg|].
    pose proof (evolves_geometry_data false w) as [_ Hcache].
    rewrite Hg in Hcache. cbn in Hcache. congruence.
  - intros tree w1 k a Hg Hin w'. split.
    + now rewrite sample_cold, Hg, (with_ids_array tree [] k a Hin).
    + intros n' split'. now apply sample_cached.
Qed.

Lemma get_fold_set {V} (v : dict V) : forall (d : dict V) f,
  NoDup (keys v) ->
  get f (fold_left (fun d kv => set kv.1 kv.2 d) v d)
  = match get f v with Some x => Some x | None => get f d end.
Proof.
  induction v as [|[k x] v IH]; intros d f Hnd; [reflexivity|].
  cbn [keys map fst] in Hnd. apply NoDup_cons in Hnd as [Hk Hnd].
  cbn [fold_left fst snd get]. rewrite IH by exact Hnd.
  destruct (String.eqb_spec f k) as [->|Hne].
  - rewrite get_set_eq.
    destruct (get k v) as [y|] eqn:Hget; [|reflexivity].
    exfalso. apply Hk, list_elem_of_In. unfold keys. apply in_map_iff.
    exists (k, y). split; [reflexivity | exact (get_Some_In _ _ _ Hget)].
  - rewrite get_set_ne by congruence. reflexivity.
Qed.

Lemma head_fold_set {V} (l : dict V) : forall d k0 x0,
  head (keys (fold_left (fun d kv => set kv.1 kv.2 d) l ((k0, x0) :: d))) = Some k0.
Proof.
  induction l as [|[k1 x1] l IH]; intros d k0 x0; [reflexivity|].
  cbn [fold_left fst snd set]. destruct (String.eqb k1 k0); apply IH.
Qed.

Lemma with_ids_run (items : dict (mapping leaf)) : forall acc,
  NoDup (keys acc ++ keys items) ->
  with_ids (map (fun kv => (kv.1, Dict kv.2)) items) acc
  = Ok (acc ++ map (fun kv => (kv.1, Dict (of_list (("id", Arr (Str kv.1)) :: kv.2)))) items).
Proof.
  induction items as [|[k v] items IH]; intros acc Hnd.
  - cbn. now rewrite app_nil_r.
  - cbn [map fst snd with_ids]. rewrite set_fresh.
    + rewrite IH.
      * now rewrite <- app_assoc.
      * unfold keys in *. rewrite map_app, <- app_assoc. exact Hnd.
    + apply NoDup_app in Hnd as (_ & Hdis & _). intros Hin.
      apply (Hdis k); [now apply list_elem_of_In | left].
Qed.

(** X15.  The step that gives the items their ids keeps the keys of the
    tree and their order, and makes of each item a mapping that starts
    with the field [id]: every field of the item keeps its value, and
    [id] is the key of the item unless the item has a field [id] of its
    own, which then stands. *)
Theorem with_ids_fields (items : dict (mapping leaf)) :
  NoDup (keys items) ->
  exists cache,
    with_ids (map (fun kv => (kv.1, Dict kv.2)) items) [] = Ok cache
    /\ keys cache = keys items
    /\ forall k v, In (k, v) items -> NoDup (keys v) ->
         exists fields,
           get k cache = Some (Dict fields)
           /\ head (keys fields) = Some "id"
           /\ forall f, get f fields
                        = match get f v with
                          | Some x => Some x
                          | None => if String.eqb f "id" then Some (Arr (Str k)) else None
                          end.
Proof.
  intros Hnd. eexists. split; [apply with_ids_run; exact Hnd|]. cbn [app].
  split; [unfold keys; rewrite map_map; reflexivity|].
  intros k v Hin Hv. exists (of_list (("id", Arr (Str k)) :: v)). split; [|split].
  - apply get_NoDup_In.
    + unfold keys. rewrite map_map. exact Hnd.
    + apply in_map_iff. now exists (k, v).
  - unfold of_list. cbn [fold_left fst snd set].
    apply head_fold_set.
  - intros f. unfold of_list. cbn [fold_left fst snd set].
    rewrite get_fold_set by exact Hv. cbn [get]. now destruct (get f v).
Qed.

End WithSampler.

(** *** Examples *)

Lemma materialize_miss_witness :
  files warm_world !! svg_path = None /\ (svg_path ∉ dirs warm_world)
  /\ svg_data (ext := mirror ["3"%byte]) false warm_world
     = (Ok [Row "3" ""],
        stored warm_world svg_path ["3"%byte]
          [Mkdir ".cache"; Log ("Downloading " ++ svg_url)%string; Get svg_url;
           WriteBytes svg_path]).
Proof.
  assert (files warm_world !! svg_path = None) as Hfile by reflexivity.
  assert (svg_path ∉ dirs warm_world) as Hdir by set_solver.
  split; [exact Hfile|]. split; [exact Hdir|].
  exact (proj1 (materialize_miss (ext := mirror ["3"%byte]) warm_world) Hfile Hdir).
Defined.

Lemma materialize_settles_witness :
  svg_data (ext := offline) true zip_world
  = (Ok [Row "3" ""],
     stored zip_world svg_path ["3"%byte]
       [Mkdir ".cache";
        Log "Regenerating SVG cache from cubicasa dataset. This will require a 5G download.";
        WriteBytes svg_path])
  /\ svg_data (ext := offline) false
       (stored zip_world svg_path ["3"%byte]
          [Mkdir ".cache";
           Log "Regenerating SVG cache from cubicasa dataset. This will require a 5G download.";
           WriteBytes svg_path])
     = (Ok [Row "3" ""],
        stored zip_world svg_path ["3"%byte]
          [Mkdir ".cache";
           Log "Regenerating SVG cache from cubicasa dataset. This will require a 5G download.";
           WriteBytes svg_path]).
Proof.
  assert (svg_data (ext := offline) true zip_world
          = (Ok [Row "3" ""],
             stored zip_world svg_path ["3"%byte]
               [Mkdir ".cache";
                Log "Regenerating SVG cache from cubicasa dataset. This will require a 5G download.";
                WriteBytes svg_path])) as Hrun by (vm_compute; reflexivity).
  split; [exact Hrun|].
  exact (proj1 (materialize_settles (ext := offline) true zip_world) _ _ Hrun).
Defined.

Lemma cubicasa5k_run_witness :
  files warm_world !! zip_path = None /\ (zip_path ∉ dirs warm_world)
  /\ cubicasa5k (ext := offline) warm_world
     = (Raise HTTPError,
        attempted warm_world [Mkdir ".cache"; Log ("Downloading " ++ zip_url)%string;
                              Get zip_url]).
Proof.
  assert (files warm_world !! zip_path = None) as Hfile by reflexivity.
  assert (zip_path ∉ dirs warm_world) as Hdir by set_solver.
  split; [exact Hfile|]. split; [exact Hdir|].
  exact (proj2 (cubicasa5k_run (ext := offline) warm_world) Hfile Hdir).
Defined.

Lemma svg_data_regenerate_witness :
  files zip_world !! zip_path = Some ["3"%byte]
  /\ files zip_world !! ".cache" = None
  /\ svg_data (ext := offline) true zip_world
     = (Ok [Row "3" ""],
        stored zip_world svg_path ["3"%byte]
          [Mkdir ".cache";
           Log "Regenerating SVG cache from cubicasa dataset. This will require a 5G download.";
           WriteBytes svg_path]).
Proof.
  split; [reflexivity|]. split; [reflexivity|].
  rewrite (svg_data_regenerate (ext := offline) zip_world ["3"%byte] eq_refl eq_refl).
  reflexivity.
Defined.

Lemma geometry_data_regenerate_witness :
  files fresh_world !! svg_path = Some ["3"%byte; "4"%byte]
  /\ files fresh_world !! ".cache" = None
  /\ NoDup (map id [Row "3" ""; Row "4" ""])
  /\ exists gs logs,
       gs ≡ₚ [] /\ logs ≡ₚ [Log "Geometry generation failed on on #3";
                            Log "Geometry generation failed on on #4"]
       /\ geometry_data (ext := offline) true fresh_world
          = (Raise TypeError,
             stored fresh_world geometry_path
               (@gzip_compress offline
                  (savez (ext := offline)
                     (flatten (map (fun kv => (kv.1, Dict kv.2)) gs))))
               (Mkdir ".cache" :: Log "Regenerating geometry cache from SVG cache."
                :: logs ++ [WriteBytes geometry_path])).
Proof.
  assert (NoDup (map id [Row "3" ""; Row "4" ""])) as Hnd
    by (apply distinct_NoDup; reflexivity).
  split; [reflexivity|]. split; [reflexivity|]. split; [exact Hnd|].
  destruct (geometry_data_regenerate (ext := offline) fresh_world ["3"%byte; "4"%byte]
              eq_refl eq_refl Hnd) as (gs & logs & Hgs & Hlogs & Hrun).
  exists gs, logs. split; [exact Hgs|]. split; [exact Hlogs|].
  apply Permutation_nil_r in Hgs. subst gs. exact Hrun.
Defined.

Lemma sample_builds_once_witness :
  _cache fresh_world = None
  /\ geometry_data (ext := callable offline) false fresh_world
     = (Ok [("7", Dict [("walls", Arr (Array walls))])], fresh_world)
  /\ with_ids [("7", Dict [("walls", Arr (Array walls))])] []
     = Ok [("7", Dict [("id", Arr (Str "7")); ("walls", Arr (Array walls))])]
  /\ (sample (ext := callable offline) (rng := reversing) 2 "all" fresh_world).1
     = Ok [Dict [("id", Arr (Str "7")); ("walls", Arr (Array walls))];
           Dict [("id", Arr (Str "7")); ("walls", Arr (Array walls))]].
Proof.
  assert (geometry_data (ext := callable offline) false fresh_world
          = (Ok [("7", Dict [("walls", Arr (Array walls))])], fresh_world)) as Hg.
  { rewrite (geometry_data_hit (ext := callable offline) fresh_world _ eq_refl).
    reflexivity. }
  split; [reflexivity|]. split; [exact Hg|]. split; [reflexivity|].
  rewrite (proj1 (sample_builds_once (ext := callable offline) (rng := reversing) 2 "all"
                    fresh_world _ fresh_world _ eq_refl Hg eq_refl)).
  reflexivity.
Defined.

Lemma sample_failed_build_witness :
  _cache bare_world = None
  /\ geometry_data (ext := callable single_entry) false bare_world
     = (Ok [("walls", Arr (Array walls))], bare_world)
  /\ sample (ext := callable single_entry) (rng := reversing) 1 "all" bare_world
     = (Raise TypeError,
        World (files bare_world) (dirs bare_world) (trace bare_world)
          (Some [("walls", Arr (Array walls))])).
Proof.
  assert (geometry_data (ext := callable single_entry) false bare_world
          = (Ok [("walls", Arr (Array walls))], bare_world)) as Hg.
  { rewrite (geometry_data_hit (ext := callable single_entry) bare_world _ eq_refl).
    reflexivity. }
  split; [reflexivity|]. split; [exact Hg|].
  apply (proj2 (sample_failed_build (ext := callable single_entry) (rng := reversing)
                  1 "all" bare_world eq_refl) _ _ "walls" (Array walls) Hg).
  left. reflexivity.
Defined.

Lemma with_ids_fields_witness :
  NoDup (keys [("7", [("walls", Arr (Array walls))])])
  /\ exists cache,
       with_ids [("7", Dict [("walls", Arr (Array walls))])] [] = Ok cache
       /\ keys cache = ["7"].
Proof.
  assert (NoDup (keys [("7", [("walls", Arr (Array walls))])])) as Hnd
    by (apply distinct_NoDup; reflexivity).
  split; [exact Hnd|].
  destruct (with_ids_fields [("7", [("walls", Arr (Array walls))])] Hnd)
    as (cache & Hrun & Hkeys & _).
  exists cache. split; [exact Hrun | exact Hkeys].
Defined.

End CacheMore.

Module SamplerMore.

Import KeyTree World Cubicasa Artifacts PyFacts WorldFacts SamplerFacts.

Section WithRandomState.
Context {ext : Externals} {rng : RandomState}.
Implicit Types (cache : mapping leaf) (order : list string).

Lemma length_order cache : length (order_of cache) = length cache.
Proof. now rewrite order_Permutation, length_keys. Qed.

Lemma select_total cache split order n :
  split_order cache split = Ok order -> order <> [] ->
  exists items, select cache n split = Ok items /\ length items = n.
Proof.
  intros Hs Hne.
  destruct (designs_lookup cache order (seq 0 n) Hne) as (items & Hitems & Hlen & _).
  { intros k. now apply split_order_In with (split := split). }
  exists items. unfold select. rewrite Hs. cbn [mbind result_bind].
  split; [assumption|]. now rewrite length_seq in Hlen.
Qed.

Lemma nonempty_length {X} (l : list X) : 0 < length l -> l <> [].
Proof. destruct l; [cbn; lia | discriminate]. Qed.

(** X16.  In a process whose sample cache holds [N] items, [N] below
    65536, the training split holds [floor(9 N / 10)] ids and the test
    split the other [N - floor(9 N / 10)], training followed by test
    being the one permutation.  So the test split of a cache that is not
    empty is never empty, and [sample] from it returns as many items as
    asked for; the training split is empty exactly when the cache has
    fewer than two items, and [sample] from it succeeds from two items
    on.  Asking for no items succeeds on every split, the empty ones
    included.  No such call changes the process. *)
Theorem split_sizes cache w :
  _cache w = Some cache ->
  let N := length cache in
  (Z.of_nat N < 65536)%Z ->
  exists training test,
    split_order cache "training" = Ok training
    /\ split_order cache "test" = Ok test
    /\ training ++ test = order_of cache
    /\ length training = 9 * N / 10
    /\ length test = N - 9 * N / 10
    /\ (1 <= N -> test <> []
                  /\ forall n, exists items,
                       sample n "test" w = (Ok items, w) /\ length items = n)
    /\ (2 <= N -> training <> []
                  /\ forall n, exists items,
                       sample n "training" w = (Ok items, w) /\ length items = n)
    /\ (N <= 1 -> training = [])
    /\ sample 0 "training" w = (Ok [], w) /\ sample 0 "test" w = (Ok [], w).
Proof.
  intros Hw N HN. pose proof (cutoff_floor N HN) as Hcut.
  pose proof (length_order cache) as Hlen. fold N in Hlen.
  exists (take (cutoff N) (order_of cache)), (drop (cutoff N) (order_of cache)).
  assert (split_order cache "training" = Ok (take (cutoff N) (order_of cache))) as Htr
    by reflexivity.
  assert (split_order cache "test" = Ok (drop (cutoff N) (order_of cache))) as Hte
    by reflexivity.
  assert (length (take (cutoff N) (order_of cache)) = 9 * N / 10) as Hltr.
  { rewrite length_take, Hlen, Hcut. apply Nat.min_l. apply Nat.Div0.div_le_upper_bound. lia. }
  assert (length (drop (cutoff N) (order_of cache)) = N - 9 * N / 10) as Hlte
    by (now rewrite length_drop, Hlen, Hcut).
  assert (1 <= N -> 9 * N / 10 < N) as Hlt
    by (intros H1; apply Nat.Div0.div_lt_upper_bound; lia).
  assert (2 <= N -> 0 < 9 * N / 10) as Hpos
    by (intros H2; apply Nat.div_str_pos; lia).
  assert (forall n split order, split_order cache split = Ok order -> order <> [] ->
            exists items, sample n split w = (Ok items, w) /\ length items = n) as Htotal.
  { intros n split order Hs Hne.
    destruct (select_total cache split order n Hs Hne) as (items & Hsel & Hl).
    exists items. split; [|exact Hl]. now rewrite (sample_cached n split w cache Hw), Hsel. }
  split; [exact Htr|]. split; [exact Hte|]. split; [apply take_drop|].
  split; [exact Hltr|]. split; [exact Hlte|]. split; [|split; [|split]].
  - intros H1. assert (drop (cutoff N) (order_of cache) <> []) as Hne
      by (apply nonempty_length; specialize (Hlt H1); lia).
    split; [exact Hne|]. intros n. now apply Htotal with (order := drop (cutoff N) (order_of cache)).
  - intros H2. assert (take (cutoff N) (order_of cache) <> []) as Hne
      by (apply nonempty_length; specialize (Hpos H2); lia).
    split; [exact Hne|]. intros n. now apply Htotal with (order := take (cutoff N) (order_of cache)).
  - intros H1. apply length_zero_iff_nil. rewrite Hltr.
    apply Nat.div_small. lia.
  - rewrite !(sample_cached 0 _ w cache Hw). unfold select. rewrite Htr, Hte.
    split; reflexivity.
Qed.

Lemma designs_app cache order r1 : forall r2,
  designs cache order (r1 ++ r2)
  = (xs ← designs cache order r1; ys ← designs cache order r2; Ok (xs ++ ys)).
Proof.
  induction r1 as [|i r1 IH]; intros r2.
  - cbn [app designs mbind result_bind]. now destruct (designs cache order r2).
  - cbn [app designs]. destruct (cyclic order i) as [k|]; [|reflexivity].
    cbn [mbind result_bind]. destruct (getitem k cache) as [x|]; [|reflexivity].
    cbn [mbind result_bind]. rewrite IH.
    destruct (designs cache order r1) as [xs|]; [|reflexivity].
    cbn [mbind result_bind]. now destruct (designs cache order r2).
Qed.

(** X17.  In a process whose sample cache is built, on a split that is
    not empty, asking for more designs only adds to the end of the list:
    the first [n] of [sample(n + m)] are [sample(n)].  And the list
    repeats with the period of the split: the item at position
    [i + len(split)] is the item at position [i].  Neither call changes
    the process. *)
Theorem select_extends cache split order n m w :
  _cache w = Some cache ->
  split_order cache split = Ok order -> order <> [] ->
  exists items more,
    sample n split w = (Ok items, w)
    /\ length items = n
    /\ sample (n + m) split w = (Ok (items ++ more), w)
    /\ forall i, i + length order < n + m ->
         (items ++ more) !! (i + length order) = (items ++ more) !! i.
Proof.
  intros Hw Hs Hne.
  assert (forall k, In k order -> In k (keys cache)) as Hsub
    by (intros k; now apply split_order_In with (split := split)).
  destruct (designs_lookup cache order (seq 0 n) Hne Hsub) as (items & Hitems & Hlen & _).
  destruct (designs_lookup cache order (seq n m) Hne Hsub) as (more & Hmore & _ & _).
  destruct (designs_lookup cache order (seq 0 (n + m)) Hne Hsub) as (all & Hall & Hlall & Hidx).
  assert (all = items ++ more) as ->.
  { rewrite seq_app, designs_app, Hitems in Hall. cbn [mbind result_bind] in Hall.
    cbn [Nat.add] in Hall. rewrite Hmore in Hall. cbn [mbind result_bind] in Hall.
    congruence. }
  exists items, more. rewrite length_seq in Hlen.
  rewrite !(sample_cached _ split w cache Hw). unfold select. rewrite Hs.
  cbn [mbind result_bind]. split; [now rewrite Hitems|]. split; [assumption|].
  split; [now rewrite Hall|]. intros i Hi.
  destruct (Hidx i i) as (k & x & Hk & Hx & Hi0); [apply lookup_seq_lt; lia|].
  destruct (Hidx (i + length order) (i + length order)) as (k' & x' & Hk' & Hx' & Hi1);
    [apply (lookup_seq_lt 0 (n + m) (i + length order)); lia|].
  assert (length order <> 0) as Hl by (destruct order; [congruence | discriminate]).
  replace ((i + length order) mod length order) with (i mod length order) in Hk'.
  - congruence.
  - rewrite <- (Nat.Div0.add_mod_idemp_r i (length order)), Nat.Div0.mod_same, Nat.add_0_r.
    reflexivity.
Qed.

End WithRandomState.

Lemma split_sizes_witness :
  _cache warm_world = Some three_items
  /\ (Z.of_nat (length three_items) < 65536)%Z
  /\ exists items,
       sample (ext := offline) (rng := reversing) 5 "test" warm_world = (Ok items, warm_world)
       /\ length items = 5.
Proof.
  assert (Z.of_nat (length three_items) < 65536)%Z as HN by (cbn; lia).
  split; [reflexivity|]. split; [exact HN|].
  destruct (split_sizes (ext := offline) (rng := reversing) three_items warm_world eq_refl HN)
    as (training & test & _ & _ & _ & _ & _ & Htest & _).
  apply Htest. cbn. lia.
Defined.

Lemma select_extends_witness :
  _cache warm_world = Some three_items
  /\ split_order (rng := reversing) three_items "all" = Ok ["7"; "30"; "12"]
  /\ ["7"; "30"; "12"] <> []
  /\ exists items more,
       sample (ext := offline) (rng := reversing) 2 "all" warm_world = (Ok items, warm_world)
       /\ length items = 2
       /\ sample (ext := offline) (rng := reversing) (2 + 3) "all" warm_world
          = (Ok (items ++ more), warm_world)
       /\ forall i, i + 3 < 2 + 3 -> (items ++ more) !! (i + 3) = (items ++ more) !! i.
Proof.
  assert (split_order (rng := reversing) three_items "all" = Ok ["7"; "30"; "12"]) as Hs
    by reflexivity.
  assert (["7"; "30"; "12"] <> []) as Hne by discriminate.
  split; [reflexivity|]. split; [exact Hs|]. split; [exact Hne|].
  exact (select_extends (ext := offline) (rng := reversing) three_items "all"
           ["7"; "30"; "12"] 2 3 warm_world eq_refl Hs Hne).
Defined.

End SamplerMore.

Module RoundTrip.

Import KeyTree KeyPaths Literal Codec World Cubicasa Artifacts.
Import PyFacts KeyTreeFacts LiteralFacts CodecFacts.

(** *** Mapping over the leaves *)

Lemma forallb_over_map {X Y} (p : Y -> bool) (g : X -> Y) l :
  forallb p (map g l) = forallb (fun x => p (g x)) l.
Proof. induction l as [|x l IH]; simpl; [reflexivity | now rewrite IH]. Qed.

Lemma forallb_Forall_ext {X} (p q : X -> bool) l :
  Forall (fun x => p x = q x) l -> forallb p l = forallb q l.
Proof. induction 1 as [|x l Hx _ IH]; simpl; [reflexivity | now rewrite Hx, IH]. Qed.

Section Leaves.
Context {A B : Type} (f : A -> B).

Lemma well_keyed_vmap (v : value A) : well_keyed (vmap f v) = well_keyed v.
Proof.
  induction v as [a|items IH] using value_nested_ind; [reflexivity|].
  cbn [vmap well_keyed]. f_equal.
  - unfold keys. now rewrite map_map.
  - rewrite forallb_over_map. apply forallb_Forall_ext.
    eapply Forall_impl; [exact IH|]. intros [k v] Hv. cbn [fst snd] in *. now rewrite Hv.
Qed.

Lemma inhabited_vmap (v : value A) : inhabited (vmap f v) = inhabited v.
Proof.
  induction v as [a|items IH] using value_nested_ind; [reflexivity|].
  assert (forallb (fun kv => inhabited kv.2) (map (fun kv => (kv.1, vmap f kv.2)) items)
          = forallb (fun kv => inhabited kv.2) items) as Hall.
  { rewrite forallb_over_map. apply forallb_Forall_ext.
    eapply Forall_impl; [exact IH|]. intros [k v] Hv. exact Hv. }
  cbn [vmap inhabited]. destruct items as [|kv items]; [reflexivity|]. exact Hall.
Qed.

Lemma flat_entry_vmap (v : value A) : forall k,
  flat_entry k (vmap f v) = map (fun kv => (kv.1, f kv.2)) (flat_entry k v).
Proof.
  induction v as [a|items IH] using value_nested_ind; intros k; [reflexivity|].
  cbn [vmap flat_entry]. rewrite map_map. cbn [fst snd].
  rewrite <- (map_map (fun kv => (kv.1, f kv.2)) (fun kv => (join k kv.1, kv.2))).
  f_equal. induction IH as [|[k' v] items Hv _ IHitems]; [reflexivity|].
  cbn [map flat_map fst snd]. cbn [snd] in Hv. now rewrite map_app, Hv, IHitems.
Qed.

Lemma flat_vmap (tree : mapping A) :
  flat_map (fun kv => flat_entry kv.1 kv.2) (map (fun kv => (kv.1, vmap f kv.2)) tree)
  = map (fun kv => (kv.1, f kv.2)) (flat_map (fun kv => flat_entry kv.1 kv.2) tree).
Proof.
  induction tree as [|[k v] tree IH]; [reflexivity|].
  cbn [map flat_map fst snd]. now rewrite map_app, flat_entry_vmap, IH.
Qed.

End Leaves.

(** *** Entry names *)

Lemma substring_prefix (k s : string) : substring 0 (String.length k) (k ++ s) = k.
Proof.
  induction k as [|c k IH].
  - cbn [String.length]. now destruct (EmptyString ++ s)%string.
  - rewrite append_cons. cbn [String.length substring]. now rewrite IH.
Qed.

Lemma drop_last_npy k : drop_last 4 (k ++ ".npy") = k.
Proof.
  unfold drop_last. rewrite length_append. cbn [String.length].
  replace (String.length k + 4 - 4) with (String.length k) by lia.
  apply substring_prefix.
Qed.

(** *** Reading back what was written *)

Lemma fastload_written {lib : Library} a : supported a -> fastload (encode a) = Ok a.
Proof.
  intros ((sz & Hsz & Hlen) & Hshape & HL).
  unfold fastload. rewrite headerlen_encode by assumption. cbn [mbind result_bind].
  rewrite header_slice_encode. unfold decode.
  rewrite utf8_ascii by (eapply ascii_only_header; eassumption).
  cbn [mbind result_bind]. rewrite string_of_list_byte_of_string.
  rewrite (literal_eval_header _ a sz) by assumption.
  cbn [mbind result_bind]. rewrite payload_encode.
  cbn [header_obj subscript lookup_str String.eqb Ascii.eqb Bool.eqb].
  cbn [mbind result_bind]. rewrite (frombuffer_known _ _ sz Hsz).
  apply itemsize_Some in Hsz as (_ & _ & Hpos).
  rewrite Hlen, Z.mod_mul, Z.div_mul by lia. cbn [Z.eqb mbind result_bind].
  unfold reshape, dims. rewrite ints_PyInt.
  cbn [shape product fold_right]. rewrite Z.mul_1_r.
  change (fold_right Z.mul 1%Z (Codec.shape a)) with (product (Codec.shape a)).
  rewrite fix_shape_exact by assumption. cbn [mbind result_bind descr data].
  now destruct a.
Qed.

Section WithExternals.
Context {ext : Externals}.

Lemma load_entries_written (flat : dict ndarray) : forall acc,
  NoDup (keys acc ++ keys flat) ->
  Forall (fun kv => supported kv.2) flat ->
  load_entries (map (fun kv => (kv.1 ++ ".npy", encode kv.2)%string) flat) acc
  = Ok (acc ++ map (fun kv => (kv.1, Array kv.2)) flat).
Proof.
  induction flat as [|[k a] flat IH]; intros acc Hnd Hsup.
  - cbn. now rewrite app_nil_r.
  - apply Forall_cons in Hsup as [Ha Hsup]. cbn [map fst snd load_entries].
    rewrite (fastload_written a Ha). cbn [mbind result_bind].
    rewrite drop_last_npy, set_fresh.
    + rewrite IH; [now rewrite <- app_assoc | | exact Hsup].
      unfold keys in *. rewrite map_app, <- app_assoc. exact Hnd.
    + apply NoDup_app in Hnd as (_ & Hdis & _). intros Hin.
      apply (Hdis k); [now apply list_elem_of_In | left].
Qed.

(** X18.  Writing and reading the geometry artifact are inverse to each
    other.  Take the geometry of the designs, keyed by id, with distinct
    slash-free keys at every level, no empty mapping and arrays the codec
    supports.  If decompressing undoes compressing, the archive gives
    back the entries laid in it and [dotdict] returns the mapping it is
    given, then loading the artifact written for that geometry (flatten,
    one [.npy] entry per flat key, archive, compress) yields the same tree
    of the same arrays, in the same order. *)
Theorem geometry_round_trip (gs : dict (mapping ndarray)) :
  let tree := map (fun kv => (kv.1, Dict kv.2)) gs in
  let flat := flatten tree in
  let entries := map (fun kv => (kv.1 ++ ".npy", encode kv.2)%string) flat in
  let loaded := map (fun kv => (kv.1, Array kv.2)) flat in
  well_keyed (Dict tree) = true ->
  forallb (fun kv => inhabited kv.2) tree = true ->
  Forall (fun kv => supported kv.2) flat ->
  gzip_decompress (gzip_compress (savez flat)) = Ok (savez flat) ->
  zip_entries (zip_archive entries) = Ok entries ->
  dotdict loaded = Ok loaded ->
  load_geometry (gzip_compress (savez flat))
  = Ok (map (fun kv => (kv.1, vmap Array kv.2)) tree).
Proof.
  intros tree flat entries loaded Hwk Hinh Hsup Hgz Hzip Hdot.
  assert (NoDup (keys flat)) as Hnd.
  { unfold flat. rewrite flatten_spec by exact Hwk.
    apply NoDup_keys_of_paths. rewrite paths_of_flat by exact Hwk. now apply NoDup_paths. }
  set (tree' := map (fun kv => (kv.1, vmap Array kv.2)) tree).
  assert (well_keyed (Dict tree') = true) as Hwk'.
  { change (Dict tree') with (vmap Array (Dict tree)). now rewrite well_keyed_vmap. }
  assert (forallb (fun kv => inhabited kv.2) tree' = true) as Hinh'.
  { unfold tree'. rewrite forallb_over_map. rewrite <- Hinh. apply forallb_Forall_ext.
    apply Forall_forall. intros [k v] _. cbn [fst snd]. apply inhabited_vmap. }
  unfold load_geometry. rewrite Hgz. cbn [mbind result_bind].
  unfold savez. fold entries. rewrite Hzip. cbn [mbind result_bind].
  unfold entries. rewrite load_entries_written by assumption.
  cbn [app mbind result_bind]. fold loaded. rewrite Hdot. cbn [mbind result_bind].
  assert (loaded = flatten tree') as ->.
  { unfold loaded, flat, tree'. rewrite !flatten_spec by assumption. now rewrite flat_vmap. }
  rewrite unflatten_paths, flatten_spec, paths_of_flat by assumption.
  now apply assign_all_paths.
Qed.

End WithExternals.

Lemma geometry_round_trip_witness :
  load_geometry (ext := callable framed)
    (@gzip_compress (callable framed)
       (savez (ext := callable framed) [("3/walls", walls)]))
  = Ok [("3", Dict [("walls", Arr (Array walls))])].
Proof.
  apply (geometry_round_trip (ext := callable framed) [("3", [("walls", Arr walls)])]).
  - reflexivity.
  - reflexivity.
  - constructor; [|constructor]. split; [exists 1%Z; split; reflexivity|].
    split; [repeat constructor; lia | vm_compute; lia].
  - reflexivity.
  - vm_compute. reflexivity.
  - reflexivity.
Defined.

End RoundTrip.

